(** * SimpleVectorStore: a vector store over Redis hashes

    A shallow embedding of [src/vector_search/simple_vector_store.py].

    - The Redis server is a finite map from keys to hashes (finite maps from
      field names to strings), together with the list of commands the client
      has sent and a schedule of the calls that fail.
    - Every method of [SimpleVectorStore] is a computation in a state and
      exception monad over that server; [try: ... except Exception:] is
      [try_except].
    - Numbers are IEEE 754 binary64 values ([float]), the element type of the
      numpy arrays the search builds.
    - [json.dumps], [json.loads] and the matching of a [KEYS] pattern belong
      to the json module and to the Redis server: they are parameters of the
      development ([Externals]). So are the calls of numpy whose result is
      the library's matter ([Numpy]): the conversion of a decoded value to
      an array, the norm and the sum of products. The closed runs at the
      end of the file use one concrete choice of them ([plain_json],
      [plain_numpy]). *)

From Stdlib Require Import Floats ZArith List Ascii String DecimalString DecimalZ DecimalPos Sorted.
From stdpp Require Import gmap strings list fin_maps.

Import ListNotations.
Local Open Scope string_scope.
Local Open Scope list_scope.
#[local] Set Warnings "-register-all,-clear-no-such-hyp".

(** ** Python values *)

(** The values [json.dumps] accepts and [json.loads] produces; every number
    is a binary64 value. *)
Inductive json : Type :=
| JNull
| JBool (b : bool)
| JNumber (x : float)
| JString (s : string)
| JArray (items : list json)
| JObject (members : list (string * json)).

(** The [vector] argument of [add_vector]: a numpy array (it has [tolist])
    or any other Python value. *)
Inductive vector_arg : Type :=
| ndarray (data : list float)
| pyobj (value : json).

Definition tolist (data : list float) : json := JArray (map JNumber data).

(** [vector.tolist() if hasattr(vector, 'tolist') else vector] *)
Definition as_jsonable (vector : vector_arg) : json :=
  match vector with
  | ndarray data => tolist data
  | pyobj value => value
  end.

(** [metadata is None] *)
Definition is_None (v : json) : bool :=
  match v with
  | JNull => true
  | _ => false
  end.

(** Truth value of what [hget] returns: [None] and the empty string are
    false. *)
Definition truthy (o : option string) : bool :=
  match o with
  | None => false
  | Some "" => false
  | Some _ => true
  end.

(** [not l] for a list *)
Definition is_empty {A : Type} (l : list A) : bool :=
  match l with
  | [] => true
  | _ => false
  end.

(** [l[:k]] for an integer [k]: a negative [k] counts from the end. *)
Definition slice_to {A : Type} (l : list A) (k : Z) : list A :=
  if (k <? 0)%Z then take (Z.to_nat (Z.of_nat (length l) + k)) l
  else take (Z.to_nat k) l.

(** ** Strings *)

(** [s.split(sep)] for a separator of one character. *)
Fixpoint split (sep : ascii) (s : string) : list string :=
  match s with
  | "" => [""]
  | String c rest =>
      if Ascii.eqb c sep then "" :: split sep rest
      else match split sep rest with
           | [] => [String c ""]
           | hd :: tl => String c hd :: tl
           end
  end.

(** [key.split(":")[-1]] *)
Definition last_segment (key : string) : string :=
  List.last (split ":" key) "".

(** [c in s] *)
Fixpoint contains (c : ascii) (s : string) : bool :=
  match s with
  | "" => false
  | String d rest => Ascii.eqb d c || contains c rest
  end.

(** ** Exceptions *)

Inductive exn : Type :=
| JSONDecodeError
| TypeError
| ValueError
| RedisError.

Inductive outcome (A : Type) : Type :=
| Return (a : A)
| Raise (e : exn).
Arguments Return {A} a.
Arguments Raise {A} e.

(** ** numpy on one-dimensional float64 arrays *)

(** What [search] calls of numpy and the repository does not define. The
    arrays that go through [search] are one-dimensional float64 arrays,
    lists of binary64 values here.

    - [np_array v] is the array that numpy makes of a decoded vector, or the
      exception with which [np.array] or the first of the steps that follow
      it in [search] refuses the value: which values numpy takes (numbers,
      booleans, integers of which size) is the library's matter.
    - [np_linalg_norm v] is [np.linalg.norm(v)].
    - [dot_sum a b] is the sum of the products of two arrays of one length
      as [np.dot] returns it: numpy leaves the order of the additions and
      the fusing of a product with an addition to its BLAS library, so that
      the last bits of the sum are the library's too. *)
Class Numpy : Type := {
  np_array : json -> outcome (list float);
  np_linalg_norm : list float -> float;
  dot_sum : list float -> list float -> float
}.

(** [v / d] for an array [v] and a number [d]: numpy divides component by
    component and raises no exception on a zero [d]; each quotient follows
    IEEE 754. *)
Definition vdiv (v : list float) (d : float) : list float :=
  map (fun x => (x / d)%float) v.

(** [np.dot(a, b)] on one-dimensional arrays: the shapes must agree. *)
Definition np_dot {np : Numpy} (a b : list float) : outcome float :=
  if Nat.eqb (length a) (length b) then Return (dot_sum a b)
  else Raise ValueError.

(** ** The server and the client *)

Inductive command : Type :=
| HSET (key field value : string)
| HGET (key field : string)
| DEL (key : string)
| KEYS (pattern : string).

(** The server as the client sees it: the data, the commands the client has
    sent, and for each command still to come whether the call fails
    ([true]: the client raises, say on a lost connection, and the data stay
    as they are). Past the end of [faults] every call succeeds. *)
Record Server : Type := mkServer {
  db : gmap string (gmap string string);
  calls : list command;
  faults : list bool
}.

(** The connection object held by the store. *)
Record RedisClient : Type := mkClient {
  decode_responses : bool
}.

Record SimpleVectorStore : Type := mkStore {
  redis_client : option RedisClient;
  prefix : string
}.

(** [SimpleVectorStore(redis_client=None, prefix="btagent:")] *)
Definition init (client : option RedisClient) (pfx : option string) : SimpleVectorStore :=
  {| redis_client := client; prefix := default "btagent:" pfx |}.

(** ** The monad *)

Definition M (A : Type) : Type := Server -> outcome A * Server.

Definition ret {A : Type} (a : A) : M A := fun s => (Return a, s).

Definition bind {A B : Type} (m : M A) (k : A -> M B) : M B :=
  fun s =>
    match m s with
    | (Return a, s') => k a s'
    | (Raise e, s') => (Raise e, s')
    end.

(** [try: body except Exception: handler]; what the body wrote before it
    raised stays written. *)
Definition try_except {A : Type} (body : M A) (handler : exn -> M A) : M A :=
  fun s =>
    match body s with
    | (Return a, s') => (Return a, s')
    | (Raise e, s') => handler e s'
    end.

(** A computation of json or numpy, which does not touch the server. *)
Definition lift {A : Type} (o : outcome A) : M A := fun s => (o, s).

Definition eval {A : Type} (m : M A) (s : Server) : outcome A := fst (m s).
Definition exec {A : Type} (m : M A) (s : Server) : Server := snd (m s).

Declare Scope monad_scope.
Delimit Scope monad_scope with monad.
Notation "'let*' x ':=' m 'in' k" := (bind m (fun x => k))
  (at level 10, x name, m at level 100, k at level 200) : monad_scope.
Notation "m1 ';;' m2" := (bind m1 (fun _ => m2))
  (at level 100, m2 at level 200, right associativity) : monad_scope.
Local Open Scope monad_scope.

(** ** Redis commands *)

(** [HSET key field value] on the data: the hash of [key] is created when
    the key is new. *)
Definition db_hset (key field value : string)
    (d : gmap string (gmap string string)) : gmap string (gmap string string) :=
  <[key := <[field := value]> (default ∅ (d !! key))]> d.

(** [HGET key field] on the data. *)
Definition db_hget (key field : string)
    (d : gmap string (gmap string string)) : option string :=
  match d !! key with
  | Some h => h !! field
  | None => None
  end.

(** One call of the client: the command is sent; unless the call fails the
    server applies [effect] to its data and answers. *)
Definition issue {A : Type} (c : command)
    (answer : gmap string (gmap string string) -> A)
    (effect : gmap string (gmap string string) -> gmap string (gmap string string)) : M A :=
  fun s =>
    match faults s with
    | true :: rest =>
        (Raise RedisError, {| db := db s; calls := calls s ++ [c]; faults := rest |})
    | _ =>
        (Return (answer (db s)),
         {| db := effect (db s); calls := calls s ++ [c]; faults := tail (faults s) |})
    end.

Definition redis_hset (key field value : string) : M unit :=
  issue (HSET key field value) (fun _ => tt) (db_hset key field value).

Definition redis_hget (key field : string) : M (option string) :=
  issue (HGET key field) (db_hget key field) (fun d => d).

Definition redis_delete (key : string) : M unit :=
  issue (DEL key) (fun _ => tt) (delete key).

(** ** Results *)

(** The dictionary returned by [get_vector] and listed by
    [get_all_vectors]. *)
Record VectorRecord : Type := mkVectorRecord {
  vr_id : string;
  vr_vector : json;
  vr_metadata : json
}.

(** The dictionary listed by [search]. *)
Record SearchResult : Type := mkSearchResult {
  sr_id : string;
  sr_similarity : float;
  sr_metadata : json
}.

(** [results.sort(key=lambda x: x["similarity"], reverse=True)]: a stable
    sort, largest similarity first, that compares keys with [<] only. *)
Fixpoint insert_desc (r : SearchResult) (sorted : list SearchResult) : list SearchResult :=
  match sorted with
  | [] => [r]
  | r' :: rest =>
      if (sr_similarity r <? sr_similarity r')%float then r' :: insert_desc r rest
      else r :: r' :: rest
  end.

Definition sort_desc (results : list SearchResult) : list SearchResult :=
  fold_right insert_desc [] results.

(** ** The store *)

(** What the store calls and does not define: [json.dumps] and
    [json.loads] of the standard library, and the server's matching of a
    key against a [KEYS] pattern. *)
Class Externals : Type := {
  json_dumps : json -> string;
  json_loads : string -> outcome json;
  glob_match : string -> string -> bool
}.

Section Store.

Context {ext : Externals} {np : Numpy}.

(** [redis_client.keys(pattern)]: the keys that match, in the order in which
    the map lists them (the server promises no order). *)
Definition db_keys (pattern : string) (d : gmap string (gmap string string)) : list string :=
  List.filter (glob_match pattern) (elements (dom d)).

Definition redis_keys (pattern : string) : M (list string) :=
  issue (KEYS pattern) (db_keys pattern) (fun d => d).

(** [f"{self.prefix}vector:{id}"] *)
Definition vector_key (self : SimpleVectorStore) (id : string) : string :=
  prefix self +:+ "vector:" +:+ id.

(** [f"{self.prefix}vector:*"] *)
Definition vector_pattern (self : SimpleVectorStore) : string :=
  prefix self +:+ "vector:*".

(** [json.loads(metadata_json) if metadata_json else {}] *)
Definition load_metadata (metadata_json : option string) : M json :=
  if truthy metadata_json then lift (json_loads (default "" metadata_json))
  else ret (JObject []).

(** [key.decode("utf-8").split(":")[-1] if isinstance(key, bytes)
     else key.split(":")[-1]]: the server answers with bytes unless the
    client decodes responses, and both branches take the last segment. *)
Definition extract_id (client : RedisClient) (key : string) : string :=
  if decode_responses client then last_segment key
  else last_segment key.

(** [add_vector(self, id, vector, metadata=None)]; [now] is what
    [datetime.now().isoformat()] returns during the call, and [JNull] is
    the [None] of an omitted [metadata]. *)
Definition add_vector (self : SimpleVectorStore) (id : string) (vector : vector_arg)
    (metadata : json) (now : string) : M bool :=
  match redis_client self with
  | None => ret false
  | Some _ =>
      try_except
        (let key := vector_key self id in
         let vector_json := json_dumps (as_jsonable vector) in
         let metadata := if is_None metadata then JObject [] else metadata in
         let metadata_json := json_dumps metadata in
         redis_hset key "vector" vector_json ;;
         redis_hset key "metadata" metadata_json ;;
         redis_hset key "created_at" now ;;
         ret true)
        (fun _ => ret false)
  end.

(** [get_vector(self, id)] *)
Definition get_vector (self : SimpleVectorStore) (id : string) : M (option VectorRecord) :=
  match redis_client self with
  | None => ret None
  | Some _ =>
      try_except
        (let key := vector_key self id in
         let* vector_json := redis_hget key "vector" in
         let* metadata_json := redis_hget key "metadata" in
         if negb (truthy vector_json) then ret None
         else
           let* vector := lift (json_loads (default "" vector_json)) in
           let* metadata := load_metadata metadata_json in
           ret (Some {| vr_id := id; vr_vector := vector; vr_metadata := metadata |}))
        (fun _ => ret None)
  end.

(** [delete_vector(self, id)] *)
Definition delete_vector (self : SimpleVectorStore) (id : string) : M bool :=
  match redis_client self with
  | None => ret false
  | Some _ =>
      try_except
        (let key := vector_key self id in
         redis_delete key ;;
         ret true)
        (fun _ => ret false)
  end.

(** The body of the loop of [search], for one key. *)
Definition search_step (client : RedisClient) (query_vec : list float) (threshold : float)
    (key : string) (results : list SearchResult) : M (list SearchResult) :=
  let* vector_json := redis_hget key "vector" in
  let* metadata_json := redis_hget key "metadata" in
  if negb (truthy vector_json) then ret results
  else
    let* vector := lift (json_loads (default "" vector_json)) in
    let* metadata := load_metadata metadata_json in
    let* vec := lift (np_array vector) in
    let vec := vdiv vec (np_linalg_norm vec) in
    let* similarity := lift (np_dot query_vec vec) in
    if (threshold <=? similarity)%float then
      let id := extract_id client key in
      ret (results ++ [{| sr_id := id; sr_similarity := similarity; sr_metadata := metadata |}])
    else ret results.

(** [for key in all_keys: ...] of [search], with the list built so far. *)
Fixpoint search_loop (client : RedisClient) (query_vec : list float) (threshold : float)
    (all_keys : list string) (results : list SearchResult) : M (list SearchResult) :=
  match all_keys with
  | [] => ret results
  | key :: rest =>
      let* results := search_step client query_vec threshold key results in
      search_loop client query_vec threshold rest results
  end.

(** [search(self, query_vector, k=5, threshold=0.0)] *)
Definition search (self : SimpleVectorStore) (query_vector : list float) (k : Z)
    (threshold : float) : M (list SearchResult) :=
  match redis_client self with
  | None => ret []
  | Some client =>
      try_except
        (let* all_keys := redis_keys (vector_pattern self) in
         if is_empty all_keys then ret []
         else
           let query_vec := query_vector in
           let query_vec := vdiv query_vec (np_linalg_norm query_vec) in
           let* results := search_loop client query_vec threshold all_keys [] in
           let results := sort_desc results in
           let results := slice_to results k in
           ret results)
        (fun _ => ret [])
  end.

(** The body of the loop of [get_all_vectors], for one key. *)
Definition get_all_step (client : RedisClient) (key : string)
    (vectors : list VectorRecord) : M (list VectorRecord) :=
  let* vector_json := redis_hget key "vector" in
  let* metadata_json := redis_hget key "metadata" in
  if negb (truthy vector_json) then ret vectors
  else
    let* vector := lift (json_loads (default "" vector_json)) in
    let* metadata := load_metadata metadata_json in
    let id := extract_id client key in
    ret (vectors ++ [{| vr_id := id; vr_vector := vector; vr_metadata := metadata |}]).

(** [for key in all_keys: ...] of [get_all_vectors]. *)
Fixpoint get_all_loop (client : RedisClient) (all_keys : list string)
    (vectors : list VectorRecord) : M (list VectorRecord) :=
  match all_keys with
  | [] => ret vectors
  | key :: rest =>
      let* vectors := get_all_step client key vectors in
      get_all_loop client rest vectors
  end.

(** [get_all_vectors(self, limit=1000)] *)
Definition get_all_vectors (self : SimpleVectorStore) (limit : Z) : M (list VectorRecord) :=
  match redis_client self with
  | None => ret []
  | Some client =>
      try_except
        (let* all_keys := redis_keys (vector_pattern self) in
         if is_empty all_keys then ret []
         else
           let all_keys := slice_to all_keys limit in
           get_all_loop client all_keys [])
        (fun _ => ret [])
  end.

(** [count_vectors(self)] *)
Definition count_vectors (self : SimpleVectorStore) : M nat :=
  match redis_client self with
  | None => ret 0
  | Some _ =>
      try_except
        (let* all_keys := redis_keys (vector_pattern self) in
         let count := length all_keys in
         ret count)
        (fun _ => ret 0)
  end.

(** [for key in all_keys: self.redis_client.delete(key)] *)
Fixpoint clear_loop (all_keys : list string) : M unit :=
  match all_keys with
  | [] => ret tt
  | key :: rest => redis_delete key ;; clear_loop rest
  end.

(** [clear(self)] *)
Definition clear (self : SimpleVectorStore) : M bool :=
  match redis_client self with
  | None => ret false
  | Some _ =>
      try_except
        (let* all_keys := redis_keys (vector_pattern self) in
         if is_empty all_keys then ret true
         else
           clear_loop all_keys ;;
           ret true)
        (fun _ => ret false)
  end.

End Store.

(** ** A concrete json codec and pattern matcher

    The closed runs at the end of the file need functions to compute with.
    This codec writes JSON text in the layout of [json.dumps], every number
    as its exact decimal expansion, and reads such text back. The theorems
    do not depend on it: they hold for every [Externals]. *)

Module PlainJson.

(** The double quote. *)
Definition quote : string := String "034"%char "".

Definition digits_of_N (n : N) : string :=
  NilZero.string_of_uint (N.to_uint n).

Fixpoint zeros (n : nat) : string :=
  match n with
  | O => ""
  | S n' => String "0" (zeros n')
  end.

(** Drops the zeros at the end of a fractional part, keeping one digit. *)
Fixpoint strip_zeros (frac : string) : string :=
  match frac with
  | "" => ""
  | String c rest =>
      match strip_zeros rest with
      | "" => if Ascii.eqb c "0" then "" else String c ""
      | kept => String c kept
      end
  end.

Definition fraction (frac : string) : string :=
  match strip_zeros frac with
  | "" => "0"
  | kept => kept
  end.

(** [m * 2^e] in decimal notation. *)
Definition decimal_of (m : positive) (e : Z) : string :=
  match e with
  | Zneg k =>
      let k := Pos.to_nat k in
      let ds := digits_of_N (Npos m * 5 ^ N.of_nat k) in
      let ds := zeros (S k - String.length ds) +:+ ds in
      let n := String.length ds - k in
      substring 0 n ds +:+ "." +:+ fraction (substring n k ds)
  | _ => digits_of_N (Npos m * 2 ^ Z.to_N e) +:+ ".0"
  end.

(** A number, by its exact decimal expansion. *)
Definition dumps_float (x : float) : string :=
  match Prim2SF x with
  | S754_nan => "NaN"
  | S754_infinity false => "Infinity"
  | S754_infinity true => "-Infinity"
  | S754_zero false => "0.0"
  | S754_zero true => "-0.0"
  | S754_finite s m e => (if s then "-" else "") +:+ decimal_of m e
  end.

Fixpoint join (sep : string) (parts : list string) : string :=
  match parts with
  | [] => ""
  | [p] => p
  | p :: rest => p +:+ sep +:+ join sep rest
  end.

(** The text of a value, with the separators of [json.dumps]; strings are
    written without escapes. *)
Fixpoint dumps (v : json) : string :=
  match v with
  | JNull => "null"
  | JBool true => "true"
  | JBool false => "false"
  | JNumber x => dumps_float x
  | JString s => quote +:+ s +:+ quote
  | JArray items => "[" +:+ join ", " (map dumps items) +:+ "]"
  | JObject members =>
      "{" +:+ join ", " (map (fun kv => quote +:+ fst kv +:+ quote +:+ ": " +:+ dumps (snd kv)) members)
          +:+ "}"
  end.

Fixpoint skip_ws (s : string) : string :=
  match s with
  | String " "%char rest => skip_ws rest
  | _ => s
  end.

Fixpoint strip_prefix (p s : string) : option string :=
  match p, s with
  | "", _ => Some s
  | String a p', String b s' => if Ascii.eqb a b then strip_prefix p' s' else None
  | _, _ => None
  end.

Definition digit_of (c : ascii) : option N :=
  let n := N_of_ascii c in
  if ((48 <=? n) && (n <=? 57))%N then Some (n - 48)%N else None.

(** Reads decimal digits: the number read so far, how many digits were
    read, and the rest of the text. *)
Fixpoint read_digits (s : string) (acc : N) (count : nat) : N * nat * string :=
  match s with
  | String c rest =>
      match digit_of c with
      | Some d => read_digits rest (acc * 10 + d)%N (S count)
      | None => (acc, count, s)
      end
  | "" => (acc, count, s)
  end.

(** A decimal [n / 10^k] is read when it is [m * 2^(-k)] for an integer
    [m], and then rounded to binary64. *)
Definition loads_number (s : string) : option (float * string) :=
  let '(neg, s) :=
    match s with
    | String "-"%char rest => (true, rest)
    | _ => (false, s)
    end in
  let '(int_part, int_digits, s) := read_digits s 0%N 0 in
  if Nat.eqb int_digits 0 then None
  else
    let '(n, k, s) :=
      match s with
      | String "."%char rest => read_digits rest int_part 0
      | _ => (int_part, 0, s)
      end in
    let p5 := (5 ^ N.of_nat k)%N in
    if (n mod p5 =? 0)%N then
      let m := Z.of_N (n / p5) in
      Some (SF2Prim (binary_normalize prec emax (if neg then - m else m)%Z
                       (- Z.of_nat k)%Z neg), s)
    else None.

Fixpoint read_string (s : string) : option (string * string) :=
  match s with
  | "" => None
  | String c rest =>
      if Ascii.eqb c "034"%char then Some ("", rest)
      else match read_string rest with
           | Some (body, rest') => Some (String c body, rest')
           | None => None
           end
  end.

Definition loads_atom (s : string) : option (json * string) :=
  match strip_prefix "null" s with
  | Some rest => Some (JNull, rest)
  | None =>
  match strip_prefix "true" s with
  | Some rest => Some (JBool true, rest)
  | None =>
  match strip_prefix "false" s with
  | Some rest => Some (JBool false, rest)
  | None =>
  match strip_prefix "NaN" s with
  | Some rest => Some (JNumber nan, rest)
  | None =>
  match strip_prefix "Infinity" s with
  | Some rest => Some (JNumber infinity, rest)
  | None =>
  match strip_prefix "-Infinity" s with
  | Some rest => Some (JNumber neg_infinity, rest)
  | None =>
  match loads_number s with
  | Some (x, rest) => Some (JNumber x, rest)
  | None => None
  end end end end end end end.

(** A value at the front of a text and the rest of the text; the fuel
    bounds the depth and the length of what is read. *)
Fixpoint loads_value (fuel : nat) (s : string) : option (json * string) :=
  match fuel with
  | O => None
  | S fuel =>
      match skip_ws s with
      | String "["%char rest =>
          match skip_ws rest with
          | String "]"%char rest' => Some (JArray [], rest')
          | _ =>
              match loads_items fuel rest with
              | Some (items, rest') => Some (JArray items, rest')
              | None => None
              end
          end
      | String "{"%char rest =>
          match skip_ws rest with
          | String "}"%char rest' => Some (JObject [], rest')
          | _ =>
              match loads_members fuel rest with
              | Some (members, rest') => Some (JObject members, rest')
              | None => None
              end
          end
      | String "034"%char rest =>
          match read_string rest with
          | Some (body, rest') => Some (JString body, rest')
          | None => None
          end
      | s' => loads_atom s'
      end
  end
with loads_items (fuel : nat) (s : string) : option (list json * string) :=
  match fuel with
  | O => None
  | S fuel =>
      match loads_value fuel s with
      | Some (v, rest) =>
          match skip_ws rest with
          | String ","%char rest' =>
              match loads_items fuel rest' with
              | Some (vs, rest'') => Some (v :: vs, rest'')
              | None => None
              end
          | String "]"%char rest' => Some ([v], rest')
          | _ => None
          end
      | None => None
      end
  end
with loads_members (fuel : nat) (s : string) : option (list (string * json) * string) :=
  match fuel with
  | O => None
  | S fuel =>
      match skip_ws s with
      | String "034"%char rest =>
          match read_string rest with
          | Some (name, rest') =>
              match skip_ws rest' with
              | String ":"%char rest'' =>
                  match loads_value fuel rest'' with
                  | Some (v, rest3) =>
                      match skip_ws rest3 with
                      | String ","%char rest4 =>
                          match loads_members fuel rest4 with
                          | Some (ms, rest5) => Some ((name, v) :: ms, rest5)
                          | None => None
                          end
                      | String "}"%char rest4 => Some ([(name, v)], rest4)
                      | _ => None
                      end
                  | None => None
                  end
              | _ => None
              end
          | None => None
          end
      | _ => None
      end
  end.

(** The value of a text, or a decoding error. *)
Definition loads (s : string) : outcome json :=
  match loads_value (2 * String.length s + 2) s with
  | Some (v, rest) =>
      match skip_ws rest with
      | "" => Return v
      | _ => Raise JSONDecodeError
      end
  | None => Raise JSONDecodeError
  end.

(** A [KEYS] pattern: [*] stands for any run of characters, [?] for any
    one character, every other character for itself (classes and escapes
    are not covered). *)
Fixpoint glob (pattern s : string) : bool :=
  match pattern with
  | "" => match s with "" => true | _ => false end
  | String "*"%char pattern' =>
      (fix star (s : string) : bool :=
         glob pattern' s ||
         match s with
         | "" => false
         | String _ s' => star s'
         end) s
  | String "?"%char pattern' =>
      match s with
      | "" => false
      | String _ s' => glob pattern' s'
      end
  | String c pattern' =>
      match s with
      | "" => false
      | String d s' => Ascii.eqb c d && glob pattern' s'
      end
  end.

End PlainJson.

Definition plain_json : Externals := {|
  json_dumps := PlainJson.dumps;
  json_loads := PlainJson.loads;
  glob_match := PlainJson.glob
|}.

(** One choice of numpy for the closed runs: an array is made of a flat
    list of numbers and booleans, the products are added from left to right
    with a rounding after every operation, and the norm is the square root
    of the sum of the squares. A numpy build that fuses products and
    additions can differ from it in the last bits of a sum, and [plain_json]
    reads every number as a float, so that the integers that numpy refuses
    for their size do not occur; the closed runs stay away from both. The
    theorems do not depend on this choice: they hold for every [Numpy]. *)
Module PlainNumpy.

Fixpoint as_floats (items : list json) : outcome (list float) :=
  match items with
  | [] => Return []
  | item :: rest =>
      match item, as_floats rest with
      | JNumber x, Return xs => Return (x :: xs)
      | JBool b, Return xs => Return ((if b then 1 else 0)%float :: xs)
      | _, Raise e => Raise e
      | _, _ => Raise TypeError
      end
  end.

Definition array (v : json) : outcome (list float) :=
  match v with
  | JArray items => as_floats items
  | _ => Raise TypeError
  end.

Definition dot (a b : list float) : float :=
  fold_left (fun acc xy => (acc + fst xy * snd xy)%float) (combine a b) 0%float.

Definition norm (v : list float) : float := PrimFloat.sqrt (dot v v).

End PlainNumpy.

Definition plain_numpy : Numpy := {|
  np_array := PlainNumpy.array;
  np_linalg_norm := PlainNumpy.norm;
  dot_sum := PlainNumpy.dot
|}.

(** ** Vocabulary of the statements *)

Section Vocabulary.

Context {ext : Externals} {np : Numpy}.

(** [json.loads(json.dumps(v))] gives [v] back, and the text is not empty. *)
Definition round_trips (v : json) : Prop :=
  json_dumps v <> "" /\ json_loads (json_dumps v) = Return v.

(** Every call still to come succeeds. *)
Definition reliable (s : Server) : Prop := Forall (fun fails => fails = false) (faults s).

(** What [search] appends for [key]: the last segment of the key, with the
    dot product of the query and of the stored vector divided by its norm,
    two arrays of one length, which passed the threshold. *)
Definition search_hit (d : gmap string (gmap string string)) (query_vec : list float) (threshold : float) (key : string)
    (r : SearchResult) : Prop :=
  sr_id r = last_segment key /\
  (threshold <=? sr_similarity r)%float = true /\
  exists text decoded v,
    db_hget key "vector" d = Some text /\
    json_loads text = Return decoded /\
    np_array decoded = Return v /\
    length query_vec = length v /\
    sr_similarity r = dot_sum query_vec (vdiv v (np_linalg_norm v)).

(** What [get_all_vectors] appends for [key]. *)
Definition listed (d : gmap string (gmap string string)) (key : string) (r : VectorRecord) : Prop :=
  vr_id r = last_segment key /\
  exists text,
    db_hget key "vector" d = Some text /\
    json_loads text = Return (vr_vector r).

End Vocabulary.

(** ** A store and values for the closed runs *)

Definition client : RedisClient := {| decode_responses := false |}.

Definition store : SimpleVectorStore := init (Some client) None.

Definition empty_server : Server := {| db := ∅; calls := []; faults := [] |}.

Definition unit_x : vector_arg := ndarray [1; 0; 0; 0]%float.
Definition unit_y : vector_arg := ndarray [0; 1; 0; 0]%float.
Definition near_x : vector_arg := pyobj (JArray [JNumber 0.5; JNumber 0.0625; JNumber 0; JNumber 0]).

Definition no_metadata : json := JNull.
Definition tagged : json := JObject [("kind", JString "truck"); ("axles", JNumber 3)].

(** The server after three insertions and one [HSET] that leaves a key with
    a metadata field only. *)
Definition populated : Server :=
  exec (add_vector (ext := plain_json) store "a" unit_x no_metadata "2024-01-01T00:00:00" ;;
        add_vector (ext := plain_json) store "b" unit_y no_metadata "2024-01-01T00:00:01" ;;
        add_vector (ext := plain_json) store "c" near_x tagged "2024-01-01T00:00:02" ;;
        redis_hset "btagent:vector:m" "metadata" "{}") empty_server.

(** ** Further servers for the closed runs *)

(** The server after the three insertions. *)
Definition three : Server :=
  exec (add_vector (ext := plain_json) store "a" unit_x no_metadata "2024-01-01T00:00:00" ;;
        add_vector (ext := plain_json) store "b" unit_y no_metadata "2024-01-01T00:00:01" ;;
        add_vector (ext := plain_json) store "c" near_x tagged "2024-01-01T00:00:02")
    empty_server.

(** [three] with one more key, whose vector text is not JSON. *)
Definition broken : Server :=
  exec (redis_hset "btagent:vector:x" "vector" "not json") three.

(** [three] with one more key, whose vector has two components. *)
Definition uneven : Server :=
  exec (redis_hset "btagent:vector:y" "vector" "[1.0, 0.0]") three.

(** A server with one key that has a vector field only. *)
Definition bare : Server :=
  exec (redis_hset "btagent:vector:v" "vector" "[1.0]") empty_server.

(** [three] when the next call succeeds and the one after it fails. *)
Definition flaky : Server :=
  {| db := db three; calls := []; faults := [false; true] |}.

(** [three] when the next call fails. *)
Definition down : Server :=
  {| db := db three; calls := []; faults := [true] |}.

(** The query of the closed runs, and the query divided by its norm. *)
Definition along_x : list float := [1; 0; 0; 0]%float.
Definition along_x_unit : list float :=
  vdiv along_x (np_linalg_norm (Numpy := plain_numpy) along_x).

(** The records of [three], in the order of its keys. *)
Definition three_records : list VectorRecord :=
  [ {| vr_id := "c"; vr_vector := as_jsonable near_x; vr_metadata := tagged |};
    {| vr_id := "a"; vr_vector := as_jsonable unit_x; vr_metadata := JObject [] |};
    {| vr_id := "b"; vr_vector := as_jsonable unit_y; vr_metadata := JObject [] |} ].

(** The similarity of a stored array with the query [along_x]. *)
Definition similarity_to_x (v : list float) : float :=
  dot_sum (Numpy := plain_numpy) along_x_unit
    (vdiv v (np_linalg_norm (Numpy := plain_numpy) v)).

Definition hit_a : SearchResult :=
  {| sr_id := "a";
     sr_similarity := similarity_to_x [1; 0; 0; 0]%float;
     sr_metadata := JObject [] |}.

Definition hit_c : SearchResult :=
  {| sr_id := "c";
     sr_similarity := similarity_to_x [0.5; 0.0625; 0; 0]%float;
     sr_metadata := tagged |}.

(** What the scan for [along_x] with threshold one half makes of the keys of
    [three], in their order. *)
Definition three_hits : list (option SearchResult) := [Some hit_c; Some hit_a; None].

(** A query whose norm underflows to zero, a server whose one stored vector
    has such a norm, and the records that [search] makes of them: the
    similarity is the sum of products with the quotient by the zero norm. *)
Definition faint : list float := [0x1p-600]%float.

Definition dim : Server :=
  exec (add_vector (ext := plain_json) store "t" (ndarray faint) no_metadata
          "2024-01-03T00:00:00") empty_server.

Definition hit_for_faint_query : SearchResult :=
  {| sr_id := "v";
     sr_similarity :=
       dot_sum (Numpy := plain_numpy)
         (vdiv faint (np_linalg_norm (Numpy := plain_numpy) faint))
         (vdiv [1]%float (np_linalg_norm (Numpy := plain_numpy) [1]%float));
     sr_metadata := JObject [] |}.

Definition hit_for_faint_vector : SearchResult :=
  {| sr_id := "t";
     sr_similarity :=
       dot_sum (Numpy := plain_numpy)
         (vdiv [1]%float (np_linalg_norm (Numpy := plain_numpy) [1]%float))
         (vdiv faint (np_linalg_norm (Numpy := plain_numpy) faint));
     sr_metadata := JObject [] |}.

(** [three] after an insertion under an id with a colon, the records that
    its keys hold and what the scan for [along_x] with threshold one half
    makes of them, in the order of the keys. *)
Definition with_colon : Server :=
  exec (add_vector (ext := plain_json) store "doc:1" unit_x tagged "2024-01-03T00:00:00")
    three.

Definition colon_records : list VectorRecord :=
  three_records ++
  [ {| vr_id := "1"; vr_vector := as_jsonable unit_x; vr_metadata := tagged |} ].

Definition hit_doc : SearchResult :=
  {| sr_id := "1";
     sr_similarity := similarity_to_x [1; 0; 0; 0]%float;
     sr_metadata := tagged |}.

Definition colon_hits : list (option SearchResult) := three_hits ++ [Some hit_doc].

(** ** Vocabulary of the further statements *)

(** A computation changes the data of the server under the keys of [K]
    only. *)
Definition confined {A : Type} (K : string -> Prop) (m : M A) : Prop :=
  forall s key, ~ K key -> db (exec m s) !! key = db s !! key.

(** The first [n] calls to come succeed. *)
Definition succeed (n : nat) (s : Server) : bool :=
  forallb negb (take n (faults s)).

(** Binary64 order on the similarities: [r1] may stand before [r2] in a
    list sorted from the largest similarity down. *)
Definition not_below (r1 r2 : SearchResult) : Prop :=
  (sr_similarity r2 <=? sr_similarity r1)%float = true.

Section FurtherVocabulary.

Context {ext : Externals} {np : Numpy}.

(** The key holds a vector that decodes to an array of another length than
    the query. *)
Definition mismatched (d : gmap string (gmap string string)) (query_vector : list float)
    (key : string) : Prop :=
  exists text decoded v,
    db_hget key "vector" d = Some text /\ text <> "" /\
    json_loads text = Return decoded /\
    np_array decoded = Return v /\
    length v <> length query_vector.

(** The key holds a vector field, and the text of its vector or of its
    metadata does not decode. *)
Definition undecodable (d : gmap string (gmap string string)) (key : string) : Prop :=
  exists text,
    db_hget key "vector" d = Some text /\ text <> "" /\
    ((exists e, json_loads text = Raise e) \/
     (exists metadata_text e,
        db_hget key "metadata" d = Some metadata_text /\ metadata_text <> "" /\
        json_loads metadata_text = Raise e)).

(** The record that the key holds: a vector field that decodes, and a
    metadata field that decodes or is missing or empty. *)
Definition holds_record (d : gmap string (gmap string string)) (key : string)
    (r : VectorRecord) : Prop :=
  vr_id r = last_segment key /\
  (exists text,
     db_hget key "vector" d = Some text /\ text <> "" /\
     json_loads text = Return (vr_vector r)) /\
  (if truthy (db_hget key "metadata" d)
   then json_loads (default "" (db_hget key "metadata" d)) = Return (vr_metadata r)
   else vr_metadata r = JObject []).

(** What the scan of [search] makes of a key whose texts decode: no hit
    when the vector field is missing or empty or when the similarity is
    below the threshold, and else the hit with the last segment of the key,
    the similarity and the metadata. *)
Definition scored (d : gmap string (gmap string string)) (query_vec : list float)
    (threshold : float) (key : string) (hit : option SearchResult) : Prop :=
  if truthy (db_hget key "vector" d) then
    exists decoded metadata v,
      json_loads (default "" (db_hget key "vector" d)) = Return decoded /\
      (if truthy (db_hget key "metadata" d)
       then json_loads (default "" (db_hget key "metadata" d)) = Return metadata
       else metadata = JObject []) /\
      np_array decoded = Return v /\
      length v = length query_vec /\
      let similarity := dot_sum query_vec (vdiv v (np_linalg_norm v)) in
      hit = if (threshold <=? similarity)%float
            then Some {| sr_id := last_segment key;
                         sr_similarity := similarity;
                         sr_metadata := metadata |}
            else None
  else hit = None.

End FurtherVocabulary.

(** * The publish/subscribe channel

    A shallow embedding of [src/redis_pubsub.py]: the class
    [MockRedisPubSub], and of the class [RedisPubSub] the function of its
    listening thread, over the events that arrive while no other thread
    changes the object.

    - A message is a Python value that [json.dumps] accepts; a [dict] is
      [JObject].
    - A callback is any callable of one argument. It acts on a world of its
      own, it may raise, and what it did before it raised stays done. The
      callbacks taken here do not reach the object that calls them.
    - [listeners] is the dictionary from channel names to callbacks. *)

Section Channels.

Context {ext : Externals}.
Context {World : Type}.

Definition Callback : Type := json -> World -> outcome unit * World.

(** [if isinstance(message, dict): message = json.dumps(message)] *)
Definition as_text (message : json) : json :=
  match message with
  | JObject _ => JString (json_dumps message)
  | _ => message
  end.

(** [try: callback(data) except Exception: log]: the result of the callback
    and its exception are dropped. *)
Definition call_logged (callback : Callback) (data : json) (w : World) : World :=
  snd (callback data w).

(** ** MockRedisPubSub *)

Record MockRedisPubSub : Type := mkMock {
  mock_listeners : gmap string Callback
}.

(** [MockRedisPubSub()] *)
Definition mock_init : MockRedisPubSub := {| mock_listeners := ∅ |}.

(** [MockRedisPubSub.subscribe(self, channel, callback)]: the assignment to
    the dictionary cannot raise for a channel name. *)
Definition mock_subscribe (self : MockRedisPubSub) (channel : string) (callback : Callback)
    : bool * MockRedisPubSub :=
  (true, {| mock_listeners := <[channel := callback]> (mock_listeners self) |}).

(** [MockRedisPubSub.unsubscribe(self, channel)] *)
Definition mock_unsubscribe (self : MockRedisPubSub) (channel : string)
    : bool * MockRedisPubSub :=
  match mock_listeners self !! channel with
  | Some _ => (true, {| mock_listeners := delete channel (mock_listeners self) |})
  | None => (true, self)
  end.

(** [MockRedisPubSub.publish(self, channel, message)] *)
Definition mock_publish (self : MockRedisPubSub) (channel : string) (message : json)
    (w : World) : bool * World :=
  let message := as_text message in
  match mock_listeners self !! channel with
  | Some callback => (true, call_logged callback message w)
  | None => (true, w)
  end.

(** ** RedisPubSub: the listening thread *)

(** What [pubsub.listen()] yields: a dictionary with the kind of the event,
    the channel and the data. The server sends bytes, which the client
    decodes or not; [_listen] decodes them, so that both arrive as the same
    text. *)
Record Event : Type := mkEvent {
  event_type : string;
  event_channel : string;
  event_data : string
}.

Record RedisPubSub : Type := mkPubSub {
  listeners : gmap string Callback;
  running : bool
}.

(** [try: data = json.loads(data) except: pass] *)
Definition decoded_or_text (data : string) : json :=
  match json_loads data with
  | Return value => value
  | Raise _ => JString data
  end.

(** The body of the loop of [_listen] for one event, past the test of
    [self.running]. *)
Definition listen_step (self : RedisPubSub) (message : Event) (w : World) : World :=
  if String.eqb (event_type message) "message" then
    let data := decoded_or_text (event_data message) in
    match listeners self !! event_channel message with
    | Some callback => call_logged callback data w
    | None => w
    end
  else w.

(** [for message in self.pubsub.listen(): if not self.running: break; ...]
    over the events that arrive while the calling thread leaves the object
    alone. *)
Fixpoint listen_loop (self : RedisPubSub) (messages : list Event) (w : World) : World :=
  match messages with
  | [] => w
  | message :: rest =>
      if running self then listen_loop self rest (listen_step self message w)
      else w
  end.

(** [RedisPubSub._listen(self)]: [lost] tells whether [pubsub.listen()]
    raises after the events; the handler then clears [self.running]. *)
Definition _listen (self : RedisPubSub) (messages : list Event) (lost : bool) (w : World)
    : RedisPubSub * World :=
  let w' := listen_loop self messages w in
  if running self && lost
  then ({| listeners := listeners self; running := false |}, w')
  else (self, w').

End Channels.

(** * The metrics counters

    A shallow embedding of [src/realtime_metrics.py].

    - The server holds under each key a string, a set, a list or a hash, and
      refuses a command on a key that holds a value of another kind. As for
      the store, a schedule tells which of the calls to come fail.
    - A client that decodes responses answers with [str] values, any other
      client with [bytes]; the texts are taken to be valid UTF-8, so that
      both carry the same text.
    - [int], [float] and [repr] of Python and the [datetime] class are
      parameters of the development ([Builtins]); [datetime.now()] is an
      argument of the methods that call it. *)

Module Metrics.

Inductive value : Type :=
| VString (text : string)
| VSet (members : gset string)
| VList (items : list string)
| VHash (fields : gmap string string).

(** The exceptions of the methods, all of them caught by
    [except Exception]. *)
Inductive error : Type :=
| ConnectionError
| ResponseError
| AttributeError
| ValueError.

(** What the client hands back for a text of the server. *)
Inductive reply : Type :=
| Bytes (text : string)
| Str (text : string).

Definition text_of (r : reply) : string :=
  match r with
  | Bytes text => text
  | Str text => text
  end.

(** Truth value of what [get] returns: [None] and the empty text are
    false. *)
Definition truthy (o : option reply) : bool :=
  match o with
  | None => false
  | Some r => negb (String.eqb (text_of r) "")
  end.

Record Redis : Type := mkRedis {
  data : gmap string value;
  faults : list bool
}.

(** ** The monad *)

Definition Run (A : Type) : Type := Redis -> (error + A) * Redis.

Definition ret {A : Type} (a : A) : Run A := fun s => (inr a, s).

Definition bind {A B : Type} (m : Run A) (k : A -> Run B) : Run B :=
  fun s =>
    match m s with
    | (inr a, s') => k a s'
    | (inl e, s') => (inl e, s')
    end.

(** [try: body except Exception: handler] *)
Definition try_except {A : Type} (body : Run A) (handler : error -> Run A) : Run A :=
  fun s =>
    match body s with
    | (inr a, s') => (inr a, s')
    | (inl e, s') => handler e s'
    end.

Definition lift {A : Type} (o : error + A) : Run A := fun s => (o, s).

Definition eval {A : Type} (m : Run A) (s : Redis) : error + A := fst (m s).
Definition exec {A : Type} (m : Run A) (s : Redis) : Redis := snd (m s).

Declare Scope run_scope.
Delimit Scope run_scope with run.
Notation "'let*' x ':=' m 'in' k" := (bind m (fun x => k))
  (at level 10, x name, m at level 100, k at level 200) : run_scope.
Notation "m1 ';;' m2" := (bind m1 (fun _ => m2))
  (at level 100, m2 at level 200, right associativity) : run_scope.
#[local] Open Scope run_scope.

(** ** The server's commands *)

(** The decimal text of an integer, as the server writes it. *)
Definition text_of_int (n : Z) : string := NilZero.string_of_int (Z.to_int n).

(** The integer a text stands for, as the server reads it for [INCR]: the
    text is the decimal text of a signed 64-bit integer, with no sign but
    [-], no leading zero and no space. *)
Definition int_of_text (text : string) : option Z :=
  match NilZero.int_of_string text with
  | Some i =>
      let n := Z.of_int i in
      if String.eqb (text_of_int n) text && (- 2 ^ 63 <=? n)%Z && (n <? 2 ^ 63)%Z
      then Some n else None
  | None => None
  end.

(** [LTRIM]: the items from index [start] to index [stop], both counted
    from the end when negative. *)
Definition trim (items : list string) (start stop : Z) : list string :=
  let llen := Z.of_nat (length items) in
  let start := if (start <? 0)%Z then (llen + start)%Z else start in
  let stop := if (stop <? 0)%Z then (llen + stop)%Z else stop in
  let start := if (start <? 0)%Z then 0%Z else start in
  if (stop <? start)%Z || (llen <=? start)%Z then []
  else
    let stop := if (llen <=? stop)%Z then (llen - 1)%Z else stop in
    take (Z.to_nat (stop - start + 1)) (drop (Z.to_nat start) items).

(** A command on the data: the server refuses it, or answers and leaves
    the data it has made of them. *)
Definition Command (A : Type) : Type :=
  gmap string value -> error + A * gmap string value.

Definition SCARD (key : string) : Command Z := fun d =>
  match d !! key with
  | None => inr (0%Z, d)
  | Some (VSet members) => inr (Z.of_nat (size members), d)
  | Some _ => inl ResponseError
  end.

Definition SMEMBERS (key : string) : Command (list string) := fun d =>
  match d !! key with
  | None => inr ([], d)
  | Some (VSet members) => inr (elements members, d)
  | Some _ => inl ResponseError
  end.

Definition GET (key : string) : Command (option string) := fun d =>
  match d !! key with
  | None => inr (None, d)
  | Some (VString text) => inr (Some text, d)
  | Some _ => inl ResponseError
  end.

(** [SET] replaces whatever the key holds. *)
Definition SET (key text : string) : Command unit := fun d =>
  inr (tt, <[key := VString text]> d).

(** [INCR]: a missing key counts as 0; the server refuses a text that is no
    integer and an increment past the largest 64-bit integer. *)
Definition INCR (key : string) : Command Z := fun d =>
  match d !! key with
  | None => inr (1%Z, <[key := VString "1"]> d)
  | Some (VString text) =>
      match int_of_text text with
      | Some n =>
          if (n + 1 <? 2 ^ 63)%Z
          then inr ((n + 1)%Z, <[key := VString (text_of_int (n + 1))]> d)
          else inl ResponseError
      | None => inl ResponseError
      end
  | Some _ => inl ResponseError
  end.

Definition LPUSH (key item : string) : Command Z := fun d =>
  match d !! key with
  | None => inr (1%Z, <[key := VList [item]]> d)
  | Some (VList items) =>
      inr (Z.of_nat (S (length items)), <[key := VList (item :: items)]> d)
  | Some _ => inl ResponseError
  end.

(** [LTRIM]: a list that becomes empty is removed with its key. *)
Definition LTRIM (key : string) (start stop : Z) : Command unit := fun d =>
  match d !! key with
  | None => inr (tt, d)
  | Some (VList items) =>
      match trim items start stop with
      | [] => inr (tt, delete key d)
      | kept => inr (tt, <[key := VList kept]> d)
      end
  | Some _ => inl ResponseError
  end.

(** One call of the client: when the call fails the client raises and the
    data stay as they are; else the server runs the command. *)
Definition issue {A : Type} (command : Command A) : Run A :=
  fun s =>
    match faults s with
    | true :: rest => (inl ConnectionError, {| data := data s; faults := rest |})
    | _ =>
        match command (data s) with
        | inr (a, d) => (inr a, {| data := d; faults := tail (faults s) |})
        | inl e => (inl e, {| data := data s; faults := tail (faults s) |})
        end
    end.

(** ** The client *)

Definition answer (client : RedisClient) (text : string) : reply :=
  if decode_responses client then Str text else Bytes text.

Definition scard (key : string) : Run Z := issue (SCARD key).

Definition smembers (client : RedisClient) (key : string) : Run (list reply) :=
  let* members := issue (SMEMBERS key) in
  ret (map (answer client) members).

Definition get (client : RedisClient) (key : string) : Run (option reply) :=
  let* text := issue (GET key) in
  ret (option_map (answer client) text).

Definition set (key text : string) : Run unit := issue (SET key text).

Definition incr (key : string) : Run Z := issue (INCR key).

Definition lpush (key item : string) : Run Z := issue (LPUSH key item).

Definition ltrim (key : string) (start stop : Z) : Run unit := issue (LTRIM key start stop).

(** ** Python *)

Class Builtins : Type := {
  datetime : Type;
  isoformat : datetime -> string;
  fromisoformat : string -> error + datetime;
  py_int : string -> error + Z;
  py_float : string -> error + float;
  py_repr : float -> string
}.

Section Methods.

Context {ext : Externals} {py : Builtins}.

(** The dictionary that [get_metrics] returns. *)
Record Report : Type := mkReport {
  vehicle_count : Z;
  vehicle_count_by_category : gmap string Z;
  search_count : Z;
  scraper_status : string;
  scraper_progress : float;
  scraper_last_update : option datetime;
  last_update : datetime
}.

(** ** RealtimeMetrics *)

Record RealtimeMetrics : Type := mkMetrics {
  redis_client : RedisClient;
  prefix : string
}.

(** [RealtimeMetrics(redis_client)] *)
Definition init (client : RedisClient) : RealtimeMetrics :=
  {| redis_client := client; prefix := "btagent:" |}.

(** [RealtimeMetrics._get_mock_metrics(self)]; [now] and [later] are what
    its two calls of [datetime.now()] return. *)
Definition _get_mock_metrics (now later : datetime) : Report :=
  {| vehicle_count := 120;
     vehicle_count_by_category :=
       list_to_map [("trucks", 45%Z); ("vans", 35%Z); ("buses", 20%Z); ("tractors", 10%Z);
                    ("construction", 5%Z); ("agricultural", 5%Z); ("trailers", 0%Z)];
     search_count := 250;
     scraper_status := "idle";
     scraper_progress := 0;
     scraper_last_update := Some now;
     last_update := later |}.

(** The loop of [get_metrics] over the categories:
    [category_str = category.decode("utf-8") if isinstance(category, bytes)
     else category] and one [scard] for each. *)
Fixpoint count_categories (self : RealtimeMetrics) (categories : list reply)
    (counts : gmap string Z) : Run (gmap string Z) :=
  match categories with
  | [] => ret counts
  | category :: rest =>
      let category_str :=
        match category with
        | Bytes text => text
        | Str text => text
        end in
      let* count := scard (prefix self +:+ "category:" +:+ category_str) in
      count_categories self rest (<[category_str := count]> counts)
  end.

(** [RealtimeMetrics.get_metrics(self)]; [now] is what the first call of
    [datetime.now()] returns and [later] what a second call returns. *)
Definition get_metrics (self : RealtimeMetrics) (now later : datetime) : Run Report :=
  let client := redis_client self in
  try_except
    (let* vehicle_count := scard (prefix self +:+ "vehicles") in
     let* categories := smembers client (prefix self +:+ "categories") in
     let* vehicle_count_by_category := count_categories self categories ∅ in
     let* search_count := get client (prefix self +:+ "search_count") in
     let* search_count :=
       lift (if truthy search_count
             then py_int (from_option text_of "" search_count)
             else inr 0%Z) in
     let* scraper_status := get client (prefix self +:+ "scraper_status") in
     let scraper_status :=
       match scraper_status with
       | Some (Bytes text) => text
       | _ => "idle"
       end in
     let* scraper_progress := get client (prefix self +:+ "scraper_progress") in
     let* scraper_progress :=
       lift (if truthy scraper_progress
             then py_float (from_option text_of "" scraper_progress)
             else inr 0%float) in
     let* scraper_last_update := get client (prefix self +:+ "scraper_last_update") in
     let* scraper_last_update :=
       lift (if truthy scraper_last_update
             then match scraper_last_update with
                  | Some (Bytes text) =>
                      match fromisoformat text with
                      | inr d => inr (Some d)
                      | inl e => inl e
                      end
                  | _ => inl AttributeError
                  end
             else inr None) in
     ret {| vehicle_count := vehicle_count;
            vehicle_count_by_category := vehicle_count_by_category;
            search_count := search_count;
            scraper_status := scraper_status;
            scraper_progress := scraper_progress;
            scraper_last_update := scraper_last_update;
            last_update := now |})
    (fun _ => ret (_get_mock_metrics now later)).

(** [RealtimeMetrics.update_search_stats(self, query)] *)
Definition update_search_stats (self : RealtimeMetrics) (query : json) (now : datetime)
    : Run bool :=
  try_except
    (incr (prefix self +:+ "search_count") ;;
     let search_data :=
       JObject [("query", query); ("timestamp", JString (isoformat now))] in
     lpush (prefix self +:+ "search_history") (json_dumps search_data) ;;
     ltrim (prefix self +:+ "search_history") 0 99 ;;
     ret true)
    (fun _ => ret false).

(** [RealtimeMetrics.update_scraper_status(self, status, progress=0.0)]:
    the client writes a [str] as it is and a [float] by its [repr]. *)
Definition update_scraper_status (self : RealtimeMetrics) (status : string)
    (progress : float) (now : datetime) : Run bool :=
  try_except
    (set (prefix self +:+ "scraper_status") status ;;
     set (prefix self +:+ "scraper_progress") (py_repr progress) ;;
     set (prefix self +:+ "scraper_last_update") (isoformat now) ;;
     ret true)
    (fun _ => ret false).

(** [RealtimeMetrics.update_agent_stats(self)] *)
Definition update_agent_stats (self : RealtimeMetrics) : Run bool :=
  try_except
    (incr (prefix self +:+ "conversation_count") ;;
     incr (prefix self +:+ "message_count") ;;
     ret true)
    (fun _ => ret false).

(** ** MockRealtimeMetrics *)

(** [MockRealtimeMetrics.get_metrics(self)] *)
Definition mock_get_metrics (now later : datetime) : Report :=
  {| vehicle_count := 120;
     vehicle_count_by_category :=
       list_to_map [("trucks", 45%Z); ("vans", 35%Z); ("buses", 20%Z); ("tractors", 10%Z);
                    ("construction", 5%Z); ("agricultural", 5%Z); ("trailers", 0%Z)];
     search_count := 250;
     scraper_status := "idle";
     scraper_progress := 0;
     scraper_last_update := Some now;
     last_update := later |}.

End Methods.

(** ** Vocabulary *)

(** Every call to come succeeds. *)
Definition reliable (s : Redis) : Prop := Forall (fun fails => fails = false) (faults s).

(** The list under a key; a missing key is the empty list. *)
Definition list_at (key : string) (d : gmap string value) : option (list string) :=
  match d !! key with
  | None => Some []
  | Some (VList items) => Some items
  | Some _ => None
  end.

(** The counter under a key; a missing key counts as 0. *)
Definition counter_at (key : string) (d : gmap string value) : option Z :=
  match d !! key with
  | None => Some 0%Z
  | Some (VString text) => int_of_text text
  | Some _ => None
  end.

(** What a computation does from the states of [P]: it returns a value and
    leaves a state that satisfy [Q], or it raises and leaves a state of
    [E]. *)
Definition triple {A : Type} (P : Redis -> Prop) (m : Run A)
    (Q : A -> Redis -> Prop) (E : Redis -> Prop) : Prop :=
  forall s, P s ->
    match m s with
    | (inr a, s') => Q a s'
    | (inl _, s') => E s'
    end.

End Metrics.

(** ** Closed choices for the channel and the metrics *)

(** A callback that adds what it receives to a list, and one that does the
    same and raises. *)
Definition remember : @Callback (list json) := fun data w => (Return tt, w ++ [data]).
Definition refuse : @Callback (list json) := fun data w => (Raise ValueError, w ++ [data]).

Definition truck_members : list (string * json) := [("kind", JString "truck")].

Definition alerts_mock : @MockRedisPubSub (list json) :=
  {| mock_listeners := {["alerts" := remember]} |}.

Definition alerts_listener : @RedisPubSub (list json) :=
  {| listeners := {["alerts" := remember]}; running := true |}.

(** One choice of the builtins for the closed runs: a time is its ISO text
    to the second, an integer is read from its decimal digits and a float
    is written and read by its exact decimal expansion. *)
Module PlainBuiltins.

Definition is_digit (c : ascii) : bool :=
  let n := N_of_ascii c in ((48 <=? n) && (n <=? 57))%N.

(** The text has the shape of the pattern, where [d] stands for a digit. *)
Fixpoint shaped (pattern text : string) : bool :=
  match pattern, text with
  | "", "" => true
  | String p pattern', String c text' =>
      (if Ascii.eqb p "d" then is_digit c else Ascii.eqb p c) && shaped pattern' text'
  | _, _ => false
  end.

Definition fromisoformat (text : string) : Metrics.error + string :=
  if shaped "dddd-dd-ddTdd:dd:dd" text then inr text else inl Metrics.ValueError.

Definition int (text : string) : Metrics.error + Z :=
  match NilZero.int_of_string text with
  | Some i => inr (Z.of_int i)
  | None => inl Metrics.ValueError
  end.

Definition float (text : string) : Metrics.error + PrimFloat.float :=
  match PlainJson.loads_number text with
  | Some (x, "") => inr x
  | _ => inl Metrics.ValueError
  end.

End PlainBuiltins.

Definition plain_builtins : Metrics.Builtins := {|
  Metrics.datetime := string;
  Metrics.isoformat := fun text => text;
  Metrics.fromisoformat := PlainBuiltins.fromisoformat;
  Metrics.py_int := PlainBuiltins.int;
  Metrics.py_float := PlainBuiltins.float;
  Metrics.py_repr := PlainJson.dumps_float
|}.

(** A client that decodes responses. *)
Definition decoding : RedisClient := {| decode_responses := true |}.

(** A server that holds nothing, one that has counted 41 searches and holds
    a history of a hundred entries, one whose history key holds a string,
    and one whose second call fails. *)
Definition blank : Metrics.Redis := {| Metrics.data := ∅; Metrics.faults := [] |}.

Definition searched : Metrics.Redis :=
  {| Metrics.data :=
       <["btagent:search_count" := Metrics.VString "41"]>
         (<["btagent:search_history" := Metrics.VList (replicate 100 "earlier")]> ∅);
     Metrics.faults := [] |}.

Definition clashing : Metrics.Redis :=
  {| Metrics.data := {["btagent:search_history" := Metrics.VString "text"]};
     Metrics.faults := [] |}.

Definition dropping : Metrics.Redis :=
  {| Metrics.data := ∅; Metrics.faults := [false; true] |}.

(** The metrics that a client without decoding reads on [blank] after the
    scraper was reported as running at one half. *)
Definition after_update : @Metrics.Report plain_builtins :=
  @Metrics.mkReport plain_builtins 0 ∅ 0 "running" 0.5
    (Some "2024-01-03T00:00:00") "2024-01-03T00:00:01".

(** * Properties *)

(** ** The hash commands on the map *)

Section DbFacts.

Implicit Types (d : gmap string (gmap string string)) (key field value : string).

Lemma db_hget_hset_eq key field value d :
  db_hget key field (db_hset key field value d) = Some value.
Proof.
  unfold db_hget, db_hset. rewrite lookup_insert_eq. apply lookup_insert_eq.
Qed.

Lemma db_hget_hset_field key field field' value d :
  field <> field' ->
  db_hget key field (db_hset key field' value d) = db_hget key field d.
Proof.
  intros Hne. unfold db_hget, db_hset. rewrite lookup_insert_eq.
  rewrite lookup_insert_ne by congruence.
  destruct (d !! key) as [h|]; simpl; [reflexivity | apply lookup_empty].
Qed.

Lemma db_hget_delete key field d : db_hget key field (delete key d) = None.
Proof. unfold db_hget. rewrite lookup_delete_eq. reflexivity. Qed.

Lemma dom_db_hset key field value d :
  dom (db_hset key field value d) = {[key]} ∪ dom d.
Proof. unfold db_hset. apply dom_insert_L. Qed.

End DbFacts.

(** ** The monad *)

Section MonadFacts.

Context {A B : Type}.

Lemma bind_run (m : M A) (k : A -> M B) s a s' :
  m s = (Return a, s') -> bind m k s = k a s'.
Proof. intros Hm. unfold bind. rewrite Hm. reflexivity. Qed.

Lemma bind_raise (m : M A) (k : A -> M B) s e s' :
  m s = (Raise e, s') -> bind m k s = (Raise e, s').
Proof. intros Hm. unfold bind. rewrite Hm. reflexivity. Qed.

Lemma eval_bind (m : M A) (k : A -> M B) s a s' :
  m s = (Return a, s') -> eval (bind m k) s = eval (k a) s'.
Proof. intros Hm. unfold eval. rewrite (bind_run _ _ _ _ _ Hm). reflexivity. Qed.

Lemma eval_run (m : M A) s a : eval m s = Return a -> m s = (Return a, exec m s).
Proof. unfold eval, exec. destruct (m s) as [o s']. simpl. intros ->. reflexivity. Qed.

(** A handler that returns a value turns every outcome into a return. *)
Lemma try_except_total (body : M A) (v : A) s :
  exists a s', try_except body (fun _ => ret v) s = (Return a, s').
Proof.
  unfold try_except. destruct (body s) as [[a|e] s']; [exists a, s' | exists v, s'];
    reflexivity.
Qed.

Lemma try_except_returns (body : M A) (handler : exn -> M A) s a (Q : Server -> Prop) :
  (exists s', body s = (Return a, s') /\ Q s') ->
  exists s', try_except body handler s = (Return a, s') /\ Q s'.
Proof.
  intros (s' & Hbody & HQ). exists s'. split; [| exact HQ].
  unfold try_except. rewrite Hbody. reflexivity.
Qed.

End MonadFacts.

(** ** One call of the client *)

Section Calls.

Context {A : Type} (c : command) (answer : gmap string (gmap string string) -> A)
  (effect : gmap string (gmap string string) -> gmap string (gmap string string)).

Lemma issue_reliable s :
  reliable s ->
  exists s',
    issue c answer effect s = (Return (answer (db s)), s') /\
    db s' = effect (db s) /\
    reliable s'.
Proof.
  unfold reliable, issue. intros Hrel.
  destruct (faults s) as [|[|] rest] eqn:Hfaults.
  - eexists. split; [reflexivity |]. split; [reflexivity | constructor].
  - inversion Hrel; discriminate.
  - eexists. split; [reflexivity |]. split; [reflexivity |].
    inversion Hrel; assumption.
Qed.

Lemma issue_outcome s :
  exists s',
    (issue c answer effect s = (Return (answer (db s)), s') /\ db s' = effect (db s)) \/
    (issue c answer effect s = (Raise RedisError, s') /\ db s' = db s).
Proof.
  unfold issue. destruct (faults s) as [|[|] rest]; eexists;
    first [ left; split; reflexivity | right; split; reflexivity ].
Qed.

End Calls.

(** Runs the call in front of the goal's computation on a state whose calls
    succeed. *)
Ltac run_call Hrel :=
  lazymatch goal with
  | |- context [bind (issue ?c ?answer ?effect) ?k ?s] =>
      let s' := fresh "s" in
      let Hrun := fresh "Hrun" in
      let Hdb := fresh "Hdb" in
      let Hrel' := fresh "Hrel" in
      destruct (issue_reliable c answer effect s Hrel) as (s' & Hrun & Hdb & Hrel');
      rewrite (bind_run _ _ _ _ _ Hrun); clear Hrun
  end.

(** Closes a branch of a scan step: the step returned the list as it was,
    raised, or appended one record. *)
Ltac scan_leaf :=
  eexists; split; cycle 1;
  [ first [ left; reflexivity
          | right; right; eexists; reflexivity
          | right; left; eexists; split; [reflexivity |] ]
  | try congruence ].

(** Runs the call in front of a scan step, whether it succeeds or fails. *)
Ltac scan_call :=
  lazymatch goal with
  | |- context [bind (issue ?c ?answer ?effect) ?k ?s] =>
      let s' := fresh "s" in
      let Hrun := fresh "Hrun" in
      let Hdb := fresh "Hdb" in
      destruct (issue_outcome c answer effect s) as (s' & [[Hrun Hdb] | [Hrun Hdb]]);
      [ rewrite (bind_run _ _ _ _ _ Hrun) | rewrite (bind_raise _ _ _ _ _ Hrun) ];
      clear Hrun
  end.

Lemma truthy_Some (text : string) : text <> "" -> truthy (Some text) = true.
Proof. destruct text; [congruence | reflexivity]. Qed.

Lemma truthy_inv (o : option string) :
  truthy o = true -> exists text, o = Some text /\ text <> "".
Proof.
  destruct o as [[|a text]|]; simpl; try discriminate.
  intros _. eexists. split; [reflexivity | discriminate].
Qed.

Lemma is_None_false (m : json) : m <> JNull -> is_None m = false.
Proof. destruct m; intros Hm; [congruence | reflexivity ..]. Qed.

(** ** One operation at a time, when every call succeeds *)

Section Runs.

Context {ext : Externals} {np : Numpy}.

Implicit Types (c : RedisClient) (p id now : string) (s : Server) (v m : json).

Lemma load_metadata_run (metadata_json : option string) s :
  exists o, load_metadata metadata_json s = (o, s).
Proof.
  unfold load_metadata, lift, ret. destruct (truthy metadata_json); eexists; reflexivity.
Qed.

Lemma add_vector_run c p id vector metadata now s :
  let self := mkStore (Some c) p in
  let key := vector_key self id in
  reliable s ->
  exists s',
    add_vector self id vector metadata now s = (Return true, s') /\
    reliable s' /\
    db_hget key "vector" (db s') = Some (json_dumps (as_jsonable vector)) /\
    db_hget key "metadata" (db s')
    = Some (json_dumps (if is_None metadata then JObject [] else metadata)) /\
    db_hget key "created_at" (db s') = Some now /\
    dom (db s') = {[key]} ∪ dom (db s).
Proof.
  intros self key Hrel. subst self key.
  cbv [add_vector redis_client redis_hset]. apply try_except_returns.
  run_call Hrel. run_call Hrel0. run_call Hrel1.
  eexists. split; [reflexivity |]. split; [assumption |].
  rewrite Hdb1, Hdb0, Hdb. repeat split.
  - rewrite !db_hget_hset_field by discriminate. apply db_hget_hset_eq.
  - rewrite db_hget_hset_field by discriminate. apply db_hget_hset_eq.
  - apply db_hget_hset_eq.
  - rewrite !dom_db_hset. set_solver.
Qed.

Lemma get_vector_found c p id s vector_json metadata_json v m :
  let self := mkStore (Some c) p in
  let key := vector_key self id in
  reliable s ->
  db_hget key "vector" (db s) = Some vector_json -> vector_json <> "" ->
  json_loads vector_json = Return v ->
  db_hget key "metadata" (db s) = Some metadata_json -> metadata_json <> "" ->
  json_loads metadata_json = Return m ->
  exists s',
    get_vector self id s
    = (Return (Some {| vr_id := id; vr_vector := v; vr_metadata := m |}), s') /\
    reliable s' /\ db s' = db s.
Proof.
  intros self key Hrel Hv Hv' Hlv Hm Hm' Hlm. subst self key.
  cbv [get_vector redis_client redis_hget]. apply try_except_returns.
  run_call Hrel. run_call Hrel0.
  rewrite Hv, Hdb, Hm, (truthy_Some _ Hv'). cbn [negb default from_option Datatypes.id].
  cbv [bind lift load_metadata]. rewrite Hlv, (truthy_Some _ Hm').
  cbn [default from_option Datatypes.id]. rewrite Hlm.
  eexists. split; [reflexivity |]. split; [assumption | congruence].
Qed.

Lemma get_vector_missing c p id s :
  let self := mkStore (Some c) p in
  reliable s ->
  truthy (db_hget (vector_key self id) "vector" (db s)) = false ->
  exists s', get_vector self id s = (Return None, s') /\ reliable s' /\ db s' = db s.
Proof.
  intros self Hrel Hv. subst self.
  cbv [get_vector redis_client redis_hget]. apply try_except_returns.
  run_call Hrel. run_call Hrel0. rewrite Hv. cbn [negb].
  eexists. split; [reflexivity |]. split; [assumption | congruence].
Qed.

Lemma delete_vector_run c p id s :
  let self := mkStore (Some c) p in
  reliable s ->
  exists s',
    delete_vector self id s = (Return true, s') /\
    reliable s' /\ db s' = delete (vector_key self id) (db s).
Proof.
  intros self Hrel. subst self.
  cbv [delete_vector redis_client redis_delete]. apply try_except_returns.
  run_call Hrel. eexists. split; [reflexivity |]. split; assumption.
Qed.

Lemma count_vectors_run c p s :
  let self := mkStore (Some c) p in
  reliable s ->
  exists s',
    count_vectors self s = (Return (length (db_keys (vector_pattern self) (db s))), s') /\
    reliable s' /\ db s' = db s.
Proof.
  intros self Hrel. subst self.
  cbv [count_vectors redis_client redis_keys]. apply try_except_returns.
  run_call Hrel. eexists. split; [reflexivity |]. split; assumption.
Qed.

End Runs.

(** ** Insertion, lookup and deletion *)

Section Records.

Context {ext : Externals} {np : Numpy}.

Implicit Types (c : RedisClient) (p id now : string) (s : Server) (m : json).

(** C1, as amended: when its calls succeed, [add_vector] writes the time of
    the call into [created_at], on a first insertion and on an overwrite
    alike, so the field holds the time of the latest [add_vector] for the
    id. *)
Theorem add_vector_sets_created_at c p id vector metadata now s :
  let self := mkStore (Some c) p in
  reliable s ->
  eval (add_vector self id vector metadata now) s = Return true /\
  db_hget (vector_key self id) "created_at"
    (db (exec (add_vector self id vector metadata now) s)) = Some now.
Proof.
  intros self Hrel.
  destruct (add_vector_run c p id vector metadata now s Hrel)
    as (s' & Hrun & _ & _ & _ & Hcreated & _).
  fold self in Hrun. unfold eval, exec. rewrite Hrun. split; [reflexivity | exact Hcreated].
Qed.



(** C7: on a store with a client whose calls succeed, [delete_vector(id)]
    returns true whether or not a record is stored under [id], and
    [get_vector(id)] then finds nothing. *)
Theorem delete_then_get_absent c p id s :
  let self := mkStore (Some c) p in
  reliable s ->
  eval (let* deleted := delete_vector self id in
        let* found := get_vector self id in
        ret (deleted, found)) s
  = Return (true, None).
Proof.
  intros self Hrel.
  destruct (delete_vector_run c p id s Hrel) as (s1 & Hdel & Hrel1 & Hdb).
  destruct (get_vector_missing c p id s1 Hrel1) as (s2 & Hget & _).
  { rewrite Hdb, db_hget_delete. reflexivity. }
  rewrite (eval_bind _ _ _ _ _ Hdel), (eval_bind _ _ _ _ _ Hget). reflexivity.
Qed.

End Records.

(** ** Comparisons of binary64 values *)

Lemma SFcompare_antisym (a b : spec_float) (c : comparison) :
  SFcompare a b = Some c -> SFcompare b a = Some (CompOpp c).
Proof.
  destruct a as [sa|sa| |sa ma ea], b as [sb|sb| |sb mb eb]; simpl;
    try discriminate; intros [= <-];
    try (destruct sa; reflexivity); try (destruct sb; reflexivity);
    try (destruct sa, sb; reflexivity).
  destruct sa, sb; try reflexivity;
    rewrite (Z.compare_antisym ea eb);
    destruct (ea ?= eb)%Z; simpl; try reflexivity;
    rewrite (Pos.compare_cont_antisym ma mb Eq); reflexivity.
Qed.

(** [t <= x] excludes [x < t], also for infinities and NaN. *)
Lemma leb_true_ltb_false (t x : float) :
  (t <=? x)%float = true -> (x <? t)%float = false.
Proof.
  rewrite leb_spec, ltb_spec. unfold SFleb, SFltb.
  destruct (SFcompare (Prim2SF t) (Prim2SF x)) as [c|] eqn:Hc; [| discriminate].
  rewrite (SFcompare_antisym _ _ _ Hc). destruct c; simpl; congruence.
Qed.

(** ** Sorting and slicing keep what holds of every element *)

Section ForallFacts.

Context {A : Type} (P : A -> Prop).

Lemma slice_to_Forall (l : list A) (k : Z) : Forall P l -> Forall P (slice_to l k).
Proof. intros Hl. unfold slice_to. destruct (k <? 0)%Z; apply Forall_take, Hl. Qed.

Lemma slice_to_length (l : list A) (k : Z) : length (slice_to l k) <= length l.
Proof. unfold slice_to. destruct (k <? 0)%Z; rewrite length_take; lia. Qed.

Lemma slice_to_In (l : list A) (k : Z) (x : A) : In x (slice_to l k) -> In x l.
Proof.
  unfold slice_to. destruct (k <? 0)%Z; intros Hx;
    match type of Hx with
    | In _ (take ?n _) => rewrite <- (take_drop n l); apply in_or_app; left; exact Hx
    end.
Qed.

End ForallFacts.

Lemma insert_desc_Forall (P : SearchResult -> Prop) r sorted :
  P r -> Forall P sorted -> Forall P (insert_desc r sorted).
Proof.
  intros Hr Hs. induction Hs as [|r' rest Hr' Hrest IH]; simpl.
  - constructor; [exact Hr | constructor].
  - destruct (sr_similarity r <? sr_similarity r')%float; repeat constructor; assumption.
Qed.

Lemma sort_desc_Forall (P : SearchResult -> Prop) results :
  Forall P results -> Forall P (sort_desc results).
Proof.
  intros Hr. induction Hr as [|r rest Hr Hrest IH]; simpl.
  - constructor.
  - apply insert_desc_Forall; assumption.
Qed.

(** ** The scans of [search] and [get_all_vectors] *)

Section Scans.

Context {ext : Externals} {np : Numpy}.

Implicit Types (c : RedisClient) (p key : string) (s : Server)
  (d : gmap string (gmap string string)).

Lemma extract_id_last_segment c key : extract_id c key = last_segment key.
Proof. unfold extract_id. destruct (decode_responses c); reflexivity. Qed.

Lemma search_step_spec c query_vec threshold key acc s :
  exists s',
    db s' = db s /\
    (search_step c query_vec threshold key acc s = (Return acc, s') \/
     (exists r,
        search_step c query_vec threshold key acc s = (Return (acc ++ [r]), s') /\
        search_hit (db s) query_vec threshold key r) \/
     (exists e, search_step c query_vec threshold key acc s = (Raise e, s'))).
Proof.
  cbv [search_step redis_hget].
  scan_call; [| scan_leaf]. scan_call; [| scan_leaf].
  destruct (truthy (db_hget key "vector" (db s))) eqn:Htruthy; cbn [negb];
    [| unfold ret; scan_leaf].
  destruct (truthy_inv _ Htruthy) as (text & Hvec & _). rewrite Hvec.
  cbn [default from_option Datatypes.id]. cbv [bind lift ret].
  destruct (json_loads text) as [decoded|e] eqn:Hdecoded; [| scan_leaf].
  match goal with
  | |- context [load_metadata ?mj ?s'] =>
      destruct (load_metadata_run mj s') as (o & Hmeta); rewrite Hmeta
  end.
  destruct o as [metadata|e]; [| scan_leaf].
  destruct (np_array decoded) as [v|e] eqn:Harray; [| scan_leaf].
  unfold np_dot.
  destruct (Nat.eqb (length query_vec) (length (vdiv v (np_linalg_norm v)))) eqn:Hshape;
    [| scan_leaf].
  destruct (threshold <=? dot_sum query_vec (vdiv v (np_linalg_norm v)))%float eqn:Hpass;
    [| scan_leaf].
  scan_leaf.
  apply Nat.eqb_eq in Hshape. unfold vdiv in Hshape at 1. rewrite length_map in Hshape.
  repeat split; [apply extract_id_last_segment | exact Hpass |].
  exists text, decoded, v. repeat split; assumption.
Qed.

Lemma search_loop_spec c query_vec threshold (P : SearchResult -> Prop) d all_keys :
  (forall key r, In key all_keys -> search_hit d query_vec threshold key r -> P r) ->
  forall acc s,
    db s = d -> Forall P acc ->
    exists s',
      db s' = d /\
      ((exists results,
          search_loop c query_vec threshold all_keys acc s = (Return results, s') /\
          Forall P results) \/
       (exists e, search_loop c query_vec threshold all_keys acc s = (Raise e, s'))).
Proof.
  induction all_keys as [|key rest IH]; intros Hhit acc s Hdb Hacc.
  - exists s. split; [exact Hdb |]. left. exists acc. split; [reflexivity | exact Hacc].
  - cbn [search_loop].
    destruct (search_step_spec c query_vec threshold key acc s)
      as (s1 & Hdb1 & [Hstep | [(r & Hstep & Hr) | (e & Hstep)]]).
    + destruct (IH (fun k r Hk => Hhit k r (or_intror Hk)) acc s1) as (s2 & Hdb2 & Hrest);
        [congruence | exact Hacc |].
      exists s2. split; [exact Hdb2 |]. rewrite (bind_run _ _ _ _ _ Hstep). exact Hrest.
    + destruct (IH (fun k r Hk => Hhit k r (or_intror Hk)) (acc ++ [r]) s1)
        as (s2 & Hdb2 & Hrest); [congruence | |].
      { apply Forall_app. split; [exact Hacc |]. constructor; [| constructor].
        apply (Hhit key); [left; reflexivity | rewrite <- Hdb; exact Hr]. }
      exists s2. split; [exact Hdb2 |]. rewrite (bind_run _ _ _ _ _ Hstep). exact Hrest.
    + exists s1. split; [congruence |]. right. exists e. apply bind_raise, Hstep.
Qed.

(** [search] returns a list, and every element of it was appended by the
    scan for one of the keys of the namespace. *)
Lemma search_spec c p query_vector k threshold s :
  let self := mkStore (Some c) p in
  exists results,
    eval (search self query_vector k threshold) s = Return results /\
    Forall (fun r => exists key,
              In key (db_keys (vector_pattern self) (db s)) /\
              search_hit (db s) (vdiv query_vector (np_linalg_norm query_vector))
                threshold key r) results.
Proof.
  intros self.
  cbv [search self redis_client try_except redis_keys eval]. fold self.
  scan_call; [| exists []; split; [reflexivity | constructor]].
  destruct (db_keys (vector_pattern self) (db s)) as [|key rest] eqn:Hkeys; cbn [is_empty].
  { exists []. split; [reflexivity | constructor]. }
  rewrite <- Hkeys.
  match goal with
  | |- context [bind (search_loop c ?qv threshold ?ks []) _ ?s1] =>
      destruct (search_loop_spec c qv threshold
                  (fun r => exists key, In key ks /\ search_hit (db s) qv threshold key r)
                  (db s) ks (fun key r Hk Hr => ex_intro _ key (conj Hk Hr))
                  [] s1 Hdb ltac:(constructor))
        as (s2 & _ & [(results & Hloop & Hall) | (e & Hloop)])
  end.
  - rewrite (bind_run _ _ _ _ _ Hloop).
    eexists. split; [reflexivity |]. apply slice_to_Forall, sort_desc_Forall, Hall.
  - rewrite (bind_raise _ _ _ _ _ Hloop).
    exists []. split; [reflexivity | constructor].
Qed.

Lemma get_all_step_spec c key acc s :
  exists s',
    db s' = db s /\
    (get_all_step c key acc s = (Return acc, s') \/
     (exists r,
        get_all_step c key acc s = (Return (acc ++ [r]), s') /\ listed (db s) key r) \/
     (exists e, get_all_step c key acc s = (Raise e, s'))).
Proof.
  cbv [get_all_step redis_hget].
  scan_call; [| scan_leaf]. scan_call; [| scan_leaf].
  destruct (truthy (db_hget key "vector" (db s))) eqn:Htruthy; cbn [negb];
    [| unfold ret; scan_leaf].
  destruct (truthy_inv _ Htruthy) as (text & Hvec & _). rewrite Hvec.
  cbn [default from_option Datatypes.id]. cbv [bind lift ret].
  destruct (json_loads text) as [decoded|e] eqn:Hdecoded; [| scan_leaf].
  match goal with
  | |- context [load_metadata ?mj ?s'] =>
      destruct (load_metadata_run mj s') as (o & Hmeta); rewrite Hmeta
  end.
  destruct o as [metadata|e]; [| scan_leaf].
  scan_leaf.
  split; [apply extract_id_last_segment |].
  exists text. split; assumption.
Qed.

Lemma get_all_loop_spec c (P : VectorRecord -> Prop) d all_keys :
  (forall key r, In key all_keys -> listed d key r -> P r) ->
  forall acc s,
    db s = d -> Forall P acc ->
    exists s',
      db s' = d /\
      ((exists vectors,
          get_all_loop c all_keys acc s = (Return vectors, s') /\
          Forall P vectors /\
          length vectors <= length acc + length all_keys) \/
       (exists e, get_all_loop c all_keys acc s = (Raise e, s'))).
Proof.
  induction all_keys as [|key rest IH]; intros Hlisted acc s Hdb Hacc.
  - exists s. split; [exact Hdb |]. left. exists acc.
    split; [reflexivity |]. split; [exact Hacc | simpl; lia].
  - cbn [get_all_loop].
    destruct (get_all_step_spec c key acc s)
      as (s1 & Hdb1 & [Hstep | [(r & Hstep & Hr) | (e & Hstep)]]).
    + destruct (IH (fun k r Hk => Hlisted k r (or_intror Hk)) acc s1)
        as (s2 & Hdb2 & [(vectors & Hloop & Hall & Hlen) | (e & Hloop)]);
        [congruence | exact Hacc | |].
      * exists s2. split; [exact Hdb2 |]. left. exists vectors.
        rewrite (bind_run _ _ _ _ _ Hstep). repeat split; [exact Hloop | exact Hall |].
        simpl. lia.
      * exists s2. split; [exact Hdb2 |]. right. exists e.
        rewrite (bind_run _ _ _ _ _ Hstep). exact Hloop.
    + destruct (IH (fun k r Hk => Hlisted k r (or_intror Hk)) (acc ++ [r]) s1)
        as (s2 & Hdb2 & [(vectors & Hloop & Hall & Hlen) | (e & Hloop)]);
        [congruence | | |].
      { apply Forall_app. split; [exact Hacc |]. constructor; [| constructor].
        apply (Hlisted key); [left; reflexivity | rewrite <- Hdb; exact Hr]. }
      * exists s2. split; [exact Hdb2 |]. left. exists vectors.
        rewrite (bind_run _ _ _ _ _ Hstep). repeat split; [exact Hloop | exact Hall |].
        rewrite length_app in Hlen. simpl in *. lia.
      * exists s2. split; [exact Hdb2 |]. right. exists e.
        rewrite (bind_run _ _ _ _ _ Hstep). exact Hloop.
    + exists s1. split; [congruence |]. right. exists e. apply bind_raise, Hstep.
Qed.

(** [get_all_vectors] returns a list, no longer than the list of keys of the
    namespace, and every element of it was appended for one of these keys. *)
Lemma get_all_vectors_spec c p limit s :
  let self := mkStore (Some c) p in
  exists vectors,
    eval (get_all_vectors self limit) s = Return vectors /\
    Forall (fun r => exists key,
              In key (db_keys (vector_pattern self) (db s)) /\ listed (db s) key r)
      vectors /\
    length vectors <= length (db_keys (vector_pattern self) (db s)).
Proof.
  intros self.
  assert (Hnone : Forall (fun r : VectorRecord => exists key,
                            In key (db_keys (vector_pattern self) (db s)) /\
                            listed (db s) key r) [] /\
                  length (@nil VectorRecord)
                  <= length (db_keys (vector_pattern self) (db s))).
  { split; [constructor | simpl; lia]. }
  cbv [get_all_vectors self redis_client try_except redis_keys eval]. fold self.
  scan_call; [| exists []; split; [reflexivity | exact Hnone]].
  destruct (db_keys (vector_pattern self) (db s)) as [|key rest] eqn:Hkeys; cbn [is_empty].
  { exists []. split; [reflexivity | exact Hnone]. }
  rewrite <- Hkeys in *.
  match goal with
  | |- context [get_all_loop c ?ks [] ?s1] =>
      destruct (get_all_loop_spec c
                  (fun r => exists key,
                     In key (db_keys (vector_pattern self) (db s)) /\ listed (db s) key r)
                  (db s) ks) with (acc := @nil VectorRecord) (s := s1)
        as (s2 & _ & [(vectors & Hloop & Hall & Hlen) | (e & Hloop)]);
        [ | exact Hdb | constructor | |]
  end.
  - intros k r Hk Hr. exists k. split; [| exact Hr].
    apply (slice_to_In _ _ _ Hk).
  - rewrite Hloop.
    exists vectors. split; [reflexivity |]. split; [exact Hall |].
    pose proof (slice_to_length (db_keys (vector_pattern self) (db s)) limit).
    simpl in Hlen. lia.
  - rewrite Hloop.
    exists []. split; [reflexivity | exact Hnone].
Qed.

End Scans.

(** ** Splitting a key at its colons *)

Section SplitFacts.

Variable sep : ascii.

Lemma split_nonempty (s : string) : split sep s <> [].
Proof.
  destruct s as [|c rest]; simpl; [discriminate |].
  destruct (Ascii.eqb c sep); [discriminate |].
  destruct (split sep rest); discriminate.
Qed.

Lemma split_no_sep (s : string) : contains sep s = false -> split sep s = [s].
Proof.
  induction s as [|c rest IH]; simpl; [reflexivity |].
  destruct (Ascii.eqb c sep); simpl; [discriminate |].
  intros Hrest. rewrite (IH Hrest). reflexivity.
Qed.

Lemma split_segments_no_sep (s : string) :
  Forall (fun segment => contains sep segment = false) (split sep s).
Proof.
  induction s as [|c rest IH]; simpl.
  - constructor; [reflexivity | constructor].
  - destruct (Ascii.eqb c sep) eqn:Hc.
    + constructor; [reflexivity | exact IH].
    + destruct (split sep rest) as [|hd tl].
      * constructor; [simpl; rewrite Hc; reflexivity | constructor].
      * inversion IH as [|? ? Hhd Htl]; subst.
        constructor; [simpl; rewrite Hc; exact Hhd | exact Htl].
Qed.

Lemma last_split_no_sep (s : string) : contains sep (List.last (split sep s) "") = false.
Proof.
  pose proof (split_segments_no_sep s) as Hall.
  induction Hall as [|segment rest Hsegment Hrest IH]; [reflexivity |].
  destruct rest; [exact Hsegment | exact IH].
Qed.

Lemma split_two (s : string) :
  contains sep s = true -> exists hd tl, split sep s = hd :: tl /\ tl <> [].
Proof.
  induction s as [|c rest IH]; simpl; [discriminate |].
  destruct (Ascii.eqb c sep); simpl.
  - intros _. exists "", (split sep rest). split; [reflexivity | apply split_nonempty].
  - intros Hrest. destruct (IH Hrest) as (hd & tl & -> & Htl).
    exists (String c hd), tl. split; [reflexivity | exact Htl].
Qed.

Lemma last_split_cons (c : ascii) (rest : string) :
  contains sep rest = true ->
  List.last (split sep (String c rest)) "" = List.last (split sep rest) "".
Proof.
  intros Hrest. destruct (split_two rest Hrest) as (hd & tl & Hsplit & Htl).
  simpl split. rewrite Hsplit. destruct tl as [|hd' tl]; [congruence |].
  destruct (Ascii.eqb c sep); reflexivity.
Qed.

(** A string that contains [sep] ends with [sep] and its last segment. *)
Lemma split_at_last (s : string) :
  contains sep s = true ->
  exists front, s = front +:+ String sep (List.last (split sep s) "").
Proof.
  induction s as [|c rest IH]; [discriminate |].
  destruct (contains sep rest) eqn:Hrest.
  - intros _. destruct (IH eq_refl) as (front & Hfront).
    exists (String c front). rewrite (last_split_cons c rest Hrest).
    change (String c rest
            = String c (front +:+ String sep (List.last (split sep rest) ""))).
    f_equal. exact Hfront.
  - simpl. rewrite Hrest, orb_false_r. intros Hc. rewrite Hc.
    apply Ascii.eqb_eq in Hc as ->.
    rewrite (split_no_sep _ Hrest). exists "". reflexivity.
Qed.

Lemma contains_append_r (a b : string) :
  contains sep b = true -> contains sep (a +:+ b) = true.
Proof.
  intros Hb. induction a as [|c a IH]; [exact Hb |].
  change (contains sep (String c (a +:+ b)) = true). simpl. rewrite IH. apply orb_true_r.
Qed.

Lemma last_split_append (a b : string) :
  contains sep b = true ->
  List.last (split sep (a +:+ b)) "" = List.last (split sep b) "".
Proof.
  intros Hb. induction a as [|c a IH]; [reflexivity |].
  change (List.last (split sep (String c (a +:+ b))) "" = List.last (split sep b) "").
  rewrite last_split_cons by (apply contains_append_r, Hb). exact IH.
Qed.

End SplitFacts.

(** The id that the scans report for the key of [id]. *)
Lemma last_segment_vector_key (self : SimpleVectorStore) (id : string) :
  contains ":" id = true -> last_segment (vector_key self id) = last_segment id.
Proof.
  intros Hid. unfold last_segment, vector_key.
  rewrite (last_split_append _ (prefix self)) by (apply contains_append_r, Hid).
  apply last_split_append, Hid.
Qed.

(** ** Division by a zero norm *)

Lemma is_zero_inv (d : float) : is_zero d = true -> exists sign, Prim2SF d = S754_zero sign.
Proof.
  unfold is_zero. rewrite FloatAxioms.eqb_spec.
  change (Prim2SF PrimFloat.zero) with (S754_zero false).
  destruct (Prim2SF d) as [sign|sign| |sign mant e]; try discriminate.
  - intros _. exists sign. reflexivity.
  - destruct sign; discriminate.
  - destruct sign; discriminate.
Qed.

(** Dividing by zero gives NaN or an infinity, never a finite value. *)
Lemma div_by_zero_not_finite (x d : float) :
  is_zero d = true -> is_finite (x / d) = false.
Proof.
  intros Hd. destruct (is_zero_inv d Hd) as (sign & Hzero).
  unfold is_finite, is_nan, is_infinity.
  rewrite !FloatAxioms.eqb_spec, abs_spec, div_spec, Hzero.
  change (Prim2SF PrimFloat.infinity) with (S754_infinity false).
  destruct (Prim2SF x) as [sx|sx| |sx mx ex], sign; try destruct sx; reflexivity.
Qed.

Lemma vdiv_by_zero_not_finite (v : list float) (d : float) :
  is_zero d = true -> Forall (fun y => is_finite y = false) (vdiv v d).
Proof.
  intros Hd. unfold vdiv. apply Forall_map, Forall_forall.
  intros x _. apply div_by_zero_not_finite, Hd.
Qed.

(** ** Clearing the namespace *)

Section Clear.

Context {ext : Externals} {np : Numpy}.

Implicit Types (c : RedisClient) (p : string) (s : Server)
  (d : gmap string (gmap string string)).

Lemma clear_loop_run (all_keys : list string) s :
  reliable s ->
  exists s',
    clear_loop all_keys s = (Return tt, s') /\
    reliable s' /\
    dom (db s') = dom (db s) ∖ list_to_set all_keys.
Proof.
  revert s. induction all_keys as [|key rest IH]; intros s Hrel.
  - exists s. split; [reflexivity |]. split; [exact Hrel | set_solver].
  - cbn [clear_loop]. unfold redis_delete. run_call Hrel.
    destruct (IH s0 Hrel0) as (s' & Hloop & Hrel' & Hdom).
    exists s'. split; [exact Hloop |]. split; [exact Hrel' |].
    rewrite Hdom, Hdb, dom_delete_L. set_solver.
Qed.

Lemma db_keys_In pattern d key :
  In key (db_keys pattern d) <-> key ∈ dom d /\ glob_match pattern key = true.
Proof.
  unfold db_keys. rewrite filter_In, <- list_elem_of_In, elem_of_elements. reflexivity.
Qed.

Lemma db_keys_cleared pattern d d' :
  dom d' = dom d ∖ list_to_set (db_keys pattern d) -> db_keys pattern d' = [].
Proof.
  intros Hdom. destruct (db_keys pattern d') as [|key rest] eqn:Hkeys; [reflexivity |].
  assert (Hin : In key (db_keys pattern d')) by (rewrite Hkeys; left; reflexivity).
  apply db_keys_In in Hin as [Hkey Hglob]. rewrite Hdom in Hkey.
  apply elem_of_difference in Hkey as [Hkey Hout]. exfalso. apply Hout.
  apply elem_of_list_to_set, list_elem_of_In, db_keys_In. split; assumption.
Qed.

Lemma clear_run c p s :
  let self := mkStore (Some c) p in
  reliable s ->
  exists s',
    clear self s = (Return true, s') /\
    reliable s' /\
    db_keys (vector_pattern self) (db s') = [] /\
    (db_keys (vector_pattern self) (db s) = [] -> db s' = db s).
Proof.
  intros self Hrel.
  cbv [clear self redis_client redis_keys]. fold self. apply try_except_returns.
  run_call Hrel.
  destruct (db_keys (vector_pattern self) (db s)) as [|key rest] eqn:Hkeys; cbn [is_empty].
  - exists s0. split; [reflexivity |]. split; [exact Hrel0 |].
    rewrite Hdb. split; [exact Hkeys | reflexivity].
  - rewrite <- Hkeys.
    destruct (clear_loop_run (db_keys (vector_pattern self) (db s)) s0 Hrel0)
      as (s' & Hloop & Hrel' & Hdom).
    rewrite (bind_run _ _ _ _ _ Hloop). exists s'. split; [reflexivity |].
    split; [exact Hrel' |]. split; [| rewrite Hkeys; discriminate].
    apply (db_keys_cleared _ (db s)). rewrite Hdom, Hdb. reflexivity.
Qed.

End Clear.

(** ** Search, listing, counting and clearing *)

Section Queries.

Context {ext : Externals} {np : Numpy}.

Implicit Types (c : RedisClient) (p id now : string) (s : Server) (self : SimpleVectorStore).

(** C4: [search] returns a list, and no element of it has a similarity
    below the threshold. *)
Theorem search_respects_threshold self query_vector k threshold s :
  exists results,
    eval (search self query_vector k threshold) s = Return results /\
    Forall (fun r => (sr_similarity r <? threshold)%float = false) results.
Proof.
  destruct self as [[c|] p].
  - destruct (search_spec c p query_vector k threshold s) as (results & Heval & Hall).
    exists results. split; [exact Heval |].
    eapply List.Forall_impl; [| exact Hall].
    intros r (key & _ & _ & Hpass & _). apply leb_true_ltb_false, Hpass.
  - exists []. split; [reflexivity | constructor].
Qed.

(** C5: a store without a client answers every call with the failure value
    of the operation and sends no command to the server; and whatever the
    store and the server, no operation ends by raising. *)
Theorem no_client_no_call_no_raise p id vector metadata now query_vector k threshold limit s :
  let offline := mkStore None p in
  (add_vector offline id vector metadata now s = (Return false, s) /\
   get_vector offline id s = (Return None, s) /\
   delete_vector offline id s = (Return false, s) /\
   search offline query_vector k threshold s = (Return [], s) /\
   get_all_vectors offline limit s = (Return [], s) /\
   count_vectors offline s = (Return 0, s) /\
   clear offline s = (Return false, s)) /\
  (forall self,
     (exists r, eval (add_vector self id vector metadata now) s = Return r) /\
     (exists r, eval (get_vector self id) s = Return r) /\
     (exists r, eval (delete_vector self id) s = Return r) /\
     (exists r, eval (search self query_vector k threshold) s = Return r) /\
     (exists r, eval (get_all_vectors self limit) s = Return r) /\
     (exists r, eval (count_vectors self) s = Return r) /\
     (exists r, eval (clear self) s = Return r)).
Proof.
  intros offline. split; [repeat split |].
  intros [[c|] p'];
    repeat split;
    lazymatch goal with
    | |- exists r, eval (?op (mkStore None _)) _ = _ => eexists; reflexivity
    | |- exists r, eval (?op (mkStore None _) _) _ = _ => eexists; reflexivity
    | |- exists r, eval (?op (mkStore None _) _ _ _) _ = _ => eexists; reflexivity
    | |- exists r, eval (?op (mkStore None _) _ _ _ _) _ = _ => eexists; reflexivity
    | |- exists r, eval ?m s = _ =>
        let m' := eval cbv [add_vector get_vector delete_vector search get_all_vectors
                             count_vectors clear redis_client] in m in
        change m with m';
        match goal with
        | |- exists r, eval (try_except ?body (fun _ => ret ?v)) s = _ =>
            destruct (try_except_total body v s) as (a & s' & Hrun);
            exists a; unfold eval; rewrite Hrun; reflexivity
        end
    end.
Qed.

(** C8: on a store with a client whose calls succeed, [clear] returns
    true, after it [count_vectors] returns 0 and [get_all_vectors] returns
    the empty list for every limit; and when no key is in the namespace
    [clear] returns true and leaves the server's data as they are. *)
Theorem clear_empties_namespace c p limit s :
  let self := mkStore (Some c) p in
  reliable s ->
  eval (let* cleared := clear self in
        let* count := count_vectors self in
        let* vectors := get_all_vectors self limit in
        ret (cleared, count, vectors)) s
  = Return (true, 0, []) /\
  (db_keys (vector_pattern self) (db s) = [] ->
   eval (clear self) s = Return true /\ db (exec (clear self) s) = db s).
Proof.
  intros self Hrel.
  destruct (clear_run c p s Hrel) as (s1 & Hclear & Hrel1 & Hkeys & Hsame).
  fold self in Hclear, Hkeys.
  split.
  - destruct (count_vectors_run c p s1 Hrel1) as (s2 & Hcount & _ & Hdb2).
    fold self in Hcount. rewrite Hkeys in Hcount.
    destruct (get_all_vectors_spec c p limit s2) as (vectors & Hget & _ & Hlen).
    fold self in Hget, Hlen. rewrite Hdb2, Hkeys in Hlen.
    destruct vectors; [| simpl in Hlen; lia].
    rewrite (eval_bind _ _ _ _ _ Hclear), (eval_bind _ _ _ _ _ Hcount),
      (eval_bind _ _ _ _ _ (eval_run _ _ _ Hget)).
    reflexivity.
  - intros Hnone. unfold eval, exec. rewrite Hclear. split; [reflexivity | exact (Hsame Hnone)].
Qed.

(** C10: when the calls succeed, [count_vectors] returns the number of keys
    of the namespace, whether or not a key has a vector field, and
    [get_all_vectors] returns at most that many records, for every limit (so
    also for a limit of at least the count). *)
Theorem count_bounds_listing c p limit s :
  let self := mkStore (Some c) p in
  reliable s ->
  exists count vectors,
    eval (let* count := count_vectors self in
          let* vectors := get_all_vectors self limit in
          ret (count, vectors)) s
    = Return (count, vectors) /\
    count = length (db_keys (vector_pattern self) (db s)) /\
    length vectors <= count.
Proof.
  intros self Hrel.
  destruct (count_vectors_run c p s Hrel) as (s1 & Hcount & _ & Hdb1). fold self in Hcount.
  destruct (get_all_vectors_spec c p limit s1) as (vectors & Hget & _ & Hlen).
  fold self in Hget, Hlen. rewrite Hdb1 in Hlen.
  exists (length (db_keys (vector_pattern self) (db s))), vectors.
  rewrite (eval_bind _ _ _ _ _ Hcount), (eval_bind _ _ _ _ _ (eval_run _ _ _ Hget)).
  split; [reflexivity |]. split; [reflexivity | exact Hlen].
Qed.

End Queries.

(** * Further properties of the store *)

(** ** Which keys an operation writes *)

Section Confinement.

Context {A B : Type} (K : string -> Prop).

Lemma confined_ret (a : A) : confined K (ret a).
Proof. intros s key _. reflexivity. Qed.

Lemma confined_lift (o : outcome A) : confined K (lift o).
Proof. intros s key _. reflexivity. Qed.

Lemma confined_issue (c : command) (answer : gmap string (gmap string string) -> A)
    (effect : gmap string (gmap string string) -> gmap string (gmap string string)) :
  (forall d key, ~ K key -> effect d !! key = d !! key) ->
  confined K (issue c answer effect).
Proof.
  intros Heffect s key Hkey. unfold exec, issue.
  destruct (faults s) as [|[|] rest]; cbn [snd db]; auto.
Qed.

(** The continuation needs to be confined only for the values that the
    first computation can return. *)
Lemma confined_bind (m : M A) (k : A -> M B) (Q : A -> Prop) :
  confined K m ->
  (forall s a s', m s = (Return a, s') -> Q a) ->
  (forall a, Q a -> confined K (k a)) ->
  confined K (bind m k).
Proof.
  intros Hm Hpost Hk s key Hkey. specialize (Hm s key Hkey).
  unfold exec, bind in *. destruct (m s) as [[a|e] s'] eqn:Hrun; cbn [snd] in *.
  - rewrite <- Hm. apply (Hk a (Hpost _ _ _ Hrun) s' key Hkey).
  - exact Hm.
Qed.

Lemma confined_try_except (body : M A) (v : A) :
  confined K body -> confined K (try_except body (fun _ => ret v)).
Proof.
  intros Hbody s key Hkey. specialize (Hbody s key Hkey).
  unfold exec, try_except, ret in *. destruct (body s) as [[a|e] s']; exact Hbody.
Qed.

End Confinement.

Lemma confined_seq {A B : Type} (K : string -> Prop) (m : M A) (k : A -> M B) :
  confined K m -> (forall a, confined K (k a)) -> confined K (bind m k).
Proof.
  intros Hm Hk. apply (confined_bind K m k (fun _ => True)); auto.
Qed.

Lemma confined_data {A : Type} (m : M A) s :
  confined (fun _ => False) m -> db (exec m s) = db s.
Proof. intros Hm. apply map_eq. intros key. apply Hm. tauto. Qed.

Lemma db_hset_other (key key' field value : string) (d : gmap string (gmap string string)) :
  key' <> key -> db_hset key field value d !! key' = d !! key'.
Proof. intros Hne. unfold db_hset. apply lookup_insert_ne. congruence. Qed.

Lemma append_inj_r (a b c : string) : a +:+ b = a +:+ c -> b = c.
Proof.
  induction a as [|ch a IH]; [tauto |].
  change (String ch (a +:+ b) = String ch (a +:+ c) -> b = c).
  intros [= Heq]. exact (IH Heq).
Qed.

Section Frames.

Context {ext : Externals} {np : Numpy}.

Implicit Types (self : SimpleVectorStore) (id now : string) (s : Server).

Lemma vector_key_inj self id id' : vector_key self id = vector_key self id' -> id = id'.
Proof. unfold vector_key. intros Heq. apply append_inj_r in Heq. apply append_inj_r in Heq. exact Heq. Qed.

Lemma load_metadata_confined (K : string -> Prop) (metadata_json : option string) :
  confined K (load_metadata metadata_json).
Proof.
  unfold load_metadata. destruct (truthy metadata_json);
    [apply confined_lift | apply confined_ret].
Qed.

Lemma add_vector_confined self id vector metadata now :
  confined (fun key => key = vector_key self id) (add_vector self id vector metadata now).
Proof.
  unfold add_vector. destruct (redis_client self); [| apply confined_ret].
  apply confined_try_except. unfold redis_hset.
  repeat (apply confined_seq; [apply confined_issue; intros; apply db_hset_other; assumption |];
          intros _).
  apply confined_ret.
Qed.

Lemma delete_vector_confined self id :
  confined (fun key => key = vector_key self id) (delete_vector self id).
Proof.
  unfold delete_vector. destruct (redis_client self); [| apply confined_ret].
  apply confined_try_except. unfold redis_delete.
  apply confined_seq; [| intros _; apply confined_ret].
  apply confined_issue. intros d key Hkey. apply lookup_delete_ne. congruence.
Qed.

Lemma read_call_confined {A : Type} (K : string -> Prop) (c : command)
    (answer : gmap string (gmap string string) -> A) :
  confined K (issue c answer (fun d => d)).
Proof. apply confined_issue. reflexivity. Qed.

Lemma get_vector_confined (K : string -> Prop) self id : confined K (get_vector self id).
Proof.
  unfold get_vector. destruct (redis_client self); [| apply confined_ret].
  apply confined_try_except. unfold redis_hget.
  apply confined_seq; [apply read_call_confined |]. intros vector_json.
  apply confined_seq; [apply read_call_confined |]. intros metadata_json.
  destruct (negb (truthy vector_json)); [apply confined_ret |].
  apply confined_seq; [apply confined_lift |]. intros vector.
  apply confined_seq; [apply load_metadata_confined |]. intros metadata.
  apply confined_ret.
Qed.

Lemma search_step_confined (K : string -> Prop) c query_vec threshold key acc :
  confined K (search_step c query_vec threshold key acc).
Proof.
  unfold search_step, redis_hget.
  apply confined_seq; [apply read_call_confined |]. intros vector_json.
  apply confined_seq; [apply read_call_confined |]. intros metadata_json.
  destruct (negb (truthy vector_json)); [apply confined_ret |].
  apply confined_seq; [apply confined_lift |]. intros vector.
  apply confined_seq; [apply load_metadata_confined |]. intros metadata.
  apply confined_seq; [apply confined_lift |]. intros vec.
  apply confined_seq; [apply confined_lift |]. intros similarity.
  destruct (threshold <=? similarity)%float; apply confined_ret.
Qed.

Lemma search_loop_confined (K : string -> Prop) c query_vec threshold all_keys acc :
  confined K (search_loop c query_vec threshold all_keys acc).
Proof.
  revert acc. induction all_keys as [|key rest IH]; intros acc; cbn [search_loop].
  - apply confined_ret.
  - apply confined_seq; [apply search_step_confined | exact IH].
Qed.

Lemma search_confined (K : string -> Prop) self query_vector k threshold :
  confined K (search self query_vector k threshold).
Proof.
  unfold search. destruct (redis_client self) as [c|]; [| apply confined_ret].
  apply confined_try_except. unfold redis_keys.
  apply confined_seq; [apply read_call_confined |]. intros all_keys.
  destruct (is_empty all_keys); [apply confined_ret |].
  apply confined_seq; [apply search_loop_confined |]. intros results. apply confined_ret.
Qed.

Lemma get_all_step_confined (K : string -> Prop) c key acc :
  confined K (get_all_step c key acc).
Proof.
  unfold get_all_step, redis_hget.
  apply confined_seq; [apply read_call_confined |]. intros vector_json.
  apply confined_seq; [apply read_call_confined |]. intros metadata_json.
  destruct (negb (truthy vector_json)); [apply confined_ret |].
  apply confined_seq; [apply confined_lift |]. intros vector.
  apply confined_seq; [apply load_metadata_confined |]. intros metadata.
  apply confined_ret.
Qed.

Lemma get_all_loop_confined (K : string -> Prop) c all_keys acc :
  confined K (get_all_loop c all_keys acc).
Proof.
  revert acc. induction all_keys as [|key rest IH]; intros acc; cbn [get_all_loop].
  - apply confined_ret.
  - apply confined_seq; [apply get_all_step_confined | exact IH].
Qed.

Lemma get_all_vectors_confined (K : string -> Prop) self limit :
  confined K (get_all_vectors self limit).
Proof.
  unfold get_all_vectors. destruct (redis_client self) as [c|]; [| apply confined_ret].
  apply confined_try_except. unfold redis_keys.
  apply confined_seq; [apply read_call_confined |]. intros all_keys.
  destruct (is_empty all_keys); [apply confined_ret | apply get_all_loop_confined].
Qed.

Lemma count_vectors_confined (K : string -> Prop) self : confined K (count_vectors self).
Proof.
  unfold count_vectors. destruct (redis_client self) as [c|]; [| apply confined_ret].
  apply confined_try_except. unfold redis_keys.
  apply confined_seq; [apply read_call_confined |]. intros all_keys. apply confined_ret.
Qed.

Lemma clear_loop_confined (K : string -> Prop) (all_keys : list string) :
  Forall K all_keys -> confined K (clear_loop all_keys).
Proof.
  induction 1 as [|key rest Hkey Hrest IH]; cbn [clear_loop].
  - apply confined_ret.
  - apply confined_seq; [| intros _; exact IH]. unfold redis_delete.
    apply confined_issue. intros d key' Hkey'. apply lookup_delete_ne. congruence.
Qed.

Lemma clear_confined self :
  confined (fun key => glob_match (vector_pattern self) key = true) (clear self).
Proof.
  unfold clear. destruct (redis_client self) as [c|]; [| apply confined_ret].
  apply confined_try_except. unfold redis_keys.
  apply (confined_bind _ _ _
           (Forall (fun key => glob_match (vector_pattern self) key = true))).
  - apply read_call_confined.
  - intros s a s'. unfold issue.
    destruct (faults s) as [|[|] rest]; intros [= <- _]; try discriminate;
      apply List.Forall_forall; intros key Hkey; apply filter_In in Hkey; tauto.
  - intros all_keys Hall. destruct (is_empty all_keys); [apply confined_ret |].
    apply confined_seq; [apply clear_loop_confined, Hall | intros _; apply confined_ret].
Qed.

(** X1: [add_vector] for one id changes nothing under the key of another id
    of the same store, whether its calls succeed or fail. *)
Theorem add_vector_keeps_other_ids self id vector metadata now id' field s :
  id' <> id ->
  db_hget (vector_key self id') field (db (exec (add_vector self id vector metadata now) s))
  = db_hget (vector_key self id') field (db s).
Proof.
  intros Hne. unfold db_hget.
  rewrite (add_vector_confined self id vector metadata now s (vector_key self id'));
    [reflexivity |].
  intros Heq. apply Hne. apply (vector_key_inj self). exact Heq.
Qed.

(** X2: [delete_vector] for one id changes nothing under any other key,
    whether its call succeeds or fails, and a second [delete_vector] for the
    same id leaves the data as the first one left them when the calls
    succeed. *)
Theorem delete_vector_keeps_other_keys c p id s :
  let self := mkStore (Some c) p in
  (forall key, key <> vector_key self id ->
     db (exec (delete_vector self id) s) !! key = db s !! key) /\
  (reliable s ->
   eval (delete_vector self id ;; delete_vector self id) s = Return true /\
   db (exec (delete_vector self id ;; delete_vector self id) s)
   = db (exec (delete_vector self id) s)).
Proof.
  intros self. split.
  - intros key Hkey. apply (delete_vector_confined self id s key). exact Hkey.
  - intros Hrel.
    destruct (delete_vector_run c p id s Hrel) as (s1 & Hrun1 & Hrel1 & Hdb1).
    destruct (delete_vector_run c p id s1 Hrel1) as (s2 & Hrun2 & _ & Hdb2).
    fold self in Hrun1, Hrun2, Hdb1, Hdb2.
    unfold eval, exec. rewrite (bind_run _ _ _ _ _ Hrun1), Hrun2, Hrun1. cbn [fst snd].
    split; [reflexivity |]. rewrite Hdb2, Hdb1. apply delete_delete_eq.
Qed.

(** X3: [clear] changes nothing under a key that does not match the pattern
    of the store's namespace, whether its calls succeed or fail. *)
Theorem clear_keeps_other_namespaces self key s :
  glob_match (vector_pattern self) key = false ->
  db (exec (clear self) s) !! key = db s !! key.
Proof.
  intros Hkey. apply (clear_confined self s key). rewrite Hkey. discriminate.
Qed.

(** X4: [get_vector], [search], [get_all_vectors] and [count_vectors] leave
    the data of the server as they are, in every state and for every
    argument. *)
Theorem reads_keep_the_data self id query_vector k threshold limit s :
  db (exec (get_vector self id) s) = db s /\
  db (exec (search self query_vector k threshold) s) = db s /\
  db (exec (get_all_vectors self limit) s) = db s /\
  db (exec (count_vectors self) s) = db s.
Proof.
  repeat split; apply confined_data.
  - apply get_vector_confined.
  - apply search_confined.
  - apply get_all_vectors_confined.
  - apply count_vectors_confined.
Qed.

End Frames.

(** ** Calls that fail *)

Section Failures.

Context {ext : Externals} {np : Numpy}.

Implicit Types (c : RedisClient) (p id now : string) (s : Server).

(** X5: on a store with a client, [add_vector] returns true exactly when its
    three calls succeed and [delete_vector] exactly when its call succeeds. *)
Theorem writes_report_failed_calls c p id vector metadata now s :
  let self := mkStore (Some c) p in
  eval (add_vector self id vector metadata now) s = Return (succeed 3 s) /\
  eval (delete_vector self id) s = Return (succeed 1 s).
Proof.
  intros self.
  cbv [eval add_vector delete_vector self redis_client try_except bind ret redis_hset
       redis_delete issue succeed].
  destruct (faults s) as [|[|] [|[|] [|[|] rest]]]; split; reflexivity.
Qed.

(** X6: when the first call of [add_vector] succeeds and the second fails,
    the method returns false and the vector field of the key is already
    replaced, while every other field of the key is as it was. *)
Theorem add_vector_interrupted_keeps_vector c p id vector metadata now rest s :
  let self := mkStore (Some c) p in
  let key := vector_key self id in
  let s' := exec (add_vector self id vector metadata now) s in
  faults s = false :: true :: rest ->
  eval (add_vector self id vector metadata now) s = Return false /\
  db_hget key "vector" (db s') = Some (json_dumps (as_jsonable vector)) /\
  (forall field, field <> "vector" -> db_hget key field (db s') = db_hget key field (db s)).
Proof.
  intros self key s' Hfaults. subst s'.
  cbv [eval exec add_vector self redis_client try_except bind ret redis_hset issue].
  rewrite Hfaults. cbn [fst snd db faults tail]. split; [reflexivity |].
  split; [apply db_hget_hset_eq |].
  intros field Hfield. apply db_hget_hset_field. exact Hfield.
Qed.

(** X7: when the [KEYS] call fails, [count_vectors] returns 0 and [search]
    and [get_all_vectors] return the empty list, as on an empty namespace,
    and [clear] returns false. *)
Theorem keys_failure_reads_as_empty c p query_vector k threshold limit rest s :
  let self := mkStore (Some c) p in
  faults s = true :: rest ->
  eval (count_vectors self) s = Return 0 /\
  eval (search self query_vector k threshold) s = Return [] /\
  eval (get_all_vectors self limit) s = Return [] /\
  eval (clear self) s = Return false.
Proof.
  intros self Hfaults.
  cbv [eval count_vectors search get_all_vectors clear self redis_client try_except bind
       ret redis_keys issue].
  rewrite Hfaults. repeat split.
Qed.

End Failures.

(** ** What [get_vector] returns *)

Section Lookup.

Context {ext : Externals} {np : Numpy}.

Implicit Types (c : RedisClient) (p id : string) (s : Server).

(** X8: when the calls succeed, [get_vector] returns [None] for a key whose
    vector field is missing or empty, whatever the other fields of the key
    hold. *)
Theorem get_vector_needs_vector_field c p id s :
  let self := mkStore (Some c) p in
  reliable s ->
  truthy (db_hget (vector_key self id) "vector" (db s)) = false ->
  eval (get_vector self id) s = Return None.
Proof.
  intros self Hrel Hvector.
  destruct (get_vector_missing c p id s Hrel Hvector) as (s' & Hrun & _).
  fold self in Hrun. unfold eval. rewrite Hrun. reflexivity.
Qed.

(** X9: when the calls succeed and the vector field decodes, [get_vector]
    returns the empty mapping as metadata for a key whose metadata field is
    missing or empty. *)
Theorem get_vector_defaults_metadata c p id text vector s :
  let self := mkStore (Some c) p in
  let key := vector_key self id in
  reliable s ->
  db_hget key "vector" (db s) = Some text -> text <> "" ->
  json_loads text = Return vector ->
  truthy (db_hget key "metadata" (db s)) = false ->
  eval (get_vector self id) s
  = Return (Some {| vr_id := id; vr_vector := vector; vr_metadata := JObject [] |}).
Proof.
  intros self key Hrel Htext Hnonempty Hvector Hmeta. subst self key.
  cbv [eval get_vector redis_client redis_hget try_except].
  run_call Hrel. run_call Hrel0.
  rewrite Htext, Hdb, (truthy_Some _ Hnonempty).
  cbn [negb default from_option Datatypes.id]. cbv [bind lift load_metadata].
  rewrite Hvector, Hmeta. reflexivity.
Qed.

(** X10: [get_vector] returns [None], as for a missing record, when the text
    of the vector or of the metadata of the key does not decode, and when
    one of its two calls fails. *)
Theorem get_vector_errors_read_as_absent c p id s :
  let self := mkStore (Some c) p in
  (reliable s /\ undecodable (db s) (vector_key self id)) \/ succeed 2 s = false ->
  eval (get_vector self id) s = Return None.
Proof.
  intros self [[Hrel (text & Htext & Hnonempty & Hbad)] | Hfail]; subst self.
  - cbv [eval get_vector redis_client redis_hget try_except].
    run_call Hrel. run_call Hrel0.
    rewrite Htext, Hdb, (truthy_Some _ Hnonempty).
    cbn [negb default from_option Datatypes.id]. cbv [bind lift load_metadata].
    destruct Hbad as [(e & Hraise) | (metadata_text & e & Hmeta & Hmeta' & Hraise)].
    + rewrite Hraise. reflexivity.
    + destruct (json_loads text); [| reflexivity].
      rewrite Hmeta, (truthy_Some _ Hmeta'). cbn [default from_option Datatypes.id].
      rewrite Hraise. reflexivity.
  - revert Hfail.
    cbv [eval get_vector redis_client redis_hget try_except bind ret issue succeed].
    destruct (faults s) as [|[|] [|[|] rest]]; try discriminate; reflexivity.
Qed.

End Lookup.

(** ** The list that [search] returns *)

Lemma SFcompare_refl (a : spec_float) : a <> S754_nan -> SFcompare a a = Some Eq.
Proof.
  destruct a as [sign|sign| |sign mant e]; intros Ha; simpl; try congruence.
  - destruct sign; reflexivity.
  - rewrite Z.compare_refl, Pos.compare_cont_refl. destruct sign; reflexivity.
Qed.

Lemma SFcompare_defined (a b : spec_float) :
  a <> S754_nan -> b <> S754_nan -> exists c, SFcompare a b = Some c.
Proof.
  destruct a as [sa|sa| |sa ma ea], b as [sb|sb| |sb mb eb]; intros Ha Hb;
    try congruence; simpl; eauto.
Qed.

(** What passes a threshold is not NaN. *)
Lemma leb_true_not_nan (t x : float) : (t <=? x)%float = true -> Prim2SF x <> S754_nan.
Proof.
  rewrite leb_spec. unfold SFleb. intros Hpass Hnan. rewrite Hnan in Hpass.
  destruct (Prim2SF t); discriminate.
Qed.

Lemma not_nan_is_nan (x : float) : Prim2SF x <> S754_nan -> is_nan x = false.
Proof.
  intros Hx. unfold is_nan. rewrite FloatAxioms.eqb_spec. unfold SFeqb.
  rewrite (SFcompare_refl _ Hx). reflexivity.
Qed.

Lemma ltb_true_leb_true (a b : float) : (a <? b)%float = true -> (a <=? b)%float = true.
Proof.
  rewrite ltb_spec, leb_spec. unfold SFltb, SFleb.
  destruct (SFcompare (Prim2SF a) (Prim2SF b)) as [[| |]|]; congruence.
Qed.

Lemma ltb_false_leb_true (a b : float) :
  Prim2SF a <> S754_nan -> Prim2SF b <> S754_nan ->
  (a <? b)%float = false -> (b <=? a)%float = true.
Proof.
  intros Ha Hb. rewrite ltb_spec, leb_spec. unfold SFltb, SFleb.
  destruct (SFcompare_defined _ _ Ha Hb) as (c & Hc).
  rewrite Hc, (SFcompare_antisym _ _ _ Hc). destruct c; simpl; congruence.
Qed.

Section SortFacts.

Let defined (r : SearchResult) : Prop := Prim2SF (sr_similarity r) <> S754_nan.

Lemma insert_desc_length r sorted : length (insert_desc r sorted) = S (length sorted).
Proof.
  induction sorted as [|r' rest IH]; [reflexivity |]. simpl.
  destruct (sr_similarity r <? sr_similarity r')%float; simpl; congruence.
Qed.

Lemma sort_desc_length results : length (sort_desc results) = length results.
Proof.
  induction results as [|r rest IH]; [reflexivity |]. simpl.
  rewrite insert_desc_length. congruence.
Qed.

Lemma insert_desc_HdRel r0 r sorted :
  not_below r0 r -> HdRel not_below r0 sorted -> HdRel not_below r0 (insert_desc r sorted).
Proof.
  intros Hr Hsorted. destruct sorted as [|r' rest]; simpl.
  - constructor. exact Hr.
  - destruct (sr_similarity r <? sr_similarity r')%float; constructor;
      [inversion Hsorted; assumption | exact Hr].
Qed.

Lemma insert_desc_Sorted r sorted :
  defined r -> Forall defined sorted ->
  Sorted not_below sorted -> Sorted not_below (insert_desc r sorted).
Proof.
  intros Hr Hdefined Hsorted. induction Hsorted as [|r' rest Hrest IH Hhd]; simpl.
  - repeat constructor.
  - inversion Hdefined as [|? ? Hr' Hdefined']; subst.
    destruct (sr_similarity r <? sr_similarity r')%float eqn:Hlt.
    + constructor; [apply IH, Hdefined' |].
      apply insert_desc_HdRel; [| exact Hhd].
      apply ltb_true_leb_true, Hlt.
    + constructor; [constructor; assumption |]. constructor.
      apply ltb_false_leb_true; assumption.
Qed.

Lemma sort_desc_Sorted results :
  Forall defined results -> Sorted not_below (sort_desc results).
Proof.
  induction 1 as [|r rest Hr Hrest IH]; simpl; [constructor |].
  apply insert_desc_Sorted; [exact Hr | apply sort_desc_Forall, Hrest | exact IH].
Qed.

Lemma take_Sorted {A : Type} (R : A -> A -> Prop) (n : nat) (l : list A) :
  Sorted R l -> Sorted R (take n l).
Proof.
  intros Hl. revert n. induction Hl as [|x l Hl IH Hhd]; intros [|n]; simpl;
    try constructor.
  - apply IH.
  - destruct Hhd as [|y l' Hxy]; [destruct n; constructor |].
    destruct n; constructor. exact Hxy.
Qed.

Lemma slice_to_Sorted {A : Type} (R : A -> A -> Prop) (l : list A) (k : Z) :
  Sorted R l -> Sorted R (slice_to l k).
Proof. intros Hl. unfold slice_to. destruct (k <? 0)%Z; apply take_Sorted, Hl. Qed.

End SortFacts.

Lemma slice_to_length_eq {A : Type} (l : list A) (k : Z) :
  length (slice_to l k)
  = if (k <? 0)%Z then length l - Z.to_nat (- k) else Nat.min (Z.to_nat k) (length l).
Proof.
  unfold slice_to. destruct (k <? 0)%Z eqn:Hk; rewrite length_take; [| reflexivity].
  apply Z.ltb_lt in Hk. lia.
Qed.

Section Ranking.

Context {ext : Externals} {np : Numpy}.

Implicit Types (c : RedisClient) (p key : string) (s : Server)
  (d : gmap string (gmap string string)).

Lemma search_loop_length c query_vec threshold all_keys :
  forall acc s results s',
    search_loop c query_vec threshold all_keys acc s = (Return results, s') ->
    length results <= length acc + length all_keys.
Proof.
  induction all_keys as [|key rest IH]; intros acc s results s' Hrun.
  - cbn in Hrun. injection Hrun as <- _. simpl. lia.
  - cbn [search_loop] in Hrun.
    destruct (search_step_spec c query_vec threshold key acc s)
      as (s1 & _ & [Hstep | [(r & Hstep & _) | (e & Hstep)]]).
    + rewrite (bind_run _ _ _ _ _ Hstep) in Hrun. apply IH in Hrun. simpl. lia.
    + rewrite (bind_run _ _ _ _ _ Hstep) in Hrun. apply IH in Hrun.
      rewrite length_app in Hrun. simpl in *. lia.
    + rewrite (bind_raise _ _ _ _ _ Hstep) in Hrun. discriminate.
Qed.

(** [search] returns the hits of the scan, sorted and cut; the scan appends
    at most one hit for each key. *)
Lemma search_shape c p query_vector k threshold s :
  let self := mkStore (Some c) p in
  exists hits,
    eval (search self query_vector k threshold) s
    = Return (slice_to (sort_desc hits) k) /\
    Forall (fun r => exists key,
              In key (db_keys (vector_pattern self) (db s)) /\
              search_hit (db s) (vdiv query_vector (np_linalg_norm query_vector))
                threshold key r) hits /\
    length hits <= length (db_keys (vector_pattern self) (db s)).
Proof.
  intros self.
  assert (Hnone : forall n : nat,
             exists hits : list SearchResult,
               Return (A := list SearchResult) [] = Return (slice_to (sort_desc hits) k) /\
               Forall (fun r => exists key,
                         In key (db_keys (vector_pattern self) (db s)) /\
                         search_hit (db s)
                           (vdiv query_vector (np_linalg_norm query_vector))
                           threshold key r) hits /\
               length hits <= n).
  { intros n. exists []. split; [| split; [constructor | simpl; lia]].
    unfold slice_to. simpl. destruct (k <? 0)%Z; rewrite take_nil; reflexivity. }
  cbv [search self redis_client try_except redis_keys eval]. fold self.
  scan_call; [| apply Hnone].
  destruct (db_keys (vector_pattern self) (db s)) as [|key rest] eqn:Hkeys; cbn [is_empty].
  { apply Hnone. }
  rewrite <- Hkeys in *.
  match goal with
  | |- context [bind (search_loop c ?qv threshold ?ks []) _ ?s1] =>
      destruct (search_loop_spec c qv threshold
                  (fun r => exists key, In key ks /\ search_hit (db s) qv threshold key r)
                  (db s) ks (fun key r Hk Hr => ex_intro _ key (conj Hk Hr))
                  [] s1 Hdb ltac:(constructor))
        as (s2 & _ & [(hits & Hloop & Hall) | (e & Hloop)])
  end.
  - rewrite (bind_run _ _ _ _ _ Hloop). exists hits.
    split; [reflexivity |]. split; [exact Hall |].
    apply search_loop_length in Hloop. simpl in Hloop. exact Hloop.
  - rewrite (bind_raise _ _ _ _ _ Hloop). apply Hnone.
Qed.

(** X11: [search] returns at most [k] records for a [k] that is not
    negative, for a negative [k] at least [-k] records fewer than there are
    keys in the namespace, and never more records than there are keys. *)
Theorem search_returns_at_most_k self query_vector k threshold s :
  exists results,
    eval (search self query_vector k threshold) s = Return results /\
    length results <= length (db_keys (vector_pattern self) (db s)) /\
    ((0 <= k)%Z -> length results <= Z.to_nat k) /\
    ((k < 0)%Z ->
     length results <= length (db_keys (vector_pattern self) (db s)) - Z.to_nat (- k)).
Proof.
  destruct self as [[c|] p].
  - destruct (search_shape c p query_vector k threshold s) as (hits & Heval & _ & Hlen).
    eexists. split; [exact Heval |].
    rewrite slice_to_length_eq, sort_desc_length.
    destruct (k <? 0)%Z eqn:Hk; [apply Z.ltb_lt in Hk | apply Z.ltb_ge in Hk]; lia.
  - exists []. split; [reflexivity |]. simpl. repeat split; lia.
Qed.

(** X12: the records that [search] returns stand in the order of their
    similarities, from the largest down: none is below its successor. *)
Theorem search_returns_descending self query_vector k threshold s :
  exists results,
    eval (search self query_vector k threshold) s = Return results /\
    Sorted not_below results.
Proof.
  destruct self as [[c|] p].
  - destruct (search_shape c p query_vector k threshold s) as (hits & Heval & Hall & _).
    eexists. split; [exact Heval |].
    apply slice_to_Sorted, sort_desc_Sorted.
    eapply List.Forall_impl; [| exact Hall].
    intros r (key & _ & _ & Hpass & _). apply (leb_true_not_nan _ _ Hpass).
  - exists []. split; [reflexivity | constructor].
Qed.

(** X13: no record that [search] returns has a NaN similarity, and a NaN
    threshold gives the empty list. *)
Theorem search_returns_no_nan self query_vector k threshold s :
  exists results,
    eval (search self query_vector k threshold) s = Return results /\
    Forall (fun r => is_nan (sr_similarity r) = false) results /\
    (is_nan threshold = true -> results = []).
Proof.
  destruct self as [[c|] p].
  - destruct (search_spec c p query_vector k threshold s) as (results & Heval & Hall).
    exists results. split; [exact Heval |]. split.
    + eapply List.Forall_impl; [| exact Hall].
      intros r (key & _ & _ & Hpass & _).
      apply not_nan_is_nan, (leb_true_not_nan _ _ Hpass).
    + intros Hnan. destruct Hall as [|r rest (key & _ & _ & Hpass & _) _]; [reflexivity |].
      exfalso. revert Hnan Hpass. unfold is_nan.
      rewrite FloatAxioms.eqb_spec, leb_spec. unfold SFeqb, SFleb.
      destruct (Prim2SF threshold) as [sign|sign| |sign mant e] eqn:Ht.
      * rewrite SFcompare_refl; discriminate.
      * rewrite SFcompare_refl; discriminate.
      * intros _. simpl. discriminate.
      * rewrite SFcompare_refl; discriminate.
  - exists []. split; [reflexivity |]. split; [constructor | reflexivity].
Qed.

End Ranking.

(** ** One record that stops a scan *)

Section Poisoned.

Context {ext : Externals} {np : Numpy}.

Implicit Types (c : RedisClient) (p key : string) (s : Server)
  (d : gmap string (gmap string string)).

Lemma search_step_raises c query_vector threshold key acc s :
  mismatched (db s) query_vector key \/ undecodable (db s) key ->
  exists e s',
    search_step c (vdiv query_vector (np_linalg_norm query_vector)) threshold key acc s
    = (Raise e, s').
Proof.
  intros Hbad. cbv [search_step redis_hget].
  scan_call; [| eauto]. scan_call; [| eauto]. rewrite Hdb.
  assert (Htext : exists text,
             db_hget key "vector" (db s) = Some text /\ text <> "").
  { destruct Hbad as [(text & _ & _ & Htext & Hne & _) | (text & Htext & Hne & _)];
      exists text; split; assumption. }
  destruct Htext as (text & Htext & Hne). rewrite Htext, (truthy_Some _ Hne).
  cbn [negb default from_option Datatypes.id]. cbv [bind lift ret load_metadata].
  destruct (json_loads text) as [decoded|e] eqn:Hdecoded; [| eauto].
  destruct Hbad as [(text' & decoded' & v & Htext' & _ & Hdecoded' & Hv & Hlen)
                   | (text' & Htext' & _ & [(e & Hraise)
                                            | (mtext & e & Hm & Hm' & Hraise)])].
  - assert (text' = text) as -> by congruence.
    assert (decoded' = decoded) as -> by congruence.
    assert (Hshape : Nat.eqb (length (vdiv query_vector (np_linalg_norm query_vector)))
                       (length (vdiv v (np_linalg_norm v))) = false).
    { apply Nat.eqb_neq. unfold vdiv. rewrite !length_map. congruence. }
    destruct (truthy (db_hget key "metadata" (db s)));
      rewrite Hv; unfold np_dot; rewrite Hshape;
      [destruct (json_loads (default "" (db_hget key "metadata" (db s)))); eauto | eauto].
  - assert (text' = text) as -> by congruence. congruence.
  - rewrite Hm, (truthy_Some _ Hm'). cbn [default from_option Datatypes.id].
    rewrite Hraise. eauto.
Qed.

Lemma search_loop_raises c query_vector threshold key d all_keys :
  In key all_keys ->
  mismatched d query_vector key \/ undecodable d key ->
  forall acc s,
    db s = d ->
    exists e s',
      search_loop c (vdiv query_vector (np_linalg_norm query_vector)) threshold
        all_keys acc s
      = (Raise e, s').
Proof.
  intros Hin Hbad. induction all_keys as [|key' rest IH]; [destruct Hin |].
  intros acc s Hdb. cbn [search_loop].
  destruct Hin as [-> | Hin].
  - rewrite <- Hdb in Hbad.
    destruct (search_step_raises c query_vector threshold key acc s Hbad)
      as (e & s' & Hstep).
    exists e, s'. apply bind_raise, Hstep.
  - destruct (search_step_spec c (vdiv query_vector (np_linalg_norm query_vector))
                threshold key' acc s)
      as (s1 & Hdb1 & [Hstep | [(r & Hstep & _) | (e & Hstep)]]).
    + rewrite (bind_run _ _ _ _ _ Hstep). apply (IH Hin). congruence.
    + rewrite (bind_run _ _ _ _ _ Hstep). apply (IH Hin). congruence.
    + exists e, s1. apply bind_raise, Hstep.
Qed.

(** X14: [search] returns the empty list as soon as one key of the namespace
    holds a vector of another length than the query, or a vector or
    metadata text that does not decode, whatever the other keys hold. *)
Theorem search_stopped_by_one_record c p query_vector k threshold key s :
  let self := mkStore (Some c) p in
  In key (db_keys (vector_pattern self) (db s)) ->
  mismatched (db s) query_vector key \/ undecodable (db s) key ->
  eval (search self query_vector k threshold) s = Return [].
Proof.
  intros self Hin Hbad.
  cbv [search self redis_client try_except redis_keys eval]. fold self.
  scan_call; [| reflexivity].
  destruct (db_keys (vector_pattern self) (db s)) as [|key' rest] eqn:Hkeys;
    [destruct Hin |]. cbn [is_empty].
  destruct (search_loop_raises c query_vector threshold key (db s) (key' :: rest) Hin Hbad
              [] s0 Hdb) as (e & s' & Hloop).
  rewrite (bind_raise _ _ _ _ _ Hloop). reflexivity.
Qed.

Lemma get_all_step_raises c key acc s :
  undecodable (db s) key -> exists e s', get_all_step c key acc s = (Raise e, s').
Proof.
  intros (text & Htext & Hne & Hbad). cbv [get_all_step redis_hget].
  scan_call; [| eauto]. scan_call; [| eauto].
  rewrite Hdb, Htext, (truthy_Some _ Hne).
  cbn [negb default from_option Datatypes.id]. cbv [bind lift ret].
  destruct (json_loads text) as [decoded|e] eqn:Hdecoded; [| eauto].
  destruct Hbad as [(e & Hraise) | (mtext & e & Hm & Hm' & Hraise)]; [congruence |].
  unfold load_metadata, lift. rewrite Hm, (truthy_Some _ Hm').
  cbn [default from_option Datatypes.id]. rewrite Hraise. eauto.
Qed.

Lemma get_all_loop_raises c key d all_keys :
  In key all_keys -> undecodable d key ->
  forall acc s, db s = d -> exists e s', get_all_loop c all_keys acc s = (Raise e, s').
Proof.
  intros Hin Hbad. induction all_keys as [|key' rest IH]; [destruct Hin |].
  intros acc s Hdb. cbn [get_all_loop].
  destruct Hin as [-> | Hin].
  - rewrite <- Hdb in Hbad.
    destruct (get_all_step_raises c key acc s Hbad) as (e & s' & Hstep).
    exists e, s'. apply bind_raise, Hstep.
  - destruct (get_all_step_spec c key' acc s)
      as (s1 & Hdb1 & [Hstep | [(r & Hstep & _) | (e & Hstep)]]).
    + rewrite (bind_run _ _ _ _ _ Hstep). apply (IH Hin). congruence.
    + rewrite (bind_run _ _ _ _ _ Hstep). apply (IH Hin). congruence.
    + exists e, s1. apply bind_raise, Hstep.
Qed.

(** X15: [get_all_vectors] returns the empty list as soon as one of the keys
    it reads holds a vector or metadata text that does not decode. *)
Theorem get_all_vectors_stopped_by_one_record c p limit key s :
  let self := mkStore (Some c) p in
  In key (slice_to (db_keys (vector_pattern self) (db s)) limit) ->
  undecodable (db s) key ->
  eval (get_all_vectors self limit) s = Return [].
Proof.
  intros self Hin Hbad.
  cbv [get_all_vectors self redis_client try_except redis_keys eval]. fold self.
  scan_call; [| reflexivity].
  destruct (db_keys (vector_pattern self) (db s)) as [|key' rest] eqn:Hkeys; cbn [is_empty].
  { reflexivity. }
  destruct (get_all_loop_raises c key (db s) _ Hin Hbad [] s0 Hdb) as (e & s' & Hloop).
  rewrite Hloop. reflexivity.
Qed.

End Poisoned.

(** ** The list that [get_all_vectors] returns *)

Section Listing.

Context {ext : Externals} {np : Numpy}.

Implicit Types (c : RedisClient) (p key : string) (s : Server)
  (d : gmap string (gmap string string)).

(** X16: [get_all_vectors] returns at most [limit] records for a [limit]
    that is not negative, and for a negative [limit] at least [-limit]
    records fewer than there are keys in the namespace. *)
Theorem get_all_vectors_respects_limit self limit s :
  exists vectors,
    eval (get_all_vectors self limit) s = Return vectors /\
    ((0 <= limit)%Z -> length vectors <= Z.to_nat limit) /\
    ((limit < 0)%Z ->
     length vectors
     <= length (db_keys (vector_pattern self) (db s)) - Z.to_nat (- limit)).
Proof.
  destruct self as [[c|] p]; [| exists []; split; [reflexivity | simpl; split; lia]].
  set (self := mkStore (Some c) p).
  assert (Hnone : exists vectors : list VectorRecord,
             Return (A := list VectorRecord) [] = Return vectors /\
             ((0 <= limit)%Z -> length vectors <= Z.to_nat limit) /\
             ((limit < 0)%Z ->
              length vectors
              <= length (db_keys (vector_pattern self) (db s)) - Z.to_nat (- limit))).
  { exists []. split; [reflexivity | simpl; split; lia]. }
  cbv [get_all_vectors self redis_client try_except redis_keys eval]. fold self.
  scan_call; [| exact Hnone].
  destruct (db_keys (vector_pattern self) (db s)) as [|key rest] eqn:Hkeys; cbn [is_empty].
  { exact Hnone. }
  rewrite <- Hkeys in *.
  match goal with
  | |- context [get_all_loop c ?ks [] ?s1] =>
      destruct (get_all_loop_spec c (fun _ => True) (db s) ks (fun _ _ _ _ => I)
                  [] s1 Hdb ltac:(constructor))
        as (s2 & _ & [(vectors & Hloop & _ & Hlen) | (e & Hloop)])
  end.
  - rewrite Hloop. exists vectors. split; [reflexivity |].
    rewrite slice_to_length_eq in Hlen. simpl in Hlen.
    destruct (limit <? 0)%Z eqn:Hlimit;
      [apply Z.ltb_lt in Hlimit | apply Z.ltb_ge in Hlimit]; lia.
  - rewrite Hloop. exact Hnone.
Qed.

Lemma get_all_step_holds c key r acc s :
  reliable s -> holds_record (db s) key r ->
  exists s',
    get_all_step c key acc s = (Return (acc ++ [r]), s') /\ reliable s' /\ db s' = db s.
Proof.
  intros Hrel (Hid & (text & Htext & Hne & Hvector) & Hmetadata).
  cbv [get_all_step redis_hget]. run_call Hrel. run_call Hrel0.
  rewrite Htext, Hdb, (truthy_Some _ Hne).
  cbn [negb default from_option Datatypes.id]. cbv [bind lift ret load_metadata].
  rewrite Hvector.
  destruct r as [rid rvector rmetadata]. cbn [vr_id vr_vector vr_metadata] in *.
  rewrite extract_id_last_segment, <- Hid.
  destruct (truthy (db_hget key "metadata" (db s))).
  - rewrite Hmetadata. eexists. split; [reflexivity |]. split; [assumption | congruence].
  - rewrite Hmetadata. eexists. split; [reflexivity |]. split; [assumption | congruence].
Qed.

Lemma get_all_loop_holds c d all_keys records :
  Forall2 (holds_record d) all_keys records ->
  forall acc s,
    reliable s -> db s = d ->
    exists s',
      get_all_loop c all_keys acc s = (Return (acc ++ records), s') /\
      reliable s' /\ db s' = d.
Proof.
  induction 1 as [|key r rest records Hr Hrest IH]; intros acc s Hrel Hdb.
  - exists s. rewrite app_nil_r. split; [reflexivity |]. split; assumption.
  - cbn [get_all_loop]. rewrite <- Hdb in Hr.
    destruct (get_all_step_holds c key r acc s Hrel Hr) as (s1 & Hstep & Hrel1 & Hdb1).
    rewrite (bind_run _ _ _ _ _ Hstep).
    destruct (IH (acc ++ [r]) s1 Hrel1) as (s' & Hloop & Hrel' & Hdb'); [congruence |].
    exists s'. rewrite <- app_assoc in Hloop. split; [exact Hloop |]. split; assumption.
Qed.


End Listing.

(** ** How insertions and deletions move the count *)

Lemma filter_length_Permutation {A : Type} (f : A -> bool) (l l' : list A) :
  l ≡ₚ l' -> length (List.filter f l) = length (List.filter f l').
Proof.
  induction 1 as [|x l l' _ IH|x y l|l l' l'' _ IH _ IH']; simpl.
  - reflexivity.
  - destruct (f x); simpl; congruence.
  - destruct (f x), (f y); reflexivity.
  - congruence.
Qed.

Section Counting.

Context {ext : Externals} {np : Numpy}.

Implicit Types (c : RedisClient) (p id key pattern : string) (s : Server)
  (d : gmap string (gmap string string)).

Lemma db_keys_new_key pattern key d d' :
  key ∉ dom d -> dom d' = {[key]} ∪ dom d ->
  glob_match pattern key = true ->
  length (db_keys pattern d') = S (length (db_keys pattern d)).
Proof.
  intros Hnew Hdom Hmatch. unfold db_keys. rewrite Hdom.
  rewrite (filter_length_Permutation _ _ _ (elements_union_singleton (dom d) key Hnew)).
  simpl. rewrite Hmatch. reflexivity.
Qed.

Lemma db_keys_deleted_key pattern key d d' :
  key ∈ dom d -> dom d' = dom d ∖ {[key]} ->
  glob_match pattern key = true ->
  length (db_keys pattern d) = S (length (db_keys pattern d')).
Proof.
  intros Hold Hdom Hmatch.
  apply (db_keys_new_key pattern key d' d); [| | exact Hmatch].
  - rewrite Hdom. set_solver.
  - rewrite Hdom. apply union_difference_singleton_L. exact Hold.
Qed.

(** X18: when the calls succeed and the key of a new id matches the pattern
    of the namespace, [add_vector] for that id raises [count_vectors] by
    one. *)
Theorem add_vector_new_id_counts c p id vector metadata now s :
  let self := mkStore (Some c) p in
  reliable s ->
  glob_match (vector_pattern self) (vector_key self id) = true ->
  db s !! vector_key self id = None ->
  exists n,
    eval (let* before := count_vectors self in
          let* added := add_vector self id vector metadata now in
          let* after := count_vectors self in
          ret (before, added, after)) s
    = Return (n, true, S n).
Proof.
  intros self Hrel Hmatch Hnew.
  destruct (count_vectors_run c p s Hrel) as (s1 & Hcount1 & Hrel1 & Hdb1).
  destruct (add_vector_run c p id vector metadata now s1 Hrel1)
    as (s2 & Hadd & Hrel2 & _ & _ & _ & Hdom2).
  destruct (count_vectors_run c p s2 Hrel2) as (s3 & Hcount2 & _ & _).
  fold self in Hcount1, Hadd, Hcount2, Hdom2.
  exists (length (db_keys (vector_pattern self) (db s))).
  rewrite (eval_bind _ _ _ _ _ Hcount1), (eval_bind _ _ _ _ _ Hadd),
    (eval_bind _ _ _ _ _ Hcount2).
  unfold eval, ret. cbn [fst]. do 2 f_equal.
  apply (db_keys_new_key _ (vector_key self id)); [| | exact Hmatch].
  - apply not_elem_of_dom. exact Hnew.
  - rewrite Hdom2, Hdb1. reflexivity.
Qed.

(** X19: when the calls succeed and the key of a stored id matches the
    pattern of the namespace, [delete_vector] for that id lowers
    [count_vectors] by one. *)
Theorem delete_vector_stored_id_counts c p id fields s :
  let self := mkStore (Some c) p in
  reliable s ->
  glob_match (vector_pattern self) (vector_key self id) = true ->
  db s !! vector_key self id = Some fields ->
  exists n,
    eval (let* before := count_vectors self in
          let* deleted := delete_vector self id in
          let* after := count_vectors self in
          ret (before, deleted, after)) s
    = Return (S n, true, n).
Proof.
  intros self Hrel Hmatch Hold.
  destruct (count_vectors_run c p s Hrel) as (s1 & Hcount1 & Hrel1 & Hdb1).
  destruct (delete_vector_run c p id s1 Hrel1) as (s2 & Hdel & Hrel2 & Hdb2).
  destruct (count_vectors_run c p s2 Hrel2) as (s3 & Hcount2 & _ & _).
  fold self in Hcount1, Hdel, Hcount2, Hdb2.
  exists (length (db_keys (vector_pattern self) (db s2))).
  rewrite (eval_bind _ _ _ _ _ Hcount1), (eval_bind _ _ _ _ _ Hdel),
    (eval_bind _ _ _ _ _ Hcount2).
  unfold eval, ret. cbn [fst]. do 3 f_equal.
  apply (db_keys_deleted_key _ (vector_key self id)); [| | exact Hmatch].
  - apply elem_of_dom. eauto.
  - rewrite Hdb2, Hdb1. apply dom_delete_L.
Qed.

End Counting.

(** ** The hits that [search] returns *)

Lemma insert_desc_In r r' sorted : In r (insert_desc r' sorted) <-> r = r' \/ In r sorted.
Proof.
  induction sorted as [|r0 rest IH]; simpl; [intuition congruence |].
  destruct (sr_similarity r' <? sr_similarity r0)%float; simpl; rewrite ?IH;
    intuition congruence.
Qed.

Lemma sort_desc_In r results : In r (sort_desc results) <-> In r results.
Proof.
  induction results as [|r' rest IH]; simpl; [tauto |].
  rewrite insert_desc_In, IH. intuition congruence.
Qed.

Lemma slice_to_all {A : Type} (l : list A) (k : Z) :
  (Z.of_nat (length l) <= k)%Z -> slice_to l k = l.
Proof.
  intros Hk. unfold slice_to.
  destruct (k <? 0)%Z eqn:Hneg; [apply Z.ltb_lt in Hneg; lia |].
  apply take_ge. lia.
Qed.

Lemma omap_length_le {A : Type} (l : list (option A)) :
  length (omap Datatypes.id l) <= length l.
Proof. induction l as [|[x|] l IH]; csimpl; lia. Qed.

Section Hits.

Context {ext : Externals} {np : Numpy}.

Implicit Types (c : RedisClient) (p key : string) (s : Server)
  (d : gmap string (gmap string string)).

Lemma search_step_scored c query_vec threshold key hit acc s :
  reliable s -> scored (db s) query_vec threshold key hit ->
  exists s',
    search_step c query_vec threshold key acc s
    = (Return (acc ++ from_option (fun r => [r]) [] hit), s') /\
    reliable s' /\ db s' = db s.
Proof.
  intros Hrel Hscored. unfold scored in Hscored.
  cbv [search_step redis_hget]. run_call Hrel. run_call Hrel0. rewrite Hdb.
  destruct (truthy (db_hget key "vector" (db s))); cbn [negb].
  - destruct Hscored as (decoded & metadata & v & Hdecoded & Hmetadata & Hv & Hlen & ->).
    cbv [bind lift ret load_metadata np_dot]. rewrite Hdecoded.
    assert (Hshape : Nat.eqb (length query_vec) (length (vdiv v (np_linalg_norm v)))
                     = true).
    { apply Nat.eqb_eq. unfold vdiv. rewrite length_map. congruence. }
    destruct (truthy (db_hget key "metadata" (db s)));
      rewrite ?Hmetadata, Hv, Hshape, extract_id_last_segment;
      destruct (threshold <=? dot_sum query_vec (vdiv v (np_linalg_norm v)))%float;
      cbn [from_option]; rewrite ?app_nil_r; subst;
      (eexists; split; [reflexivity |]; split; [assumption | congruence]).
  - subst hit. cbn [from_option]. rewrite app_nil_r. unfold ret.
    eexists. split; [reflexivity |]. split; [assumption | congruence].
Qed.

Lemma search_loop_scored c query_vec threshold d all_keys hits :
  Forall2 (scored d query_vec threshold) all_keys hits ->
  forall acc s,
    reliable s -> db s = d ->
    exists s',
      search_loop c query_vec threshold all_keys acc s
      = (Return (acc ++ omap Datatypes.id hits), s') /\
      reliable s' /\ db s' = d.
Proof.
  induction 1 as [|key hit rest hits Hhit Hrest IH]; intros acc s Hrel Hdb.
  - exists s. simpl. rewrite app_nil_r. split; [reflexivity |]. split; assumption.
  - cbn [search_loop]. rewrite <- Hdb in Hhit.
    destruct (search_step_scored c query_vec threshold key hit acc s Hrel Hhit)
      as (s1 & Hstep & Hrel1 & Hdb1).
    rewrite (bind_run _ _ _ _ _ Hstep).
    destruct (IH (acc ++ from_option (fun r => [r]) [] hit) s1 Hrel1)
      as (s' & Hloop & Hrel' & Hdb'); [congruence |].
    exists s'. split; [| split; assumption].
    rewrite Hloop. f_equal. rewrite <- app_assoc. f_equal.
    destruct hit; reflexivity.
Qed.



End Hits.

(** ** A record that the scan scores is a record that [search] returns *)

Section Found.

Context {ext : Externals} {np : Numpy}.

Implicit Types (c : RedisClient) (p : string) (s : Server)
  (d : gmap string (gmap string string)).

(** A key has one score. *)
Lemma scored_functional d query_vec threshold key hit1 hit2 :
  scored d query_vec threshold key hit1 -> scored d query_vec threshold key hit2 ->
  hit1 = hit2.
Proof.
  unfold scored. destruct (truthy (db_hget key "vector" d)); [| congruence].
  intros (decoded1 & metadata1 & v1 & Hdecoded1 & Hmeta1 & Hv1 & _ & ->)
         (decoded2 & metadata2 & v2 & Hdecoded2 & Hmeta2 & Hv2 & _ & ->).
  assert (decoded2 = decoded1) as -> by congruence.
  assert (v2 = v1) as -> by congruence.
  assert (metadata2 = metadata1) as ->
    by (destruct (truthy (db_hget key "metadata" d)); congruence).
  reflexivity.
Qed.

Lemma Forall2_In_l {A B : Type} (R : A -> B -> Prop) (l : list A) (l' : list B) (x : A) :
  Forall2 R l l' -> In x l -> exists y, In y l' /\ R x y.
Proof.
  induction 1 as [|a b l l' Hab _ IH]; intros Hx; [destruct Hx |].
  destruct Hx as [-> | Hx].
  - exists b. split; [left; reflexivity | exact Hab].
  - destruct (IH Hx) as (y & Hy & Hxy). exists y. split; [right; exact Hy | exact Hxy].
Qed.

(** When the calls succeed, every key of the namespace has a score and [k]
    is at least the number of keys, the record that the scan makes of a key
    is among the records that [search] returns. *)
Lemma search_finds_scored_key c p query_vector k threshold hits key hit s :
  let self := mkStore (Some c) p in
  let query_vec := vdiv query_vector (np_linalg_norm query_vector) in
  reliable s ->
  Forall2 (scored (db s) query_vec threshold)
    (db_keys (vector_pattern self) (db s)) hits ->
  (Z.of_nat (length (db_keys (vector_pattern self) (db s))) <= k)%Z ->
  In key (db_keys (vector_pattern self) (db s)) ->
  scored (db s) query_vec threshold key (Some hit) ->
  exists results,
    eval (search self query_vector k threshold) s = Return results /\ In hit results.
Proof.
  intros self query_vec Hrel Hhits Hk Hkey Hhit.
  assert (Hr : In (Some hit) hits).
  { destruct (Forall2_In_l _ _ _ _ Hhits Hkey) as (h & Hh & Hscored).
    rewrite (scored_functional _ _ _ _ _ _ Hhit Hscored). exact Hh. }
  assert (Hlen : (Z.of_nat (length (sort_desc (omap Datatypes.id hits))) <= k)%Z).
  { rewrite sort_desc_length.
    pose proof (Forall2_length _ _ _ Hhits) as Hsame.
    pose proof (omap_length_le hits) as Hle.
    unfold self in *. lia. }
  assert (Hin : In hit (sort_desc (omap Datatypes.id hits))).
  { apply sort_desc_In. apply list_elem_of_In, list_elem_of_omap.
    exists (Some hit). split; [apply list_elem_of_In, Hr | reflexivity]. }
  exists (sort_desc (omap Datatypes.id hits)). split; [| exact Hin].
  rewrite <- (slice_to_all _ k Hlen).
  cbv [search self redis_client try_except redis_keys eval]. fold self.
  run_call Hrel.
  destruct (db_keys (vector_pattern self) (db s)) as [|key0 rest] eqn:Hkeys; cbn [is_empty].
  - inversion Hhits. subst. unfold slice_to. simpl.
    destruct (k <? 0)%Z; rewrite take_nil; reflexivity.
  - destruct (search_loop_scored c query_vec threshold (db s) _ _ Hhits [] s0 Hrel0 Hdb)
      as (s' & Hloop & _).
    fold query_vec. rewrite (bind_run _ _ _ _ _ Hloop). reflexivity.
Qed.

(** The score of a key whose record reaches the threshold. *)
Lemma scored_hit_inv d query_vec threshold key hit text decoded v :
  scored d query_vec threshold key (Some hit) ->
  db_hget key "vector" d = Some text -> json_loads text = Return decoded ->
  np_array decoded = Return v ->
  let similarity := dot_sum query_vec (vdiv v (np_linalg_norm v)) in
  (threshold <=? similarity)%float = true /\
  sr_id hit = last_segment key /\
  sr_similarity hit = similarity.
Proof.
  unfold scored. intros Hscored Htext Hdecoded Hv. rewrite Htext in Hscored.
  cbn [default from_option Datatypes.id] in Hscored.
  destruct (truthy (Some text)); [| discriminate].
  destruct Hscored as (decoded' & metadata & v' & Hdecoded' & _ & Hv' & _ & Hhit).
  assert (decoded' = decoded) as -> by congruence.
  assert (v' = v) as -> by congruence.
  cbv zeta in Hhit |- *.
  destruct (threshold <=? dot_sum query_vec (vdiv v (np_linalg_norm v)))%float;
    [| discriminate].
  injection Hhit as ->. auto.
Qed.



End Found.

(** * Closed runs on the concrete codec *)

Module Examples.

#[local] Existing Instance plain_json.
#[local] Existing Instance plain_numpy.

Lemma empty_server_reliable : reliable empty_server.
Proof. constructor. Qed.

Lemma populated_reliable : reliable populated.
Proof. vm_compute. constructor. Qed.

Lemma near_x_round_trips : round_trips (as_jsonable near_x).
Proof. split; [vm_compute; discriminate | vm_compute; reflexivity]. Qed.

Lemma tagged_round_trips : round_trips tagged.
Proof. split; [vm_compute; discriminate | vm_compute; reflexivity]. Qed.

Lemma tagged_given : tagged <> JNull.
Proof. discriminate. Qed.

(** C1, refuted as stated: a second [add_vector] with the same id replaces
    the [created_at] written by the first. *)
Lemma created_at_overwritten :
  let key := vector_key store "a" in
  let first := exec (add_vector store "a" unit_x no_metadata "2024-01-01T00:00:00")
                 empty_server in
  let second := exec (add_vector store "a" unit_y no_metadata "2024-01-02T00:00:00")
                  first in
  db_hget key "created_at" (db first) = Some "2024-01-01T00:00:00" /\
  db_hget key "created_at" (db second) = Some "2024-01-02T00:00:00" /\
  db_hget key "created_at" (db second) <> db_hget key "created_at" (db first).
Proof.
  split; [vm_compute; reflexivity |]. split; [vm_compute; reflexivity |].
  vm_compute. intros Heq. discriminate Heq.
Qed.

(** C1 as amended, on the empty server. *)
Lemma add_vector_sets_created_at_witness :
  reliable empty_server /\
  eval (add_vector store "a" unit_x no_metadata "2024-01-01T00:00:00") empty_server
  = Return true /\
  db_hget (vector_key store "a") "created_at"
    (db (exec (add_vector store "a" unit_x no_metadata "2024-01-01T00:00:00") empty_server))
  = Some "2024-01-01T00:00:00".
Proof.
  split; [exact empty_server_reliable |].
  exact (add_vector_sets_created_at client "btagent:" "a" unit_x no_metadata
           "2024-01-01T00:00:00" empty_server empty_server_reliable).
Defined.



(** C7 for an id that is stored. *)
Lemma delete_then_get_absent_witness :
  reliable populated /\
  eval (let* deleted := delete_vector store "a" in
        let* found := get_vector store "a" in
        ret (deleted, found)) populated
  = Return (true, None).
Proof.
  split; [exact populated_reliable |].
  exact (delete_then_get_absent client "btagent:" "a" populated populated_reliable).
Defined.

(** C8 on a server with four keys in the namespace. *)
Lemma clear_empties_namespace_witness :
  reliable populated /\
  eval (let* cleared := clear store in
        let* count := count_vectors store in
        let* vectors := get_all_vectors store 1000 in
        ret (cleared, count, vectors)) populated
  = Return (true, 0, []).
Proof.
  split; [exact populated_reliable |].
  exact (proj1 (clear_empties_namespace client "btagent:" 1000 populated
                  populated_reliable)).
Defined.

(** C10 on a server with four keys in the namespace, one without a vector
    field. *)
Lemma count_bounds_listing_witness :
  reliable populated /\
  exists count vectors,
    eval (let* count := count_vectors store in
          let* vectors := get_all_vectors store 1000 in
          ret (count, vectors)) populated
    = Return (count, vectors) /\
    count = length (db_keys (vector_pattern store) (db populated)) /\
    length vectors <= count.
Proof.
  split; [exact populated_reliable |].
  exact (count_bounds_listing client "btagent:" 1000 populated populated_reliable).
Defined.

(** The scenario of three vectors: [a] and [c] are returned in this order,
    [b] is below the threshold. *)
Example search_three_vectors :
  eval (add_vector store "a" unit_x no_metadata "2024-01-01T00:00:00" ;;
        add_vector store "b" unit_y no_metadata "2024-01-01T00:00:01" ;;
        add_vector store "c" near_x tagged "2024-01-01T00:00:02" ;;
        let* results := search store [1; 0; 0; 0]%float 2 0.5 in
        ret (map sr_id results)) empty_server
  = Return ["a"; "c"].
Proof. vm_compute. reflexivity. Qed.

(** An id with a colon: found under the full id, listed and ranked under
    what follows its last colon. *)
Example colon_id_end_to_end :
  eval (add_vector store "doc:1" unit_x no_metadata "2024-01-01T00:00:00" ;;
        let* found := get_vector store "doc:1" in
        let* vectors := get_all_vectors store 1000 in
        let* results := search store [1; 0; 0; 0]%float 5 0 in
        ret (option_map vr_id found, map vr_id vectors, map sr_id results)) empty_server
  = Return (Some "doc:1", ["1"], ["1"]).
Proof. vm_compute. reflexivity. Qed.

(** A key without a vector field is counted and not listed. *)
Example counted_not_listed :
  eval (let* count := count_vectors store in
        let* vectors := get_all_vectors store 1000 in
        ret (count, length vectors)) populated
  = Return (4, 3).
Proof. vm_compute. reflexivity. Qed.

(** A query whose norm underflows to zero is divided by that zero: its
    component becomes infinite and so does the similarity that [search]
    returns. *)
Example zero_norm_query_infinite_similarity :
  is_zero (np_linalg_norm [0x1p-600%float]) = true /\
  eval (add_vector store "a" (ndarray [1%float]) no_metadata "2024-01-01T00:00:00" ;;
        let* results := search store [0x1p-600%float] 5 0 in
        ret (map sr_similarity results)) empty_server
  = Return [infinity].
Proof. split; vm_compute; reflexivity. Qed.

(** A query of zeros is divided by its zero norm into NaN; no record passes
    the threshold. A stored vector of zeros is dropped the same way. *)
Example zero_vectors_drop_out :
  eval (add_vector store "a" unit_x no_metadata "2024-01-01T00:00:00" ;;
        add_vector store "z" (ndarray [0; 0; 0; 0]%float) no_metadata "2024-01-01T00:00:01" ;;
        let* for_zero := search store [0; 0; 0; 0]%float 5 0 in
        let* for_x := search store [1; 0; 0; 0]%float 5 0 in
        ret (map sr_id for_zero, map sr_id for_x)) empty_server
  = Return ([], ["a"]).
Proof. vm_compute. reflexivity. Qed.

(** An omitted [metadata] is stored and read back as the empty mapping. *)
Example omitted_metadata_is_empty_mapping :
  eval (add_vector store "a" unit_x no_metadata "2024-01-01T00:00:00" ;;
        let* found := get_vector store "a" in
        ret (option_map vr_metadata found)) empty_server
  = Return (Some (JObject [])).
Proof. vm_compute. reflexivity. Qed.

(** A call that fails in the middle of [add_vector]: the method returns
    false, and the field written before the failure stays. *)
Example add_vector_interrupted :
  let s := {| db := ∅; calls := []; faults := [false; true] |} in
  eval (add_vector store "a" unit_x no_metadata "2024-01-01T00:00:00") s = Return false /\
  db_hget (vector_key store "a") "vector"
    (db (exec (add_vector store "a" unit_x no_metadata "2024-01-01T00:00:00") s))
  = Some "[1.0, 0.0, 0.0, 0.0]" /\
  db_hget (vector_key store "a") "metadata"
    (db (exec (add_vector store "a" unit_x no_metadata "2024-01-01T00:00:00") s))
  = None.
Proof. repeat split; vm_compute; reflexivity. Qed.

End Examples.

(** * Further closed runs *)

Module FurtherRuns.

#[local] Existing Instance plain_json.
#[local] Existing Instance plain_numpy.

Lemma three_reliable : reliable three.
Proof. vm_compute. constructor. Qed.

Lemma broken_reliable : reliable broken.
Proof. vm_compute. constructor. Qed.

Lemma bare_reliable : reliable bare.
Proof. vm_compute. constructor. Qed.

Lemma populated_again_reliable : reliable populated.
Proof. vm_compute. constructor. Qed.

(** Proves that a key of a closed server is scored as stated. *)
Ltac scored_by_computation :=
  unfold scored;
  lazymatch goal with
  | |- if ?b then _ else _ =>
      let b' := eval vm_compute in b in
      change b with b'; cbv iota
  end;
  [> first [ reflexivity
           | do 3 eexists;
             split; [vm_compute; reflexivity |];
             split; [vm_compute; reflexivity |];
             split; [vm_compute; reflexivity |];
             split; [vm_compute; reflexivity |];
             vm_compute; reflexivity ] ].

Lemma three_scored :
  Forall2 (scored (db three) along_x_unit 0.5)
    (db_keys (vector_pattern store) (db three)) three_hits.
Proof.
  change (db_keys (vector_pattern store) (db three))
    with ["btagent:vector:c"; "btagent:vector:a"; "btagent:vector:b"].
  repeat (constructor; [scored_by_computation |]). constructor.
Qed.

Lemma uneven_mismatched : mismatched (db uneven) along_x "btagent:vector:y".
Proof.
  exists "[1.0, 0.0]", (JArray [JNumber 1; JNumber 0]), [1; 0]%float.
  split; [vm_compute; reflexivity |]. split; [discriminate |].
  split; [vm_compute; reflexivity |]. split; [reflexivity |]. simpl. lia.
Qed.

Lemma broken_undecodable : undecodable (db broken) "btagent:vector:x".
Proof.
  exists "not json". split; [vm_compute; reflexivity |]. split; [discriminate |].
  left. exists JSONDecodeError. vm_compute. reflexivity.
Qed.

(** Proves that a key of a closed server holds the record stated. *)
Ltac holds_by_computation :=
  split; [vm_compute; reflexivity |];
  split;
  [ eexists; split; [vm_compute; reflexivity |]; split; [discriminate |];
    vm_compute; reflexivity
  | lazymatch goal with
    | |- if ?b then _ else _ =>
        let b' := eval vm_compute in b in
        change b with b'; cbv iota
    end; vm_compute; reflexivity ].

Lemma three_holds :
  Forall2 (holds_record (db three))
    (slice_to (db_keys (vector_pattern store) (db three)) 1000) three_records.
Proof.
  change (slice_to (db_keys (vector_pattern store) (db three)) 1000)
    with ["btagent:vector:c"; "btagent:vector:a"; "btagent:vector:b"].
  repeat (constructor; [holds_by_computation |]). constructor.
Qed.

(** X1 for an insertion under [a] and the fields of [b]. *)
Lemma add_vector_keeps_other_ids_witness :
  "b" <> "a" /\
  db_hget (vector_key store "b") "vector"
    (db (exec (add_vector store "a" unit_y tagged "2024-01-03T00:00:00") three))
  = db_hget (vector_key store "b") "vector" (db three).
Proof.
  assert (Hne : "b" <> "a") by discriminate.
  split; [exact Hne |].
  exact (add_vector_keeps_other_ids store "a" unit_y tagged "2024-01-03T00:00:00"
           "b" "vector" three Hne).
Defined.

(** X2 for two deletions of [a]. *)
Lemma delete_vector_keeps_other_keys_witness :
  reliable three /\
  eval (delete_vector store "a" ;; delete_vector store "a") three = Return true /\
  db (exec (delete_vector store "a" ;; delete_vector store "a") three)
  = db (exec (delete_vector store "a") three).
Proof.
  split; [exact three_reliable |].
  exact (proj2 (delete_vector_keeps_other_keys client "btagent:" "a" three)
           three_reliable).
Defined.

(** X3 for a key of another namespace. *)
Lemma clear_keeps_other_namespaces_witness :
  glob_match (vector_pattern store) "btagent:session:1" = false /\
  db (exec (clear store) three) !! "btagent:session:1" = db three !! "btagent:session:1".
Proof.
  split; [reflexivity |].
  exact (clear_keeps_other_namespaces store "btagent:session:1" three eq_refl).
Defined.

(** X6 for an overwrite of [c] whose second call fails. *)
Lemma add_vector_interrupted_keeps_vector_witness :
  faults flaky = [false; true] /\
  eval (add_vector store "c" unit_y no_metadata "2024-01-03T00:00:00") flaky = Return false /\
  db_hget (vector_key store "c") "vector"
    (db (exec (add_vector store "c" unit_y no_metadata "2024-01-03T00:00:00") flaky))
  = Some (json_dumps (as_jsonable unit_y)) /\
  (forall field, field <> "vector" ->
     db_hget (vector_key store "c") field
       (db (exec (add_vector store "c" unit_y no_metadata "2024-01-03T00:00:00") flaky))
     = db_hget (vector_key store "c") field (db flaky)).
Proof.
  split; [reflexivity |].
  exact (add_vector_interrupted_keeps_vector client "btagent:" "c" unit_y no_metadata
           "2024-01-03T00:00:00" [] flaky eq_refl).
Defined.

(** X7 on a server with three records. *)
Lemma keys_failure_reads_as_empty_witness :
  faults down = [true] /\
  eval (count_vectors store) down = Return 0 /\
  eval (search store along_x 5 0.5) down = Return [] /\
  eval (get_all_vectors store 1000) down = Return [] /\
  eval (clear store) down = Return false.
Proof.
  split; [reflexivity |].
  exact (keys_failure_reads_as_empty client "btagent:" along_x 5 0.5%float 1000 [] down
           eq_refl).
Defined.

(** X8 for the key of [populated] that has a metadata field only. *)
Lemma get_vector_needs_vector_field_witness :
  reliable populated /\
  truthy (db_hget (vector_key store "m") "vector" (db populated)) = false /\
  db_hget (vector_key store "m") "metadata" (db populated) = Some "{}" /\
  eval (get_vector store "m") populated = Return None.
Proof.
  assert (Hmissing : truthy (db_hget (vector_key store "m") "vector" (db populated)) = false)
    by (vm_compute; reflexivity).
  split; [exact populated_again_reliable |]. split; [exact Hmissing |].
  split; [vm_compute; reflexivity |].
  exact (get_vector_needs_vector_field client "btagent:" "m" populated
           populated_again_reliable Hmissing).
Defined.

(** X9 for a key that has a vector field only. *)
Lemma get_vector_defaults_metadata_witness :
  reliable bare /\
  db_hget (vector_key store "v") "vector" (db bare) = Some "[1.0]" /\
  json_loads "[1.0]" = Return (JArray [JNumber 1]) /\
  truthy (db_hget (vector_key store "v") "metadata" (db bare)) = false /\
  eval (get_vector store "v") bare
  = Return (Some {| vr_id := "v"; vr_vector := JArray [JNumber 1];
                    vr_metadata := JObject [] |}).
Proof.
  assert (Htext : db_hget (vector_key store "v") "vector" (db bare) = Some "[1.0]")
    by (vm_compute; reflexivity).
  assert (Hdecoded : json_loads "[1.0]" = Return (JArray [JNumber 1]))
    by (vm_compute; reflexivity).
  assert (Hmeta : truthy (db_hget (vector_key store "v") "metadata" (db bare)) = false)
    by (vm_compute; reflexivity).
  assert (Hne : "[1.0]" <> "") by discriminate.
  split; [exact bare_reliable |]. split; [exact Htext |]. split; [exact Hdecoded |].
  split; [exact Hmeta |].
  exact (get_vector_defaults_metadata client "btagent:" "v" "[1.0]" (JArray [JNumber 1])
           bare bare_reliable Htext Hne Hdecoded Hmeta).
Defined.

(** X10 for a key whose vector text is not JSON. *)
Lemma get_vector_errors_read_as_absent_witness :
  reliable broken /\
  undecodable (db broken) (vector_key store "x") /\
  eval (get_vector store "x") broken = Return None.
Proof.
  split; [exact broken_reliable |]. split; [exact broken_undecodable |].
  exact (get_vector_errors_read_as_absent client "btagent:" "x" broken
           (or_introl (conj broken_reliable broken_undecodable))).
Defined.

(** X14 for a server where one of four vectors has two components. *)
Lemma search_stopped_by_one_record_witness :
  In "btagent:vector:y" (db_keys (vector_pattern store) (db uneven)) /\
  mismatched (db uneven) along_x "btagent:vector:y" /\
  eval (search store along_x 5 0.5) uneven = Return [].
Proof.
  assert (Hin : In "btagent:vector:y" (db_keys (vector_pattern store) (db uneven)))
    by (vm_compute; auto 10).
  split; [exact Hin |]. split; [exact uneven_mismatched |].
  exact (search_stopped_by_one_record client "btagent:" along_x 5 0.5%float
           "btagent:vector:y" uneven Hin (or_introl uneven_mismatched)).
Defined.

(** X15 for a server where one of four vector texts is not JSON. *)
Lemma get_all_vectors_stopped_by_one_record_witness :
  In "btagent:vector:x" (slice_to (db_keys (vector_pattern store) (db broken)) 1000) /\
  undecodable (db broken) "btagent:vector:x" /\
  eval (get_all_vectors store 1000) broken = Return [].
Proof.
  assert (Hin : In "btagent:vector:x"
                  (slice_to (db_keys (vector_pattern store) (db broken)) 1000))
    by (vm_compute; auto 10).
  split; [exact Hin |]. split; [exact broken_undecodable |].
  exact (get_all_vectors_stopped_by_one_record client "btagent:" 1000
           "btagent:vector:x" broken Hin broken_undecodable).
Defined.


(** X18 for an id that [populated] does not hold. *)
Lemma add_vector_new_id_counts_witness :
  reliable populated /\
  glob_match (vector_pattern store) (vector_key store "d") = true /\
  db populated !! vector_key store "d" = None /\
  exists n,
    eval (let* before := count_vectors store in
          let* added := add_vector store "d" unit_x tagged "2024-01-03T00:00:00" in
          let* after := count_vectors store in
          ret (before, added, after)) populated
    = Return (n, true, S n).
Proof.
  assert (Hnew : db populated !! vector_key store "d" = None) by (vm_compute; reflexivity).
  split; [exact populated_again_reliable |]. split; [reflexivity |]. split; [exact Hnew |].
  exact (add_vector_new_id_counts client "btagent:" "d" unit_x tagged
           "2024-01-03T00:00:00" populated populated_again_reliable eq_refl Hnew).
Defined.

(** X19 for an id that [populated] holds. *)
Lemma delete_vector_stored_id_counts_witness :
  reliable populated /\
  glob_match (vector_pattern store) (vector_key store "a") = true /\
  is_Some (db populated !! vector_key store "a") /\
  exists n,
    eval (let* before := count_vectors store in
          let* deleted := delete_vector store "a" in
          let* after := count_vectors store in
          ret (before, deleted, after)) populated
    = Return (S n, true, n).
Proof.
  assert (Hold : is_Some (db populated !! vector_key store "a"))
    by (vm_compute; eauto).
  split; [exact populated_again_reliable |]. split; [reflexivity |]. split; [exact Hold |].
  destruct Hold as [fields Hfields].
  exact (delete_vector_stored_id_counts client "btagent:" "a" fields populated
           populated_again_reliable eq_refl Hfields).
Defined.



Lemma dim_reliable : reliable dim.
Proof. vm_compute. constructor. Qed.


Lemma unit_x_round_trips : round_trips (as_jsonable unit_x).
Proof. split; [discriminate | vm_compute; reflexivity]. Qed.

Lemma tagged_again_round_trips : round_trips tagged.
Proof. split; [discriminate | vm_compute; reflexivity]. Qed.

Lemma with_colon_keys :
  db_keys (vector_pattern store) (db with_colon)
  = ["btagent:vector:c"; "btagent:vector:a"; "btagent:vector:b"; "btagent:vector:doc:1"].
Proof. vm_compute. reflexivity. Qed.

Lemma with_colon_holds :
  Forall2 (holds_record (db with_colon))
    (slice_to (db_keys (vector_pattern store) (db with_colon)) 1000) colon_records.
Proof.
  rewrite with_colon_keys.
  change (slice_to ["btagent:vector:c"; "btagent:vector:a"; "btagent:vector:b";
                    "btagent:vector:doc:1"] 1000)
    with ["btagent:vector:c"; "btagent:vector:a"; "btagent:vector:b";
          "btagent:vector:doc:1"].
  repeat (constructor; [holds_by_computation |]). constructor.
Qed.

Lemma with_colon_scored :
  Forall2 (scored (db with_colon) along_x_unit 0.5)
    (db_keys (vector_pattern store) (db with_colon)) colon_hits.
Proof.
  rewrite with_colon_keys.
  repeat (constructor; [scored_by_computation |]). constructor.
Qed.


End FurtherRuns.

(** * The publish/subscribe channel: what the mock and the listener do *)

Section ChannelFacts.

Context {ext : Externals} {World : Type}.

Implicit Types (callback first second : @Callback World) (self : @MockRedisPubSub World).

Lemma mock_subscribe_listeners self channel callback :
  mock_listeners (snd (mock_subscribe self channel callback))
  = <[channel := callback]> (mock_listeners self).
Proof. reflexivity. Qed.

Lemma mock_unsubscribe_listeners self channel :
  mock_listeners (snd (mock_unsubscribe self channel)) = delete channel (mock_listeners self).
Proof.
  unfold mock_unsubscribe.
  destruct (mock_listeners self !! channel) eqn:Hlookup; cbn [snd mock_listeners].
  - reflexivity.
  - symmetry. apply delete_id. exact Hlookup.
Qed.

Lemma mock_publish_lookup self channel message (w : World) :
  mock_publish self channel message w
  = (true, from_option (fun callback => call_logged callback (as_text message) w) w
             (mock_listeners self !! channel)).
Proof.
  unfold mock_publish. destruct (mock_listeners self !! channel); reflexivity.
Qed.

(** X22: [MockRedisPubSub] keeps one callback for a channel: after two
    [subscribe] calls for the same channel, [publish] on it runs the second
    callback only, with the message (the JSON text of it for a dictionary),
    and returns true whether the callback returns or raises. *)
Theorem mock_publish_runs_latest_callback self channel first second message (w : World) :
  let self1 := snd (mock_subscribe self channel first) in
  let self2 := snd (mock_subscribe self1 channel second) in
  mock_publish self2 channel message w = (true, snd (second (as_text message) w)) /\
  mock_listeners self2 = mock_listeners (snd (mock_subscribe self channel second)).
Proof.
  intros self1 self2. split.
  - rewrite mock_publish_lookup. unfold self2.
    rewrite mock_subscribe_listeners, lookup_insert_eq. reflexivity.
  - unfold self2, self1. rewrite !mock_subscribe_listeners.
    apply insert_insert_eq.
Qed.

(** X23: after [unsubscribe] for a channel, [publish] on it runs no
    callback and still returns true; [unsubscribe] for a channel without a
    callback changes nothing, and after a [subscribe] for a new channel it
    restores the object; [subscribe] and [unsubscribe] for one channel
    change nothing for [publish] on another channel. *)
Theorem mock_unsubscribe_stops_delivery self channel callback message (w : World) :
  mock_publish (snd (mock_unsubscribe self channel)) channel message w = (true, w) /\
  (mock_listeners self !! channel = None ->
   mock_unsubscribe self channel = (true, self) /\
   mock_unsubscribe (snd (mock_subscribe self channel callback)) channel = (true, self)) /\
  (forall other, other <> channel ->
   mock_publish (snd (mock_subscribe self channel callback)) other message w
   = mock_publish self other message w /\
   mock_publish (snd (mock_unsubscribe self channel)) other message w
   = mock_publish self other message w).
Proof.
  split; [| split].
  - rewrite mock_publish_lookup, mock_unsubscribe_listeners, lookup_delete_eq. reflexivity.
  - intros Hnew. split.
    + unfold mock_unsubscribe. rewrite Hnew. reflexivity.
    + unfold mock_unsubscribe. rewrite mock_subscribe_listeners, lookup_insert_eq.
      rewrite delete_insert_eq, delete_id by exact Hnew.
      destruct self. reflexivity.
  - intros other Hother. rewrite !mock_publish_lookup.
    rewrite mock_subscribe_listeners, mock_unsubscribe_listeners.
    rewrite lookup_insert_ne, lookup_delete_ne by congruence.
    split; reflexivity.
Qed.

(** X24: for a message on a channel with a callback, the listening thread
    of [RedisPubSub] hands the callback the value that the data decode to,
    where [MockRedisPubSub.publish] hands it the text: a dictionary that
    [json.loads] reads back from its JSON text reaches the callback as the
    dictionary on the one and as a string on the other. *)
Theorem listener_decodes_where_mock_hands_text (mock : @MockRedisPubSub World)
    (real : @RedisPubSub World) channel callback members (w : World) :
  let message := JObject members in
  let relayed :=
    {| event_type := "message"; event_channel := channel;
       event_data := json_dumps message |} in
  mock_listeners mock !! channel = Some callback ->
  listeners real !! channel = Some callback ->
  running real = true ->
  json_loads (json_dumps message) = Return message ->
  mock_publish mock channel message w
  = (true, snd (callback (JString (json_dumps message)) w)) /\
  _listen real [relayed] false w = (real, snd (callback message w)).
Proof.
  intros message relayed Hmock Hreal Hrunning Hround. split.
  - rewrite mock_publish_lookup, Hmock. reflexivity.
  - unfold _listen. rewrite andb_false_r. cbn [listen_loop]. rewrite Hrunning.
    unfold listen_step, relayed. cbn [event_type event_channel event_data].
    change (String.eqb "message" "message") with true. cbv iota.
    unfold decoded_or_text. rewrite Hround, Hreal. reflexivity.
Qed.

End ChannelFacts.

(** * The metrics counters: what the methods read and write *)

Module MetricsFacts.

Import Metrics.
#[local] Open Scope run_scope.

(** ** The monad *)

Lemma triple_ret {A : Type} (a : A) (Q : A -> Redis -> Prop) E :
  triple (Q a) (ret a) Q E.
Proof. intros s Hs. exact Hs. Qed.

Lemma triple_lift {A : Type} (o : error + A) (P : Redis -> Prop) (Q : A -> Redis -> Prop)
    (E : Redis -> Prop) :
  (forall s, P s -> match o with inr a => Q a s | inl _ => E s end) ->
  triple P (lift o) Q E.
Proof. intros H s Hs. specialize (H s Hs). unfold lift. destruct o; exact H. Qed.

Lemma triple_bind {A B : Type} (m : Run A) (k : A -> Run B) P (R : A -> Redis -> Prop)
    (Q : B -> Redis -> Prop) E :
  triple P m R E -> (forall a, triple (R a) (k a) Q E) -> triple P (bind m k) Q E.
Proof.
  intros Hm Hk s Hs. specialize (Hm s Hs). unfold bind.
  destruct (m s) as [[e|a] s1]; [exact Hm |].
  exact (Hk a s1 Hm).
Qed.

Lemma triple_try_except {A : Type} (body : Run A) (handler : error -> Run A) P
    (Q : A -> Redis -> Prop) (E' E : Redis -> Prop) :
  triple P body Q E' -> (forall e, triple E' (handler e) Q E) ->
  triple P (try_except body handler) Q E.
Proof.
  intros Hbody Hhandler s Hs. specialize (Hbody s Hs). unfold try_except.
  destruct (body s) as [[e|a] s1]; [| exact Hbody].
  exact (Hhandler e s1 Hbody).
Qed.

Lemma triple_weaken {A : Type} (m : Run A) (P P' : Redis -> Prop)
    (Q Q' : A -> Redis -> Prop) (E E' : Redis -> Prop) :
  triple P' m Q' E' ->
  (forall s, P s -> P' s) -> (forall a s, Q' a s -> Q a s) -> (forall s, E' s -> E s) ->
  triple P m Q E.
Proof.
  intros Hm HP HQ HE s Hs. specialize (Hm s (HP s Hs)).
  destruct (m s) as [[e|a] s1]; auto.
Qed.

(** ** The calls *)

(** A call from a state whose data are [d]: it fails and leaves [d], or the
    server runs the command on [d]. *)
Lemma triple_issue {A : Type} (command : Command A) (d : gmap string value) :
  triple (fun s => data s = d) (issue command)
    (fun a s' => exists d', command d = inr (a, d') /\ data s' = d')
    (fun s' => data s' = d).
Proof.
  intros s Hs. unfold issue. rewrite Hs.
  destruct (faults s) as [|[|] rest]; cbn [data]; try reflexivity;
    destruct (command d) as [e|[a d']]; cbn [data]; eauto.
Qed.

(** The same when every call succeeds. *)
Lemma triple_issue_reliable {A : Type} (command : Command A) (d : gmap string value) :
  triple (fun s => reliable s /\ data s = d) (issue command)
    (fun a s' => reliable s' /\ exists d', command d = inr (a, d') /\ data s' = d')
    (fun s' => reliable s' /\ data s' = d /\ exists e, command d = inl e).
Proof.
  intros s [Hrel Hs]. unfold issue, reliable in *. rewrite Hs.
  destruct (faults s) as [|[|] rest]; cbn [data faults tail].
  - destruct (command d) as [e|[a d']]; cbn [data faults]; eauto.
  - inversion Hrel; discriminate.
  - assert (Hrest : Forall (fun fails => fails = false) rest) by (inversion Hrel; assumption).
    destruct (command d) as [e|[a d']]; cbn [data faults]; eauto.
Qed.

(** The calls of [get_metrics] read: they leave the data as they are. *)
Lemma triple_scard key d :
  triple (fun s => data s = d) (scard key)
    (fun count s' => data s' = d /\ SCARD key d = inr (count, d))
    (fun s' => data s' = d).
Proof.
  eapply triple_weaken; [apply (triple_issue (SCARD key) d) | auto | | auto].
  intros count s' (d' & Hcommand & Hdata). cbv beta.
  assert (d' = d) as ->
    by (unfold SCARD in Hcommand; destruct (d !! key) as [[]|]; congruence).
  auto.
Qed.

Lemma triple_smembers client key d :
  triple (fun s => data s = d) (smembers client key)
    (fun categories s' =>
       data s' = d /\
       exists members, SMEMBERS key d = inr (members, d) /\
                       categories = map (answer client) members)
    (fun s' => data s' = d).
Proof.
  unfold smembers. eapply triple_bind; [apply (triple_issue (SMEMBERS key) d) |].
  intros members s (d' & Hcommand & Hdata). unfold ret.
  assert (d' = d) as ->
    by (unfold SMEMBERS in Hcommand; destruct (d !! key) as [[]|]; congruence).
  eauto.
Qed.

Lemma triple_get client key d :
  triple (fun s => data s = d) (get client key)
    (fun r s' =>
       data s' = d /\
       exists text, GET key d = inr (text, d) /\ r = option_map (answer client) text)
    (fun s' => data s' = d).
Proof.
  unfold get. eapply triple_bind; [apply (triple_issue (GET key) d) |].
  intros text s (d' & Hcommand & Hdata). unfold ret.
  assert (d' = d) as ->
    by (unfold GET in Hcommand; destruct (d !! key) as [[]|]; congruence).
  eauto.
Qed.

Lemma triple_false {A : Type} (m : Run A) (Q : A -> Redis -> Prop) E :
  triple (fun _ => False) m Q E.
Proof. intros s []. Qed.

Lemma triple_assume {A : Type} (m : Run A) (P : Redis -> Prop) (known : Prop)
    (Q : A -> Redis -> Prop) E :
  (known -> triple P m Q E) -> triple (fun s => P s /\ known) m Q E.
Proof. intros H s [Hs Hknown]. exact (H Hknown s Hs). Qed.

(** [SET] is never refused. *)
Lemma triple_set key text d :
  triple (fun s => data s = d) (set key text)
    (fun _ s' => data s' = <[key := VString text]> d)
    (fun s' => data s' = d).
Proof.
  eapply triple_weaken;
    [apply (triple_issue (SET key text) d) | auto | | auto].
  intros [] s' (d' & [= <-] & Hdata). exact Hdata.
Qed.

(** ** The integers of the server *)

Lemma int_of_text_of_int (n : Z) :
  (- 2 ^ 63 <= n < 2 ^ 63)%Z -> int_of_text (text_of_int n) = Some n.
Proof.
  intros [Hlow Hhigh]. unfold int_of_text, text_of_int.
  rewrite NilZero.isi.
  - rewrite DecimalZ.of_to, String.eqb_refl.
    destruct (Z.leb_spec (- 2 ^ 63) n); [| lia].
    destruct (Z.ltb_spec n (2 ^ 63)); [| lia]. reflexivity.
  - destruct n; simpl; [discriminate | |discriminate].
    intros [= Hnil]. exact (Unsigned.to_uint_nonnil _ Hnil).
  - destruct n; simpl; [discriminate | discriminate |].
    intros [= Hnil]. exact (Unsigned.to_uint_nonnil _ Hnil).
Qed.

Lemma int_of_text_range text n :
  int_of_text text = Some n -> (- 2 ^ 63 <= n < 2 ^ 63)%Z.
Proof.
  unfold int_of_text. destruct (NilZero.int_of_string text) as [i|]; [| discriminate].
  cbv zeta.
  destruct (String.eqb _ _); [| discriminate].
  destruct (Z.leb_spec (- 2 ^ 63) (Z.of_int i)); [| discriminate].
  destruct (Z.ltb_spec (Z.of_int i) (2 ^ 63)); [| discriminate].
  intros [= <-]. lia.
Qed.

Lemma counter_at_range key d n :
  counter_at key d = Some n -> (- 2 ^ 63 <= n < 2 ^ 63)%Z.
Proof.
  unfold counter_at. destruct (d !! key) as [[text| | |]|]; try discriminate.
  - apply int_of_text_range.
  - intros [= <-]. lia.
Qed.

(** [INCR] on a counter that is not at its largest value. *)
Lemma INCR_counter key d n :
  counter_at key d = Some n -> (n + 1 < 2 ^ 63)%Z ->
  INCR key d = inr ((n + 1)%Z, <[key := VString (text_of_int (n + 1))]> d).
Proof.
  intros Hcounter Hroom. unfold counter_at in Hcounter. unfold INCR.
  destruct (d !! key) as [[text| | |]|]; try discriminate.
  - rewrite Hcounter. destruct (Z.ltb_spec (n + 1) (2 ^ 63)); [reflexivity | lia].
  - injection Hcounter as <-. reflexivity.
Qed.

(** [INCR] on a key that holds no integer. *)
Lemma INCR_refused key d :
  counter_at key d = None -> INCR key d = inl ResponseError.
Proof.
  unfold counter_at, INCR. destruct (d !! key) as [[text| | |]|]; try discriminate;
    try reflexivity.
  intros ->. reflexivity.
Qed.

Lemma counter_at_written key d n :
  (- 2 ^ 63 <= n < 2 ^ 63)%Z ->
  counter_at key (<[key := VString (text_of_int n)]> d) = Some n.
Proof.
  intros Hrange. unfold counter_at. rewrite lookup_insert_eq.
  apply int_of_text_of_int, Hrange.
Qed.

Lemma counter_at_other key other v d :
  other <> key -> counter_at key (<[other := v]> d) = counter_at key d.
Proof. intros Hother. unfold counter_at. rewrite lookup_insert_ne by exact Hother. reflexivity. Qed.

(** ** The lists of the server *)

Lemma trim_first_100 items : trim items 0 99 = take 100 items.
Proof.
  unfold trim. cbn [Z.ltb Z.compare].
  destruct items as [|item rest]; [reflexivity |].
  change (99 <? 0)%Z with false. change (0 <? 0)%Z with false. cbv iota.
  destruct (Z.leb_spec (Z.of_nat (length (item :: rest))) 0) as [Hempty|_];
    [simpl in Hempty; lia |].
  rewrite orb_false_r. cbn [orb Z.ltb Z.compare]. rewrite drop_0.
  destruct (Z.leb_spec (Z.of_nat (length (item :: rest))) 99) as [Hshort|Hlong].
  - rewrite !take_ge; [reflexivity | lia | lia].
  - reflexivity.
Qed.

Lemma LPUSH_list key item d old :
  list_at key d = Some old ->
  LPUSH key item d
  = inr (Z.of_nat (S (length old)), <[key := VList (item :: old)]> d).
Proof.
  unfold list_at, LPUSH. destruct (d !! key) as [[| |items|]|]; try discriminate.
  - intros [= <-]. reflexivity.
  - intros [= <-]. reflexivity.
Qed.

Lemma LPUSH_refused key item d :
  list_at key d = None -> LPUSH key item d = inl ResponseError.
Proof.
  unfold list_at, LPUSH. destruct (d !! key) as [[| |items|]|]; try discriminate;
    reflexivity.
Qed.

Lemma LTRIM_pushed key item old d :
  LTRIM key 0 99 (<[key := VList (item :: old)]> d)
  = inr (tt, <[key := VList (take 100 (item :: old))]> d).
Proof.
  unfold LTRIM. rewrite lookup_insert_eq, trim_first_100.
  cbn [take]. rewrite insert_insert_eq. reflexivity.
Qed.

(** A call that succeeds. *)
Lemma issue_succeeds {A : Type} (command : Command A) (s : Redis) a d :
  reliable s -> command (data s) = inr (a, d) ->
  exists s', issue command s = (inr a, s') /\ reliable s' /\ data s' = d.
Proof.
  intros Hrel Hcommand.
  pose proof (triple_issue_reliable command (data s) s (conj Hrel eq_refl)) as Hcall.
  destruct (issue command s) as [[e|a'] s'].
  - destruct Hcall as (_ & _ & e' & He'). congruence.
  - destruct Hcall as (Hrel' & d' & Hd' & Hdata). exists s'.
    assert (a' = a /\ d' = d) as [-> ->] by (split; congruence). auto.
Qed.

(** A call that the server refuses. *)
Lemma issue_refused {A : Type} (command : Command A) (s : Redis) e :
  reliable s -> command (data s) = inl e ->
  exists s', issue command s = (inl e, s') /\ reliable s' /\ data s' = data s.
Proof.
  intros Hrel Hcommand. unfold issue. rewrite Hcommand.
  unfold reliable in *.
  destruct (faults s) as [|[|] rest]; cbn [tail].
  - eexists. split; [reflexivity |]. cbn [faults data]. auto.
  - inversion Hrel; discriminate.
  - eexists. split; [reflexivity |]. cbn [faults data]. split; [| reflexivity].
    inversion Hrel; assumption.
Qed.

(** A call that succeeds before a call that fails. *)
Lemma issue_then_fault {A : Type} (command : Command A) (s : Redis) a d rest :
  faults s = false :: true :: rest -> command (data s) = inr (a, d) ->
  issue command s = (inr a, {| data := d; faults := true :: rest |}).
Proof. intros Hfaults Hcommand. unfold issue. rewrite Hfaults, Hcommand. reflexivity. Qed.

Lemma issue_fault {A : Type} (command : Command A) (s : Redis) rest :
  faults s = true :: rest ->
  issue command s = (inl ConnectionError, {| data := data s; faults := rest |}).
Proof. intros Hfaults. unfold issue. rewrite Hfaults. reflexivity. Qed.

Lemma bind_ok {A B : Type} (m : Run A) (k : A -> Run B) s a s' :
  m s = (inr a, s') -> bind m k s = k a s'.
Proof. intros Hm. unfold bind. rewrite Hm. reflexivity. Qed.

Lemma bind_failed {A B : Type} (m : Run A) (k : A -> Run B) s e s' :
  m s = (inl e, s') -> bind m k s = (inl e, s').
Proof. intros Hm. unfold bind. rewrite Hm. reflexivity. Qed.

Section Reads.

Context {ext : Externals} {py : Builtins}.

Lemma count_categories_reads self categories d :
  forall counts,
    triple (fun s => data s = d) (count_categories self categories counts)
      (fun _ s' => data s' = d) (fun s' => data s' = d).
Proof.
  induction categories as [|category rest IH]; intros counts; cbn [count_categories].
  - intros s Hs. exact Hs.
  - eapply triple_bind; [apply triple_scard |].
    intros count. eapply triple_weaken; [apply IH | | auto | auto].
    intros s [Hs _]. exact Hs.
Qed.

(** The body of [get_metrics] leaves the data as they are, whether it
    returns or raises. *)
Ltac read_call lemma :=
  eapply triple_bind;
  [ eapply triple_weaken;
    [ apply lemma
    | intros ? Hkept; exact Hkept
    | intros ? ? [Hkept _]; exact Hkept
    | first [intros ? Hkept; exact Hkept | intros; exact I] ] |];
  intros ?.

Ltac read_value :=
  eapply triple_bind;
  [ cbv beta;
    lazymatch goal with
    | |- triple (fun s' => data s' = ?d) _ _ _ =>
        apply triple_lift with (Q := fun _ s' => data s' = d)
    end;
    intros ? Hkept; repeat case_match; first [exact Hkept | exact I] |];
  intros ?.

(** X25: [get_metrics] always returns a dictionary and never changes the
    data of the server; when its first call fails it returns the very
    dictionary that [MockRealtimeMetrics.get_metrics] returns. *)
Theorem get_metrics_never_writes self now later s :
  exists report,
    eval (get_metrics self now later) s = inr report /\
    data (exec (get_metrics self now later) s) = data s /\
    (forall rest, faults s = true :: rest -> report = mock_get_metrics now later).
Proof.
  assert (Hreads : triple (fun s' => data s' = data s) (get_metrics self now later)
                     (fun _ s' => data s' = data s) (fun _ => False)).
  { unfold get_metrics. eapply triple_try_except with (E' := fun s' => data s' = data s).
    - read_call triple_scard. read_call triple_smembers.
      eapply triple_bind; [apply count_categories_reads |]. intros ?.
      read_call triple_get. read_value.
      read_call triple_get.
      read_call triple_get. read_value.
      read_call triple_get. read_value.
      intros s' Hkept. exact Hkept.
    - intros e s' Hkept. exact Hkept. }
  specialize (Hreads s eq_refl). unfold eval, exec.
  destruct (get_metrics self now later s) as [[e|report] s'] eqn:Hrun; [contradiction |].
  exists report. split; [reflexivity |]. split; [exact Hreads |].
  intros rest Hfaults.
  cbv [get_metrics try_except bind scard issue] in Hrun. rewrite Hfaults in Hrun.
  unfold ret in Hrun. injection Hrun as <- _. reflexivity.
Qed.

Lemma list_at_written key items d : list_at key (<[key := VList items]> d) = Some items.
Proof. unfold list_at. rewrite lookup_insert_eq. reflexivity. Qed.

Lemma list_at_other key other v d :
  other <> key -> list_at key (<[other := v]> d) = list_at key d.
Proof. intros Hother. unfold list_at. rewrite lookup_insert_ne by exact Hother. reflexivity. Qed.

(** Two keys of one prefix differ when their names differ. *)
Lemma key_neq (p a b : string) : a <> b -> p +:+ a <> p +:+ b.
Proof. intros Hne Heq. exact (Hne (append_inj_r p a b Heq)). Qed.

(** What a successful [update_scraper_status] leaves on the server. *)
Lemma update_scraper_status_writes self status progress now s :
  eval (update_scraper_status self status progress now) s = inr true ->
  data (exec (update_scraper_status self status progress now) s)
  = <[prefix self +:+ "scraper_last_update" := VString (isoformat now)]>
      (<[prefix self +:+ "scraper_progress" := VString (py_repr progress)]>
         (<[prefix self +:+ "scraper_status" := VString status]> (data s))).
Proof.
  set (written := <[prefix self +:+ "scraper_last_update" := VString (isoformat now)]> _).
  assert (Hwrites : triple (fun s' => data s' = data s)
                      (update_scraper_status self status progress now)
                      (fun done s' => done = true -> data s' = written) (fun _ => False)).
  { unfold update_scraper_status.
    eapply triple_try_except with (E' := fun _ => True).
    - eapply triple_bind;
        [eapply triple_weaken;
           [apply triple_set | intros ? Hkept; exact Hkept | intros ? ? Hset; exact Hset
           | intros; exact I] |]. intros ?.
      eapply triple_bind;
        [eapply triple_weaken;
           [apply triple_set | intros ? Hkept; exact Hkept | intros ? ? Hset; exact Hset
           | intros; exact I] |]. intros ?.
      eapply triple_bind;
        [eapply triple_weaken;
           [apply triple_set | intros ? Hkept; exact Hkept | intros ? ? Hset; exact Hset
           | intros; exact I] |]. intros ?.
      intros s' Hset _. exact Hset.
    - intros e s' _. unfold ret. discriminate. }
  specialize (Hwrites s eq_refl). unfold eval, exec. intros Hdone.
  destruct (update_scraper_status self status progress now s) as [[e|done] s'];
    [contradiction |].
  cbn [fst] in Hdone. injection Hdone as ->. exact (Hwrites eq_refl).
Qed.

(** With a client that decodes responses, a text under the key of the last
    update makes [get_metrics] fall back. *)
Lemma get_metrics_decoded_falls_back self now later text s :
  decode_responses (redis_client self) = true ->
  data s !! (prefix self +:+ "scraper_last_update") = Some (VString text) ->
  text <> "" ->
  eval (get_metrics self now later) s = inr (_get_mock_metrics now later).
Proof.
  intros Hdecode Hkey Htext.
  assert (Hfalls : triple (fun s' => data s' = data s) (get_metrics self now later)
                     (fun report _ => report = _get_mock_metrics now later)
                     (fun _ => False)).
  { unfold get_metrics. eapply triple_try_except with (E' := fun _ => True).
    - read_call triple_scard. read_call triple_smembers.
      eapply triple_bind;
        [eapply triple_weaken;
           [apply count_categories_reads | intros ? Hkept; exact Hkept
           | intros ? ? Hkept; exact Hkept | intros; exact I] |]. intros ?.
      read_call triple_get. read_value.
      read_call triple_get.
      read_call triple_get. read_value.
      eapply triple_bind;
        [eapply triple_weaken;
           [apply (triple_get (redis_client self) _ (data s))
           | intros ? Hkept; exact Hkept | intros ? ? Hgot; exact Hgot | intros; exact I] |].
      intros r. cbv beta. apply triple_assume. intros (found & Hget & ->).
      unfold GET in Hget. rewrite Hkey in Hget. injection Hget as <-.
      eapply triple_bind with (R := fun _ _ => False); [| intros; apply triple_false].
      apply triple_lift. intros s' _. cbn [option_map]. unfold answer. rewrite Hdecode.
      unfold truthy. cbn [text_of].
      destruct (String.eqb_spec text ""); [contradiction |]. exact I.
    - intros e s' _. reflexivity. }
  specialize (Hfalls s eq_refl). unfold eval.
  destruct (get_metrics self now later s) as [[e|report] s']; [contradiction |].
  cbn [fst]. rewrite Hfalls. reflexivity.
Qed.

(** X26: with a client that decodes responses, [get_metrics] reports the
    scraper as idle whatever the server holds, and after an
    [update_scraper_status] that returned true it returns the mock metrics:
    the text of the last update is a [str], which has no [decode]. *)
Theorem decoded_client_loses_scraper_state self status progress now now' later s :
  decode_responses (redis_client self) = true ->
  (exists report,
     eval (get_metrics self now' later) s = inr report /\
     scraper_status report = "idle") /\
  (isoformat now <> "" ->
   eval (update_scraper_status self status progress now) s = inr true ->
   eval (get_metrics self now' later)
     (exec (update_scraper_status self status progress now) s)
   = inr (_get_mock_metrics now' later)).
Proof.
  intros Hdecode. split.
  - assert (Hidle : triple (fun s' => data s' = data s) (get_metrics self now' later)
                      (fun report _ => scraper_status report = "idle") (fun _ => False)).
    { unfold get_metrics. eapply triple_try_except with (E' := fun _ => True).
      - read_call triple_scard. read_call triple_smembers.
        eapply triple_bind;
          [eapply triple_weaken;
             [apply count_categories_reads | intros ? Hkept; exact Hkept
             | intros ? ? Hkept; exact Hkept | intros; exact I] |]. intros ?.
        read_call triple_get. read_value.
        eapply triple_bind;
          [eapply triple_weaken;
             [apply (triple_get (redis_client self) _ (data s))
             | intros ? Hkept; exact Hkept | intros ? ? Hgot; exact Hgot | intros; exact I] |].
        intros r. cbv beta. apply triple_assume. intros (found & _ & ->).
        read_call triple_get. read_value.
        read_call triple_get. read_value.
        intros s' _. cbn [scraper_status]. unfold answer. rewrite Hdecode.
        destruct found; reflexivity.
      - intros e s' _. reflexivity. }
    specialize (Hidle s eq_refl). unfold eval.
    destruct (get_metrics self now' later s) as [[e|report] s']; [contradiction |].
    exists report. split; [reflexivity | exact Hidle].
  - intros Hnow Hdone.
    apply (get_metrics_decoded_falls_back self now' later (isoformat now)); [exact Hdecode | | exact Hnow].
    rewrite (update_scraper_status_writes _ _ _ _ _ Hdone). apply lookup_insert_eq.
Qed.

(** X27: with a client that does not decode responses, the metrics that
    [get_metrics] returns after an [update_scraper_status] that returned
    true are the mock metrics or carry what was written: the status as it
    was given, the progress as [float] reads its [repr], and the time of
    the update as [fromisoformat] reads its ISO text. *)
Theorem get_metrics_reports_written_status self status progress now now' later s report :
  let s' := exec (update_scraper_status self status progress now) s in
  decode_responses (redis_client self) = false ->
  eval (update_scraper_status self status progress now) s = inr true ->
  eval (get_metrics self now' later) s' = inr report ->
  report = _get_mock_metrics now' later \/
  (scraper_status report = status /\
   (py_repr progress <> "" -> py_float (py_repr progress) = inr (scraper_progress report)) /\
   (isoformat now <> "" ->
    exists d, fromisoformat (isoformat now) = inr d /\ scraper_last_update report = Some d)).
Proof.
  intros s' Hbytes Hdone Hreport.
  pose proof (update_scraper_status_writes _ _ _ _ _ Hdone) as Hwritten.
  fold s' in Hwritten.
  set (written := <[prefix self +:+ "scraper_last_update" := _]> _) in Hwritten.
  assert (Hstatus : written !! (prefix self +:+ "scraper_status") = Some (VString status)).
  { unfold written.
    rewrite !lookup_insert_ne by (apply key_neq; discriminate). apply lookup_insert_eq. }
  assert (Hprogress : written !! (prefix self +:+ "scraper_progress")
                      = Some (VString (py_repr progress))).
  { unfold written.
    rewrite lookup_insert_ne by (apply key_neq; discriminate). apply lookup_insert_eq. }
  assert (Hlast : written !! (prefix self +:+ "scraper_last_update")
                  = Some (VString (isoformat now))) by apply lookup_insert_eq.
  clearbody written.
  set (carries := fun r : Report =>
         scraper_status r = status /\
         (py_repr progress <> "" -> py_float (py_repr progress) = inr (scraper_progress r)) /\
         (isoformat now <> "" ->
          exists d, fromisoformat (isoformat now) = inr d /\ scraper_last_update r = Some d)).
  assert (Hreads : triple (fun s0 => data s0 = written) (get_metrics self now' later)
                     (fun r _ => r = _get_mock_metrics now' later \/ carries r)
                     (fun _ => False)).
  { unfold get_metrics. eapply triple_try_except with (E' := fun _ => True).
    - read_call triple_scard. read_call triple_smembers.
      eapply triple_bind;
        [eapply triple_weaken;
           [apply count_categories_reads | intros ? Hkept; exact Hkept
           | intros ? ? Hkept; exact Hkept | intros; exact I] |]. intros ?.
      read_call triple_get. read_value.
      eapply triple_bind;
        [eapply triple_weaken;
           [apply (triple_get (redis_client self) _ written)
           | intros ? Hkept; exact Hkept | intros ? ? Hgot; exact Hgot | intros; exact I] |].
      intros r1. cbv beta. apply triple_assume. intros (found1 & Hget1 & ->).
      unfold GET in Hget1. rewrite Hstatus in Hget1. injection Hget1 as <-.
      eapply triple_bind;
        [eapply triple_weaken;
           [apply (triple_get (redis_client self) _ written)
           | intros ? Hkept; exact Hkept | intros ? ? Hgot; exact Hgot | intros; exact I] |].
      intros r2. cbv beta. apply triple_assume. intros (found2 & Hget2 & ->).
      unfold GET in Hget2. rewrite Hprogress in Hget2. injection Hget2 as <-.
      eapply triple_bind with
        (R := fun x s0 => data s0 = written /\
                (py_repr progress <> "" -> py_float (py_repr progress) = inr x)).
      { apply triple_lift. intros s0 Hkept. cbn [option_map from_option]. unfold answer.
        rewrite Hbytes. unfold truthy. cbn [text_of].
        destruct (String.eqb_spec (py_repr progress) ""); cbn [negb].
        - split; [exact Hkept | contradiction].
        - destruct (py_float (py_repr progress)); [exact I | split; [exact Hkept | reflexivity]]. }
      intros x. apply triple_assume. intros Hx.
      eapply triple_bind;
        [eapply triple_weaken;
           [apply (triple_get (redis_client self) _ written)
           | intros ? Hkept; exact Hkept | intros ? ? Hgot; exact Hgot | intros; exact I] |].
      intros r3. cbv beta. apply triple_assume. intros (found3 & Hget3 & ->).
      unfold GET in Hget3. rewrite Hlast in Hget3. injection Hget3 as <-.
      eapply triple_bind with
        (R := fun u s0 => data s0 = written /\
                (isoformat now <> "" ->
                 exists d, fromisoformat (isoformat now) = inr d /\ u = Some d)).
      { apply triple_lift. intros s0 Hkept. cbn [option_map from_option]. unfold answer.
        rewrite Hbytes. unfold truthy. cbn [text_of].
        destruct (String.eqb_spec (isoformat now) ""); cbn [negb].
        - split; [exact Hkept | contradiction].
        - destruct (fromisoformat (isoformat now)) as [e|d]; [exact I |].
          split; [exact Hkept |]. intros _. exists d. split; reflexivity. }
      intros u. apply triple_assume. intros Hu.
      intros s0 _. right. unfold carries.
      cbn [scraper_status scraper_progress scraper_last_update option_map].
      unfold answer. rewrite Hbytes. auto.
    - intros e s0 _. left. reflexivity. }
  specialize (Hreads s' Hwritten). unfold eval in Hreport.
  destruct (get_metrics self now' later s') as [[e|r] s0]; [contradiction |].
  cbn [fst] in Hreport. injection Hreport as <-. exact Hreads.
Qed.

(** The first call of [update_search_stats] and of [update_agent_stats]:
    the counter goes up by one. *)
Lemma incr_reliable key s n :
  reliable s -> counter_at key (data s) = Some n -> (n + 1 < 2 ^ 63)%Z ->
  exists s1,
    incr key s = (inr (n + 1)%Z, s1) /\ reliable s1 /\
    data s1 = <[key := VString (text_of_int (n + 1))]> (data s).
Proof.
  intros Hrel Hcounter Hroom.
  exact (issue_succeeds (INCR key) s _ _ Hrel (INCR_counter key (data s) n Hcounter Hroom)).
Qed.

Lemma counter_at_incremented key d n :
  counter_at key d = Some n -> (n + 1 < 2 ^ 63)%Z ->
  counter_at key (<[key := VString (text_of_int (n + 1))]> d) = Some (n + 1)%Z.
Proof.
  intros Hcounter Hroom. apply counter_at_written.
  pose proof (counter_at_range key d n Hcounter). lia.
Qed.

(** X28: when the calls succeed, the counter of the searches is below the
    largest 64-bit integer and the key of the history holds a list or
    nothing, [update_search_stats] returns true, raises the counter by one
    and leaves as history the new entry followed by the earlier ones, cut
    to the first hundred. *)
Theorem update_search_stats_keeps_last_100 self query now n earlier s :
  let count_key := prefix self +:+ "search_count" in
  let history_key := prefix self +:+ "search_history" in
  let entry :=
    json_dumps (JObject [("query", query); ("timestamp", JString (isoformat now))]) in
  let s' := exec (update_search_stats self query now) s in
  reliable s ->
  counter_at count_key (data s) = Some n -> (n + 1 < 2 ^ 63)%Z ->
  list_at history_key (data s) = Some earlier ->
  eval (update_search_stats self query now) s = inr true /\
  counter_at count_key (data s') = Some (n + 1)%Z /\
  list_at history_key (data s') = Some (take 100 (entry :: earlier)) /\
  length (take 100 (entry :: earlier)) <= 100.
Proof.
  intros count_key history_key entry s' Hrel Hcounter Hroom Hlist.
  assert (Hkeys : count_key <> history_key) by (apply key_neq; discriminate).
  destruct (incr_reliable count_key s n Hrel Hcounter Hroom) as (s1 & Hincr & Hrel1 & Hdata1).
  assert (Hlist1 : list_at history_key (data s1) = Some earlier)
    by (rewrite Hdata1, list_at_other by exact Hkeys; exact Hlist).
  destruct (issue_succeeds (LPUSH history_key entry) s1 _ _ Hrel1
              (LPUSH_list history_key entry (data s1) earlier Hlist1))
    as (s2 & Hpush & Hrel2 & Hdata2).
  destruct (issue_succeeds (LTRIM history_key 0 99) s2 tt
              (<[history_key := VList (take 100 (entry :: earlier))]> (data s1)) Hrel2)
    as (s3 & Htrim & Hrel3 & Hdata3);
    [rewrite Hdata2; apply LTRIM_pushed |].
  assert (Hrun : update_search_stats self query now s = (inr true, s3)).
  { unfold update_search_stats, try_except. fold count_key history_key entry.
    rewrite (bind_ok _ _ _ _ _ Hincr). unfold lpush. rewrite (bind_ok _ _ _ _ _ Hpush).
    unfold ltrim. rewrite (bind_ok _ _ _ _ _ Htrim). reflexivity. }
  unfold s', eval, exec. rewrite Hrun. cbn [fst snd]. rewrite Hdata3, Hdata1.
  split; [reflexivity |]. split; [| split].
  - rewrite counter_at_other by congruence.
    apply counter_at_incremented; assumption.
  - apply list_at_written.
  - rewrite length_take. lia.
Qed.

(** X29: [update_search_stats] is not atomic: when the key of the history
    holds a value that is no list, or when the call after [incr] fails, the
    method returns false and the counter of the searches is raised all the
    same, while the key of the history holds what it held. *)
Theorem update_search_stats_counts_before_failing self query now n s :
  let count_key := prefix self +:+ "search_count" in
  let history_key := prefix self +:+ "search_history" in
  let s' := exec (update_search_stats self query now) s in
  counter_at count_key (data s) = Some n -> (n + 1 < 2 ^ 63)%Z ->
  (reliable s /\ list_at history_key (data s) = None) \/
  (exists rest, faults s = false :: true :: rest) ->
  eval (update_search_stats self query now) s = inr false /\
  counter_at count_key (data s') = Some (n + 1)%Z /\
  data s' !! history_key = data s !! history_key.
Proof.
  intros count_key history_key s' Hcounter Hroom Hcase.
  assert (Hkeys : count_key <> history_key) by (apply key_neq; discriminate).
  set (entry := json_dumps (JObject [("query", query); ("timestamp", JString (isoformat now))])).
  assert (Hrun : exists s1,
             update_search_stats self query now s = (inr false, s1) /\
             data s1 = <[count_key := VString (text_of_int (n + 1))]> (data s)).
  { destruct Hcase as [[Hrel Hlist] | [rest Hfaults]].
    - destruct (incr_reliable count_key s n Hrel Hcounter Hroom)
        as (s1 & Hincr & Hrel1 & Hdata1).
      assert (Hlist1 : list_at history_key (data s1) = None)
        by (rewrite Hdata1, list_at_other by exact Hkeys; exact Hlist).
      destruct (issue_refused (LPUSH history_key entry) s1 _ Hrel1
                  (LPUSH_refused history_key entry (data s1) Hlist1))
        as (s2 & Hpush & _ & Hdata2).
      exists s2. split; [| congruence].
      unfold update_search_stats, try_except. fold count_key history_key entry.
      rewrite (bind_ok _ _ _ _ _ Hincr). unfold lpush.
      rewrite (bind_failed _ _ _ _ _ Hpush). reflexivity.
    - pose proof (issue_then_fault (INCR count_key) s _ _ rest Hfaults
                    (INCR_counter count_key (data s) n Hcounter Hroom)) as Hincr.
      eexists. split.
      + unfold update_search_stats, try_except. fold count_key history_key entry.
        unfold incr. rewrite (bind_ok _ _ _ _ _ Hincr). unfold lpush.
        erewrite bind_failed; [reflexivity | apply issue_fault; reflexivity].
      + reflexivity. }
  destruct Hrun as (s1 & Hrun & Hdata1).
  unfold s', eval, exec. rewrite Hrun. cbn [fst snd]. rewrite Hdata1.
  split; [reflexivity |]. split.
  - apply counter_at_incremented; assumption.
  - apply lookup_insert_ne. exact Hkeys.
Qed.

(** X30: when the calls succeed and both counters are below the largest
    64-bit integer, [update_agent_stats] returns true and raises the counter
    of the conversations and the counter of the messages by one each; when
    its second call fails it returns false and the counter of the
    conversations is raised all the same. *)
Theorem update_agent_stats_counts self n m s :
  let conversations := prefix self +:+ "conversation_count" in
  let messages := prefix self +:+ "message_count" in
  let s' := exec (update_agent_stats self) s in
  counter_at conversations (data s) = Some n -> (n + 1 < 2 ^ 63)%Z ->
  counter_at messages (data s) = Some m ->
  (reliable s -> (m + 1 < 2 ^ 63)%Z ->
   eval (update_agent_stats self) s = inr true /\
   counter_at conversations (data s') = Some (n + 1)%Z /\
   counter_at messages (data s') = Some (m + 1)%Z) /\
  (forall rest, faults s = false :: true :: rest ->
   eval (update_agent_stats self) s = inr false /\
   counter_at conversations (data s') = Some (n + 1)%Z /\
   counter_at messages (data s') = Some m).
Proof.
  intros conversations messages s' Hn Hroom Hm.
  assert (Hkeys : conversations <> messages) by (apply key_neq; discriminate).
  split.
  - intros Hrel Hroom'.
    destruct (incr_reliable conversations s n Hrel Hn Hroom) as (s1 & Hfirst & Hrel1 & Hdata1).
    assert (Hm1 : counter_at messages (data s1) = Some m)
      by (rewrite Hdata1, counter_at_other by exact Hkeys; exact Hm).
    destruct (incr_reliable messages s1 m Hrel1 Hm1 Hroom') as (s2 & Hsecond & _ & Hdata2).
    assert (Hrun : update_agent_stats self s = (inr true, s2)).
    { unfold update_agent_stats, try_except. fold conversations messages.
      rewrite (bind_ok _ _ _ _ _ Hfirst), (bind_ok _ _ _ _ _ Hsecond). reflexivity. }
    unfold s', eval, exec. rewrite Hrun. cbn [fst snd]. rewrite Hdata2, Hdata1.
    split; [reflexivity |]. split.
    + rewrite counter_at_other by congruence. apply counter_at_incremented; assumption.
    + apply counter_at_incremented; [| exact Hroom'].
      rewrite counter_at_other by exact Hkeys. exact Hm.
  - intros rest Hfaults.
    pose proof (issue_then_fault (INCR conversations) s _ _ rest Hfaults
                  (INCR_counter conversations (data s) n Hn Hroom)) as Hfirst.
    assert (Hrun : update_agent_stats self s
                   = (inr false,
                      {| data := <[conversations := VString (text_of_int (n + 1))]> (data s);
                         faults := rest |})).
    { unfold update_agent_stats, try_except. fold conversations messages.
      unfold incr. rewrite (bind_ok _ _ _ _ _ Hfirst).
      erewrite bind_failed; [reflexivity | apply issue_fault; reflexivity]. }
    unfold s', eval, exec. rewrite Hrun. cbn [fst snd data].
    split; [reflexivity |]. split.
    + apply counter_at_incremented; assumption.
    + rewrite counter_at_other by exact Hkeys. exact Hm.
Qed.

End Reads.

End MetricsFacts.

(** * Closed runs of the channel and of the metrics *)

Module ChannelRuns.

#[local] Existing Instance plain_json.

(** X23 on a mock without callbacks. *)
Lemma mock_unsubscribe_stops_delivery_witness :
  mock_listeners (@mock_init (list json)) !! "alerts" = None /\
  "prices" <> "alerts" /\
  mock_publish (snd (mock_unsubscribe alerts_mock "alerts")) "alerts" (JString "t") []
  = (true, []) /\
  mock_unsubscribe (snd (mock_subscribe mock_init "alerts" remember)) "alerts"
  = (true, mock_init) /\
  mock_publish (snd (mock_subscribe mock_init "alerts" remember)) "prices" (JString "t") []
  = mock_publish mock_init "prices" (JString "t") [].
Proof.
  assert (Hnew : mock_listeners (@mock_init (list json)) !! "alerts" = None) by reflexivity.
  assert (Hother : "prices" <> "alerts") by discriminate.
  split; [exact Hnew |]. split; [exact Hother |]. split.
  - exact (proj1 (mock_unsubscribe_stops_delivery alerts_mock "alerts" remember
                    (JString "t") [])).
  - pose proof (mock_unsubscribe_stops_delivery mock_init "alerts" remember (JString "t") [])
      as (_ & Hrestores & Hothers).
    split; [exact (proj2 (Hrestores Hnew)) | exact (proj1 (Hothers "prices" Hother))].
Defined.

(** X24 for a dictionary with one member. *)
Lemma listener_decodes_where_mock_hands_text_witness :
  mock_listeners alerts_mock !! "alerts" = Some remember /\
  listeners alerts_listener !! "alerts" = Some remember /\
  running alerts_listener = true /\
  json_loads (json_dumps (JObject truck_members)) = Return (JObject truck_members) /\
  mock_publish alerts_mock "alerts" (JObject truck_members) []
  = (true, [JString (json_dumps (JObject truck_members))]) /\
  _listen alerts_listener
    [{| event_type := "message"; event_channel := "alerts";
        event_data := json_dumps (JObject truck_members) |}] false []
  = (alerts_listener, [JObject truck_members]).
Proof.
  assert (Hmock : mock_listeners alerts_mock !! "alerts" = Some remember) by reflexivity.
  assert (Hreal : listeners alerts_listener !! "alerts" = Some remember) by reflexivity.
  assert (Hround : json_loads (json_dumps (JObject truck_members))
                   = Return (JObject truck_members)) by (vm_compute; reflexivity).
  split; [exact Hmock |]. split; [exact Hreal |]. split; [reflexivity |].
  split; [exact Hround |].
  exact (listener_decodes_where_mock_hands_text alerts_mock alerts_listener "alerts"
           remember truck_members [] Hmock Hreal eq_refl Hround).
Defined.

(** A callback that raises: [publish] returns true and what the callback
    did stays done. *)
Example mock_publish_swallows_the_error :
  mock_publish (snd (mock_subscribe mock_init "alerts" refuse)) "alerts" (JString "t") []
  = (true, [JString "t"]).
Proof. reflexivity. Qed.

End ChannelRuns.

Module MetricsRuns.

Import Metrics MetricsFacts.
#[local] Existing Instance plain_json.
#[local] Existing Instance plain_builtins.

Lemma blank_reliable : reliable blank.
Proof. constructor. Qed.

Lemma searched_reliable : reliable searched.
Proof. constructor. Qed.

Lemma clashing_reliable : reliable clashing.
Proof. constructor. Qed.

(** X26 for a client that decodes responses, on a server that holds
    nothing. *)
Lemma decoded_client_loses_scraper_state_witness :
  decode_responses (redis_client (init decoding)) = true /\
  isoformat "2024-01-03T00:00:00" <> "" /\
  eval (update_scraper_status (init decoding) "running" 0.5 "2024-01-03T00:00:00") blank
  = inr true /\
  eval (get_metrics (init decoding) "2024-01-03T00:00:01" "2024-01-03T00:00:02")
    (exec (update_scraper_status (init decoding) "running" 0.5 "2024-01-03T00:00:00") blank)
  = inr (_get_mock_metrics "2024-01-03T00:00:01" "2024-01-03T00:00:02").
Proof.
  assert (Hnow : isoformat "2024-01-03T00:00:00" <> "") by discriminate.
  assert (Hdone : eval (update_scraper_status (init decoding) "running" 0.5
                          "2024-01-03T00:00:00") blank = inr true)
    by (vm_compute; reflexivity).
  split; [reflexivity |]. split; [exact Hnow |]. split; [exact Hdone |].
  exact (proj2 (decoded_client_loses_scraper_state (init decoding) "running" 0.5%float
                  "2024-01-03T00:00:00" "2024-01-03T00:00:01" "2024-01-03T00:00:02"
                  blank eq_refl) Hnow Hdone).
Defined.

(** X27 for a client that does not decode, on a server that holds nothing. *)
Lemma get_metrics_reports_written_status_witness :
  decode_responses (redis_client (init client)) = false /\
  eval (update_scraper_status (init client) "running" 0.5 "2024-01-03T00:00:00") blank
  = inr true /\
  eval (get_metrics (init client) "2024-01-03T00:00:01" "2024-01-03T00:00:02")
    (exec (update_scraper_status (init client) "running" 0.5 "2024-01-03T00:00:00") blank)
  = inr after_update /\
  (after_update = _get_mock_metrics "2024-01-03T00:00:01" "2024-01-03T00:00:02" \/
   (scraper_status after_update = "running" /\
    (py_repr 0.5 <> "" -> py_float (py_repr 0.5) = inr (scraper_progress after_update)) /\
    (isoformat "2024-01-03T00:00:00" <> "" ->
     exists d, fromisoformat (isoformat "2024-01-03T00:00:00") = inr d /\
               scraper_last_update after_update = Some d))).
Proof.
  assert (Hdone : eval (update_scraper_status (init client) "running" 0.5
                          "2024-01-03T00:00:00") blank = inr true)
    by (vm_compute; reflexivity).
  assert (Hreport :
            eval (get_metrics (init client) "2024-01-03T00:00:01" "2024-01-03T00:00:02")
              (exec (update_scraper_status (init client) "running" 0.5
                       "2024-01-03T00:00:00") blank)
            = inr after_update)
    by (vm_compute; reflexivity).
  split; [reflexivity |]. split; [exact Hdone |]. split; [exact Hreport |].
  exact (get_metrics_reports_written_status (init client) "running" 0.5%float
           "2024-01-03T00:00:00" "2024-01-03T00:00:01" "2024-01-03T00:00:02" blank
           after_update eq_refl Hdone Hreport).
Defined.

(** X28 on a server with 41 searches and a history of a hundred entries. *)
Lemma update_search_stats_keeps_last_100_witness :
  let entry :=
    json_dumps (JObject [("query", JString "kamaz");
                         ("timestamp", JString "2024-01-03T00:00:00")]) in
  let s' := exec (update_search_stats (init client) (JString "kamaz")
                    "2024-01-03T00:00:00") searched in
  reliable searched /\
  counter_at "btagent:search_count" (data searched) = Some 41%Z /\
  (41 + 1 < 2 ^ 63)%Z /\
  list_at "btagent:search_history" (data searched) = Some (replicate 100 "earlier") /\
  eval (update_search_stats (init client) (JString "kamaz") "2024-01-03T00:00:00") searched
  = inr true /\
  counter_at "btagent:search_count" (data s') = Some 42%Z /\
  list_at "btagent:search_history" (data s')
  = Some (take 100 (entry :: replicate 100 "earlier")) /\
  length (take 100 (entry :: replicate 100 "earlier")) <= 100.
Proof.
  intros entry s'.
  assert (Hcounter : counter_at "btagent:search_count" (data searched) = Some 41%Z)
    by (vm_compute; reflexivity).
  assert (Hroom : (41 + 1 < 2 ^ 63)%Z) by reflexivity.
  assert (Hlist : list_at "btagent:search_history" (data searched)
                  = Some (replicate 100 "earlier")) by (vm_compute; reflexivity).
  split; [exact searched_reliable |]. split; [exact Hcounter |]. split; [exact Hroom |].
  split; [exact Hlist |].
  exact (update_search_stats_keeps_last_100 (init client) (JString "kamaz")
           "2024-01-03T00:00:00" 41%Z (replicate 100 "earlier") searched
           searched_reliable Hcounter Hroom Hlist).
Defined.

(** X29 on a server whose history key holds a string. *)
Lemma update_search_stats_counts_before_failing_witness :
  let s' := exec (update_search_stats (init client) (JString "kamaz")
                    "2024-01-03T00:00:00") clashing in
  counter_at "btagent:search_count" (data clashing) = Some 0%Z /\
  (0 + 1 < 2 ^ 63)%Z /\
  reliable clashing /\
  list_at "btagent:search_history" (data clashing) = None /\
  eval (update_search_stats (init client) (JString "kamaz") "2024-01-03T00:00:00") clashing
  = inr false /\
  counter_at "btagent:search_count" (data s') = Some 1%Z /\
  data s' !! "btagent:search_history" = data clashing !! "btagent:search_history".
Proof.
  intros s'.
  assert (Hcounter : counter_at "btagent:search_count" (data clashing) = Some 0%Z)
    by (vm_compute; reflexivity).
  assert (Hroom : (0 + 1 < 2 ^ 63)%Z) by reflexivity.
  assert (Hlist : list_at "btagent:search_history" (data clashing) = None)
    by (vm_compute; reflexivity).
  split; [exact Hcounter |]. split; [exact Hroom |]. split; [exact clashing_reliable |].
  split; [exact Hlist |].
  exact (update_search_stats_counts_before_failing (init client) (JString "kamaz")
           "2024-01-03T00:00:00" 0%Z clashing Hcounter Hroom
           (or_introl (conj clashing_reliable Hlist))).
Defined.

(** X30 on a server that holds nothing, with every call succeeding and
    with the second call failing. *)
Lemma update_agent_stats_counts_witness :
  counter_at "btagent:conversation_count" (data blank) = Some 0%Z /\
  (0 + 1 < 2 ^ 63)%Z /\
  counter_at "btagent:message_count" (data blank) = Some 0%Z /\
  reliable blank /\
  faults dropping = [false; true] /\
  (eval (update_agent_stats (init client)) blank = inr true /\
   counter_at "btagent:conversation_count"
     (data (exec (update_agent_stats (init client)) blank)) = Some 1%Z /\
   counter_at "btagent:message_count"
     (data (exec (update_agent_stats (init client)) blank)) = Some 1%Z) /\
  (eval (update_agent_stats (init client)) dropping = inr false /\
   counter_at "btagent:conversation_count"
     (data (exec (update_agent_stats (init client)) dropping)) = Some 1%Z /\
   counter_at "btagent:message_count"
     (data (exec (update_agent_stats (init client)) dropping)) = Some 0%Z).
Proof.
  assert (Hn : counter_at "btagent:conversation_count" (data blank) = Some 0%Z)
    by reflexivity.
  assert (Hroom : (0 + 1 < 2 ^ 63)%Z) by reflexivity.
  assert (Hm : counter_at "btagent:message_count" (data blank) = Some 0%Z) by reflexivity.
  split; [exact Hn |]. split; [exact Hroom |]. split; [exact Hm |].
  split; [exact blank_reliable |]. split; [reflexivity |]. split.
  - exact (proj1 (update_agent_stats_counts (init client) 0%Z 0%Z blank Hn Hroom Hm)
             blank_reliable Hroom).
  - exact (proj2 (update_agent_stats_counts (init client) 0%Z 0%Z dropping Hn Hroom Hm)
             [] eq_refl).
Defined.

(** A hundred and one entries become a hundred: the oldest is dropped. *)
Example history_drops_the_oldest :
  list_at "btagent:search_history"
    (data (exec (update_search_stats (init client) (JString "kamaz")
                   "2024-01-03T00:00:00") searched))
  = Some (json_dumps (JObject [("query", JString "kamaz");
                               ("timestamp", JString "2024-01-03T00:00:00")])
          :: replicate 99 "earlier").
Proof. vm_compute. reflexivity. Qed.

End MetricsRuns.
